(** * Q-MacroAgent UI: a shallow embedding of the client-side state logic

    The development follows the TypeScript sources of the research UI:

    - [JsStr]       JavaScript strings as sequences of UTF-16 code units,
                    with [trim], [startsWith] and [includes];
    - [BatchForm]   ui/src/components/QuantumBatchForm.tsx;
    - [BatchPage]   the quantum batch page (WebSocket session);
    - [Handlers]    ui/src/utils/handlers.ts and ui/src/utils/constants.ts;
    - [Queries]     ui/src/components/ResearchQueries.tsx;
    - [MapsLoader]  the script loader of ui/src/components/LocationInput.tsx;
    - [BatchFormView], [BatchSession], [BatchStatus]  what the batch form
                    and page show, the page's submission and reset, and
                    ui/src/components/QuantumBatchStatus.tsx;
    - [HandlersIO], [PollRuns]  the PDF and clipboard handlers of
                    handlers.ts, the report's buttons, and runs of polls;
    - [QueriesView], [MapsLoaderTidy]  row counts of the queries panel and
                    the loader's promises and timers;
    - [ExampleFlow], [StatusCard], [ReportParagraph]  the example popup with
                    ResearchForm.tsx, ResearchStatus.tsx, and the paragraph
                    renderer of the report.

    The first part of the file holds the model, one module per source file;
    the second part holds the lemmas and theorems, in modules named after
    the ones they speak about.

    React state is a record; a handler is the list of setter calls and other
    effects it performs, in program order, and the state after the handler is
    the fold of those calls over the state before it. *)

From Stdlib Require Import String Ascii.
From Stdlib Require Import List NArith ZArith Bool Lia Arith.
From Stdlib Require DecimalString.
Import ListNotations.

Set Implicit Arguments.

(* ================================================================== *)
(** ** JavaScript strings *)
(* ================================================================== *)

Module JsStr.

(** A JavaScript string is a sequence of UTF-16 code units. *)
Definition JsString := list N.

(** An ASCII literal of the source, as code units. *)
Definition lit (s : string) : JsString :=
  map N_of_ascii (list_ascii_of_string s).

Fixpoint eqb (a b : JsString) : bool :=
  match a, b with
  | [], [] => true
  | x :: a', y :: b' => N.eqb x y && eqb a' b'
  | _, _ => false
  end.

(** Truthiness of a string value: every string but the empty one. *)
Definition truthy (s : JsString) : bool :=
  match s with [] => false | _ :: _ => true end.

(** [a || b] on strings. *)
Definition or_else (a b : JsString) : JsString :=
  if truthy a then a else b.

(** [s.startsWith(p)] *)
Fixpoint startsWith (p s : JsString) : bool :=
  match p, s with
  | [], _ => true
  | _ :: _, [] => false
  | x :: p', y :: s' => N.eqb x y && startsWith p' s'
  end.

(** [s.includes(p)] *)
Fixpoint includes (p s : JsString) : bool :=
  startsWith p s ||
  match s with
  | [] => false
  | _ :: s' => includes p s'
  end.

(** WhiteSpace and LineTerminator code units of ECMAScript, the ones
    [String.prototype.trim] strips. *)
Definition is_space (c : N) : bool :=
  let c := Z.of_N c in
  ((9 <=? c) && (c <=? 13) ||
   (c =? 32) || (c =? 160) || (c =? 5760) ||
   (8192 <=? c) && (c <=? 8202) ||
   (c =? 8232) || (c =? 8233) || (c =? 8239) || (c =? 8287) ||
   (c =? 12288) || (c =? 65279))%Z.

Fixpoint trimStart (s : JsString) : JsString :=
  match s with
  | [] => []
  | c :: s' => if is_space c then trimStart s' else s
  end.

Definition trimEnd (s : JsString) : JsString := rev (trimStart (rev s)).

(** [s.trim()] *)
Definition trim (s : JsString) : JsString := trimEnd (trimStart s).

(** A name is blank when it is empty or made of white space only. *)
Definition blank (s : JsString) : bool := forallb is_space s.

End JsStr.

(* ================================================================== *)
(** ** Array callbacks that receive the index *)
(* ================================================================== *)

Module JsArray.

(** [l.filter((x, i) => p x i)], the index counted from [i]. *)
Fixpoint filter_index {A} (p : A -> nat -> bool) (i : nat) (l : list A) : list A :=
  match l with
  | [] => []
  | x :: l' =>
      if p x i then x :: filter_index p (S i) l' else filter_index p (S i) l'
  end.

(** [l.map((x, i) => f x i)], the index counted from [i]. *)
Fixpoint map_index {A B} (f : A -> nat -> B) (i : nat) (l : list A) : list B :=
  match l with
  | [] => []
  | x :: l' => f x i :: map_index f (S i) l'
  end.

End JsArray.

(* ================================================================== *)
(** ** ui/src/components/QuantumBatchForm.tsx *)
(* ================================================================== *)

Module BatchForm.
Import JsStr JsArray.

Record Company := mkCompany {
  name : JsString;
  industry : JsString;
  company_url : JsString;
  hq_location : JsString
}.

(** [keyof Company] *)
Inductive Field := FName | FIndustry | FCompanyUrl | FHqLocation.

(** A number as [parseInt] yields it: an integer, or NaN. *)
Inductive JsInt := NaN | Int (z : Z).

Record QuantumSettings := mkSettings {
  quantum_enabled : bool;
  max_companies : JsInt;
  quantum_layers : JsInt;
  quantum_shots : JsInt
}.

(** The component's [useState] cells. *)
Record FormState := mkForm {
  companies : list Company;
  quantumSettings : QuantumSettings;
  showQuantumSettings : bool
}.

Definition blankCompany : Company := mkCompany [] [] [] [].

Definition initialState : FormState :=
  mkForm [blankCompany] (mkSettings true (Int 8) (Int 3) (Int 1000)) false.

Definition setCompanies (l : list Company) (st : FormState) : FormState :=
  mkForm l (quantumSettings st) (showQuantumSettings st).

(** [n < m] for a length [n] and a number [m]; every comparison with NaN
    is false. *)
Definition length_lt (n : nat) (m : JsInt) : bool :=
  match m with
  | NaN => false
  | Int z => (Z.of_nat n <? z)%Z
  end.

(** [n >= m], again false for NaN. *)
Definition length_ge (n : nat) (m : JsInt) : bool :=
  match m with
  | NaN => false
  | Int z => (z <=? Z.of_nat n)%Z
  end.

(** The [disabled] attribute of the button that calls [addCompany]. *)
Definition addCompanyDisabled (st : FormState) : bool :=
  length_ge (length (companies st)) (max_companies (quantumSettings st)).

Definition addCompany (st : FormState) : FormState :=
  if length_lt (length (companies st)) (max_companies (quantumSettings st))
  then setCompanies (companies st ++ [blankCompany]) st
  else st.

Definition removeCompany (index : nat) (st : FormState) : FormState :=
  if 1 <? length (companies st)
  then setCompanies
         (filter_index (fun _ i => negb (i =? index)) 0 (companies st)) st
  else st.

(** [{ ...company, [field]: value }] *)
Definition setField (field : Field) (value : JsString) (c : Company) : Company :=
  match field with
  | FName => mkCompany value (industry c) (company_url c) (hq_location c)
  | FIndustry => mkCompany (name c) value (company_url c) (hq_location c)
  | FCompanyUrl => mkCompany (name c) (industry c) value (hq_location c)
  | FHqLocation => mkCompany (name c) (industry c) (company_url c) value
  end.

Definition updateCompany (index : nat) (field : Field) (value : JsString)
    (st : FormState) : FormState :=
  let updated :=
    map_index (fun company i =>
                 if i =? index then setField field value company else company)
              0 (companies st) in
  setCompanies updated st.

Definition loadExampleCompanies (st : FormState) : FormState :=
  setCompanies
    [ mkCompany [29305; 26031; 25289]%N [27773; 36710]%N
                (lit "https://www.tesla.com") [32654; 22269]%N;
      mkCompany [23567; 31859]%N [31185; 25216]%N
                (lit "https://www.mi.com") [20013; 22269]%N;
      mkCompany (lit "Apple") [31185; 25216]%N
                (lit "https://www.apple.com") [32654; 22269]%N;
      mkCompany (lit "Vivo") [31185; 25216]%N
                (lit "https://www.vivo.com") [20013; 22269]%N ]
    st.

(** The [onChange] of the item-cap input. *)
Definition setMaxCompanies (m : JsInt) (st : FormState) : FormState :=
  let q := quantumSettings st in
  mkForm (companies st)
         (mkSettings (quantum_enabled q) m (quantum_layers q) (quantum_shots q))
         (showQuantumSettings st).

(** [QuantumBatchFormData], the payload handed to [onSubmit]. *)
Record QuantumBatchFormData := mkFormData {
  fd_companies : list Company;
  fd_quantum_enabled : bool;
  fd_max_companies : JsInt;
  fd_quantum_layers : JsInt;
  fd_quantum_shots : JsInt
}.

Inductive Effect :=
| PreventDefault
| Alert (msg : JsString)
| OnSubmit (formData : QuantumBatchFormData).

Definition handleSubmit (st : FormState) : list Effect :=
  let validCompanies :=
    filter (fun company => truthy (trim (name company))) (companies st) in
  PreventDefault ::
  if length validCompanies =? 0
  then [Alert [35831; 33267; 23569; 28155; 21152; 19968; 23478; 20844; 21496]%N]
  else
    let q := quantumSettings st in
    [OnSubmit (mkFormData validCompanies (quantum_enabled q) (max_companies q)
                          (quantum_layers q) (quantum_shots q))].

(** The rows whose name is not blank, in the order of the list. *)
Definition namedCompanies (l : list Company) : list Company :=
  filter (fun c => negb (blank (name c))) l.

(** The payloads [onSubmit] was called with. *)
Fixpoint submissions (l : list Effect) : list QuantumBatchFormData :=
  match l with
  | [] => []
  | OnSubmit fd :: l' => fd :: submissions l'
  | _ :: l' => submissions l'
  end.

(** The user's operations on the company list and the item cap. *)
Inductive Op :=
| OpAdd
| OpRemove (index : nat)
| OpUpdate (index : nat) (field : Field) (value : JsString)
| OpLoadExamples
| OpSetMax (m : JsInt).

Definition step (st : FormState) (o : Op) : FormState :=
  match o with
  | OpAdd => addCompany st
  | OpRemove i => removeCompany i st
  | OpUpdate i f v => updateCompany i f v st
  | OpLoadExamples => loadExampleCompanies st
  | OpSetMax m => setMaxCompanies m st
  end.

Definition run (ops : list Op) (st : FormState) : FormState :=
  fold_left step ops st.

End BatchForm.

(* ================================================================== *)
(** ** ui/src/utils/constants.ts *)
(* ================================================================== *)

Module Constants.

(** WebSocket configuration. *)
Definition MAX_RECONNECT_ATTEMPTS : Z := 3.
Definition RECONNECT_DELAY : Z := 2000.

(** [ANIMATION_DURATIONS.reset] *)
Definition ANIMATION_DURATIONS_reset : Z := 300.

End Constants.

(* ================================================================== *)
(** ** The quantum batch page: its WebSocket session *)
(* ================================================================== *)

Module BatchPage.
Import JsStr.

(** A parsed JSON value. A number is kept as an integer: the page only ever
    tests a number for being zero. *)
#[local] Unset Elimination Schemes.
Inductive Json :=
| JNull
| JBool (b : bool)
| JNum (z : Z)
| JStr (s : JsString)
| JArr (l : list Json)
| JObj (l : list (JsString * Json)).
#[local] Set Elimination Schemes.

(** A value of type [any] read from a field: the field may be missing. *)
Inductive JsAny := Undefined | Val (j : Json).

(** Truthiness of a JSON value. *)
Definition jsonTruthy (j : Json) : bool :=
  match j with
  | JNull => false
  | JBool b => b
  | JNum z => negb (z =? 0)%Z
  | JStr s => truthy s
  | JArr _ | JObj _ => true
  end.

(** Truthiness of a value of type [any]. *)
Definition anyTruthy (r : JsAny) : bool :=
  match r with
  | Undefined => false
  | Val j => jsonTruthy j
  end.

(** The [useState] cells of [QuantumBatchPage]. The cells [status],
    [message] and [error] are declared with string types, but the socket's
    handler stores fields of a parsed message in them as they come, so they
    hold any JSON value; [null] is [JNull]. *)
Record PageState := mkPage {
  isResearching : bool;
  status : Json;
  message : Json;
  currentPhase : JsString;
  progress : Z;
  results : JsAny;
  error : Json;
  companies : list JsString;
  jobId : option JsString
}.

Definition initialPage : PageState :=
  mkPage false (JStr (lit "idle")) (JStr []) [] 0 (Val JNull) JNull [] None.

(** The page together with the sockets it has constructed so far
    ([new WebSocket(url)]), the latest first. *)
Record World := mkWorld {
  page : PageState;
  sockets : list JsString
}.

(** The three properties the handler reads of the value [data] that
    [JSON.parse] returns, each of type [any]: whatever JSON value the frame
    holds under that key, or [Undefined] when [data] has no such property
    (as when [data] is a number, a string, a boolean or an array). *)
Record WsData := mkData {
  d_status : JsAny;
  d_message : JsAny;
  d_result : JsAny
}.

(** [JSON.parse(event.data)]: it throws, or it returns [null], of which no
    property can be read, or it returns a value with its properties. *)
Inductive Frame :=
| Unparsable
| ParsedNull
| Parsed (data : WsData).

Inductive Action :=
| SetIsResearching (b : bool)
| SetStatus (s : Json)
| SetMessage (s : Json)
| SetCurrentPhase (s : JsString)
| SetProgress (n : Z)
| SetResults (r : JsAny)
| SetError (e : Json)
| NewWebSocket (url : JsString)
| ConsoleLog
| ConsoleError.

Definition applyPage (p : PageState) (a : Action) : PageState :=
  match a with
  | SetIsResearching b =>
      mkPage b (status p) (message p) (currentPhase p) (progress p)
             (results p) (error p) (companies p) (jobId p)
  | SetStatus s =>
      mkPage (isResearching p) s (message p) (currentPhase p) (progress p)
             (results p) (error p) (companies p) (jobId p)
  | SetMessage s =>
      mkPage (isResearching p) (status p) s (currentPhase p) (progress p)
             (results p) (error p) (companies p) (jobId p)
  | SetCurrentPhase s =>
      mkPage (isResearching p) (status p) (message p) s (progress p)
             (results p) (error p) (companies p) (jobId p)
  | SetProgress n =>
      mkPage (isResearching p) (status p) (message p) (currentPhase p) n
             (results p) (error p) (companies p) (jobId p)
  | SetResults r =>
      mkPage (isResearching p) (status p) (message p) (currentPhase p)
             (progress p) r (error p) (companies p) (jobId p)
  | SetError e =>
      mkPage (isResearching p) (status p) (message p) (currentPhase p)
             (progress p) (results p) e (companies p) (jobId p)
  | NewWebSocket _ | ConsoleLog | ConsoleError => p
  end.

Definition apply (w : World) (a : Action) : World :=
  mkWorld (applyPage (page w) a)
          match a with
          | NewWebSocket url => url :: sockets w
          | _ => sockets w
          end.

Definition perform (acts : list Action) (w : World) : World :=
  fold_left apply acts w.

(** [field || dflt]: the field's value when it is truthy, the default when
    the field is missing or holds a falsy value ([null], [false], [0],
    the empty string). *)
Definition field_or (field : JsAny) (dflt : Json) : Json :=
  match field with
  | Val j => if jsonTruthy j then j else dflt
  | Undefined => dflt
  end.

(** [field === 'literal']: only a string is strictly equal to a string. *)
Definition field_is (field : JsAny) (literal : string) : bool :=
  match field with
  | Val (JStr s) => eqb s (lit literal)
  | _ => false
  end.

(** [x === pattern] for an element [x] of an array. *)
Definition isText (pattern : JsString) (x : Json) : bool :=
  match x with
  | JStr s => eqb s pattern
  | _ => false
  end.

(** [m.includes(pattern)] for a value [m]: the substring test of a string,
    the membership test of an array, and a TypeError, [None], for every
    other value, which has no method [includes]. *)
Definition valueIncludes (m : Json) (pattern : JsString) : option bool :=
  match m with
  | JStr s => Some (includes pattern s)
  | JArr l => Some (existsb (isText pattern) l)
  | JNull | JBool _ | JNum _ | JObj _ => None
  end.

(** The chain of [data.message.includes(...)] tests; [None] when a test
    throws. *)
Definition phaseFromMessage (m : Json) : option (list Action) :=
  match valueIncludes m (lit "Collecting high-quality data") with
  | None => None
  | Some true => Some [SetCurrentPhase (lit "data_collection"); SetProgress 20]
  | Some false =>
  match valueIncludes m (lit "Quantum encoding") with
  | None => None
  | Some true => Some [SetCurrentPhase (lit "quantum_encoding"); SetProgress 40]
  | Some false =>
  match valueIncludes m (lit "parallel processing") with
  | None => None
  | Some true =>
      Some [SetCurrentPhase (lit "quantum_processing"); SetProgress 60]
  | Some false =>
  match valueIncludes m (lit "Generating quantum-enhanced") with
  | None => None
  | Some true =>
      Some [SetCurrentPhase (lit "report_generation"); SetProgress 80]
  | Some false =>
  match valueIncludes m (lit "completed") with
  | None => None
  | Some true => Some [SetCurrentPhase (lit "knowledge_base"); SetProgress 100]
  | Some false => Some []
  end end end end end.

(** [if (data.message) { ... }] *)
Definition phaseUpdate (data : WsData) : option (list Action) :=
  match d_message data with
  | Val m => if jsonTruthy m then phaseFromMessage m else Some []
  | Undefined => Some []
  end.

(** [if (data.status === 'completed') { ... } else if (...) { ... }] *)
Definition outcome (data : WsData) : list Action :=
  if field_is (d_status data) "completed" then
    [SetIsResearching false; SetResults (d_result data); SetProgress 100]
  else if field_is (d_status data) "failed"
          || field_is (d_status data) "error" then
    [SetIsResearching false;
     SetError (field_or (d_message data) (JStr (lit "Analysis failed")))]
  else [].

(** [wsRef.current.onmessage]. Whatever is thrown inside the [try] block is
    caught and logged, and the statements after the one that throws are not
    run: [JSON.parse] throws before anything is done; reading [data.status]
    of [null] throws after the log; a [message] without [includes] throws
    after [setStatus] and [setMessage], before the status is looked at. *)
Definition onmessage (frame : Frame) : list Action :=
  match frame with
  | Unparsable => [ConsoleError]
  | ParsedNull => [ConsoleLog; ConsoleError]
  | Parsed data =>
      [ConsoleLog;
       SetStatus (field_or (d_status data) (JStr (lit "processing")));
       SetMessage (field_or (d_message data) (JStr []))]
      ++ match phaseUpdate data with
         | Some phase => phase ++ outcome data
         | None => [ConsoleError]
         end
  end.

Definition onopen : list Action := [ConsoleLog].

Definition onerror : list Action :=
  [ConsoleError; SetError (JStr (lit "WebSocket connection error"))].

Definition onclose : list Action := [ConsoleLog].

(** [connectWebSocket(jobId)]; [constructed] is false when [new WebSocket]
    throws. *)
Definition connectWebSocket (WS_URL jobId : JsString) (constructed : bool)
    : list Action :=
  if constructed
  then [NewWebSocket (WS_URL ++ lit "/research/ws/" ++ jobId)]
  else [ConsoleError;
        SetError (JStr (lit "Failed to establish WebSocket connection"))].

(** What the transport can deliver to the handlers of a socket. *)
Inductive WsEvent :=
| Open
| Message (frame : Frame)
| Error
| Close.

Definition handle (e : WsEvent) : list Action :=
  match e with
  | Open => onopen
  | Message d => onmessage d
  | Error => onerror
  | Close => onclose
  end.

Definition deliver (w : World) (e : WsEvent) : World := perform (handle e) w.

Definition deliverAll (es : list WsEvent) (w : World) : World :=
  fold_left deliver es w.

(** Loss of the transport, as the socket reports it. *)
Inductive Loss := LossError | LossClose.

Definition lossEvent (l : Loss) : WsEvent :=
  match l with LossError => Error | LossClose => Close end.

(** Does a handler run open a connection? *)
Definition opensSocket (acts : list Action) : bool :=
  existsb (fun a => match a with NewWebSocket _ => true | _ => false end) acts.

(** The rows of the phase table as the specification words them: pattern,
    phase, progress, tested from the first row on. *)
Definition phaseTable : list (JsString * (JsString * Z)) :=
  [ (lit "Collecting high-quality data", (lit "data_collection", 20%Z));
    (lit "Quantum encoding", (lit "quantum_encoding", 40%Z));
    (lit "parallel processing", (lit "quantum_processing", 60%Z));
    (lit "Generating quantum-enhanced", (lit "report_generation", 80%Z));
    (lit "completed", (lit "knowledge_base", 100%Z)) ].

(** First match wins; no match, or no text, keeps the current values. *)
Definition tablePhase (p : PageState) (text : option JsString) : JsString * Z :=
  match text with
  | None => (currentPhase p, progress p)
  | Some m =>
      match find (fun row => includes (fst row) m) phaseTable with
      | Some row => snd row
      | None => (currentPhase p, progress p)
      end
  end.

(** The same table read against the elements of a list: a row matches when
    its pattern is one of the elements. *)
Definition tablePhaseOfElements (p : PageState) (l : list Json)
    : JsString * Z :=
  match find (fun row => existsb (isText (fst row)) l) phaseTable with
  | Some row => snd row
  | None => (currentPhase p, progress p)
  end.

(** The table read against a message field: against the text of a string,
    against the elements of a list; any other value matches no row. *)
Definition tablePhaseOf (p : PageState) (field : JsAny) : JsString * Z :=
  match field with
  | Val (JStr s) => tablePhase p (Some s)
  | Val (JArr l) => tablePhaseOfElements p l
  | _ => tablePhase p None
  end.

(** A message field that is neither text nor a list nor falsy: a non-zero
    number, [true], or an object. *)
Definition notText (field : JsAny) : bool :=
  match field with
  | Val (JBool b) => b
  | Val (JNum z) => negb (z =? 0)%Z
  | Val (JObj _) => true
  | _ => false
  end.

(** The status field of a frame; a frame that does not parse, or is [null],
    has none. *)
Definition statusOf (frame : Frame) : JsAny :=
  match frame with
  | Parsed data => d_status data
  | Unparsable | ParsedNull => Undefined
  end.

(** The message field of a frame. *)
Definition messageOf (frame : Frame) : JsAny :=
  match frame with
  | Parsed data => d_message data
  | Unparsable | ParsedNull => Undefined
  end.

(** The statuses that end the session. *)
Definition endsSession (s : JsAny) : Prop :=
  s = Val (JStr (lit "completed")) \/ s = Val (JStr (lit "failed"))
  \/ s = Val (JStr (lit "error")).

End BatchPage.

(* ================================================================== *)
(** ** ui/src/components/ResearchQueries.tsx *)
(* ================================================================== *)

Module Queries.
Import JsStr JsArray.

(** Modelled from the spec: the element type of [queries] and of the values
    of [streamingQueries] is declared in ui/src/types, which is not among the
    sources; the specification's QueryRecord has a category, a sequence
    number, a text and a completion flag. The component reads [category]
    and [text] only. *)
Record Query := mkQuery {
  text : JsString;
  number : Z;
  category : JsString;
  is_complete : bool
}.

(** The array literal the component maps over. *)
Definition categories : list JsString :=
  [lit "company"; lit "industry"; lit "financial"; lit "news"].

(** One rendered row of a category card, with its React key. *)
Inductive Item :=
| StreamingItem (key : JsString) (query : Query)
| CompletedItem (idx : nat) (query : Query).

Record Card := mkCard {
  card_key : JsString;
  items : list Item
}.

(** What the panel shows: the four cards, and the summary line when the
    panel is collapsed ([queries.length] and the number of categories). *)
Record View := mkView {
  cards : list Card;
  summary : option (nat * nat)
}.

(** [Object.entries(streamingQueries).filter(([key]) =>
    key.startsWith(category)).map(...)]; the object is given by its entries in
    enumeration order. *)
Definition streamingItems (cat : JsString)
    (streamingQueries : list (JsString * Query)) : list Item :=
  map (fun e => StreamingItem (fst e) (snd e))
      (filter (fun e => startsWith cat (fst e)) streamingQueries).

(** [queries.filter((q) => q.category.startsWith(category)).map(...)] *)
Definition completedItems (cat : JsString) (queries : list Query) : list Item :=
  map_index (fun query idx => CompletedItem idx query) 0
            (filter (fun q => startsWith cat (category q)) queries).

Definition ResearchQueries (queries : list Query)
    (streamingQueries : list (JsString * Query)) (isExpanded : bool) : View :=
  mkView
    (map (fun cat =>
            mkCard cat (streamingItems cat streamingQueries
                        ++ completedItems cat queries))
         categories)
    (if negb isExpanded
     then Some (length queries, length categories)
     else None).

Definition isStreaming (i : Item) : bool :=
  match i with StreamingItem _ _ => true | CompletedItem _ _ => false end.

Definition isCompleted (i : Item) : bool := negb (isStreaming i).

Definition itemQuery (i : Item) : Query :=
  match i with StreamingItem _ q | CompletedItem _ q => q end.

Definition query_eqb (a b : Query) : bool :=
  eqb (text a) (text b) && Z.eqb (number a) (number b)
  && eqb (category a) (category b) && Bool.eqb (is_complete a) (is_complete b).

(** How many completed rows of a card show the query [q]. *)
Definition shownCompleted (q : Query) (c : Card) : nat :=
  length (filter (fun i => isCompleted i && query_eqb q (itemQuery i)) (items c)).

(** How many times [q] occurs in the list. *)
Definition occurrences (q : Query) (l : list Query) : nat :=
  length (filter (query_eqb q) l).

End Queries.

(* ================================================================== *)
(** ** ui/src/utils/handlers.ts *)
(* ================================================================== *)

Module Handlers.
Import JsStr.

(** The shapes of [ResearchOutput], [ResearchStatusType] and [ResearchState]
    as the object literals of handlers.ts build them. *)
Record ResearchOutput := mkOutput {
  summary : JsString;
  details_report : JsString
}.

Record ResearchStatusType := mkStatus {
  step : JsString;
  status_message : JsString
}.

(** ['search' | 'enrichment' | 'briefing' | 'complete'] *)
Inductive Phase := search | enrichment | briefing | complete.

Record BriefingStatus := mkBriefing {
  company : bool;
  industry : bool;
  financial : bool;
  news : bool
}.

Record ResearchState := mkResearch {
  rs_status : JsString;
  rs_message : JsString;
  queries : list Queries.Query;
  streamingQueries : list (JsString * Queries.Query);
  briefingStatus : BriefingStatus
}.

(** *** checkForFinalReport *)

Module Poll.

(** The body of the status reply: the two fields the function reads. *)
Record PollResult := mkResult { report : option JsString }.

Record PollData := mkPoll {
  status : option JsString;
  result : option PollResult
}.

(** [await fetch(...)] and [await response.json()]: the fetch rejects, or
    yields a response with its [ok] flag and a body; the body is [None] when
    it is not a JSON object. *)
Inductive Reply :=
| FetchRejected
| Response (ok : bool) (body : option PollData).

(** The cells behind the setters the function is handed, the polling ref and
    the interval timers that are running. *)
Record Observer := mkObserver {
  output : option ResearchOutput;
  obs_status : option ResearchStatusType;
  isComplete : bool;
  isResearching : bool;
  currentPhase : option Phase;
  hasFinalReport : bool;
  pollingIntervalRef : option positive;
  intervals : list positive
}.

Inductive Effect :=
| Fetch (url : JsString)
| SetOutput (o : option ResearchOutput)
| SetStatus (s : option ResearchStatusType)
| SetIsComplete (b : bool)
| SetIsResearching (b : bool)
| SetCurrentPhase (p : option Phase)
| SetHasFinalReport (b : bool)
| ClearInterval (t : positive)
| SetPollingIntervalRef (t : option positive)
| ConsoleError.

Definition apply (o : Observer) (e : Effect) : Observer :=
  match e with
  | SetOutput x =>
      mkObserver x (obs_status o) (isComplete o) (isResearching o)
                 (currentPhase o) (hasFinalReport o) (pollingIntervalRef o)
                 (intervals o)
  | SetStatus x =>
      mkObserver (output o) x (isComplete o) (isResearching o)
                 (currentPhase o) (hasFinalReport o) (pollingIntervalRef o)
                 (intervals o)
  | SetIsComplete x =>
      mkObserver (output o) (obs_status o) x (isResearching o)
                 (currentPhase o) (hasFinalReport o) (pollingIntervalRef o)
                 (intervals o)
  | SetIsResearching x =>
      mkObserver (output o) (obs_status o) (isComplete o) x
                 (currentPhase o) (hasFinalReport o) (pollingIntervalRef o)
                 (intervals o)
  | SetCurrentPhase x =>
      mkObserver (output o) (obs_status o) (isComplete o) (isResearching o)
                 x (hasFinalReport o) (pollingIntervalRef o) (intervals o)
  | SetHasFinalReport x =>
      mkObserver (output o) (obs_status o) (isComplete o) (isResearching o)
                 (currentPhase o) x (pollingIntervalRef o) (intervals o)
  | ClearInterval t =>
      mkObserver (output o) (obs_status o) (isComplete o) (isResearching o)
                 (currentPhase o) (hasFinalReport o) (pollingIntervalRef o)
                 (filter (fun t' => negb (Pos.eqb t' t)) (intervals o))
  | SetPollingIntervalRef x =>
      mkObserver (output o) (obs_status o) (isComplete o) (isResearching o)
                 (currentPhase o) (hasFinalReport o) x (intervals o)
  | Fetch _ | ConsoleError => o
  end.

Definition perform (es : list Effect) (o : Observer) : Observer :=
  fold_left apply es o.

(** [data.status === "completed"] *)
Definition status_is (data : PollData) (literal : string) : bool :=
  match status data with
  | Some s => eqb s (lit literal)
  | None => false
  end.

(** [data.result?.report], as a string; missing is the falsy empty string. *)
Definition result_report (data : PollData) : JsString :=
  match result data with
  | Some r => match report r with Some s => s | None => [] end
  | None => []
  end.

(** The function, given the reply its fetch gets and the value it finds in
    [pollingIntervalRef.current]. *)
Definition checkForFinalReport (API_URL jobId : JsString) (reply : Reply)
    (ref_current : option positive) : list Effect :=
  Fetch (API_URL ++ lit "/research/status/" ++ jobId) ::
  match reply with
  | FetchRejected => [ConsoleError]
  | Response false _ => [ConsoleError]
  | Response true None => [ConsoleError]
  | Response true (Some data) =>
      if status_is data "completed" && truthy (result_report data) then
        [SetOutput (Some (mkOutput [] (result_report data)));
         SetStatus (Some (mkStatus (lit "Complete")
                                   (lit "Research completed successfully")));
         SetIsComplete true;
         SetIsResearching false;
         SetCurrentPhase (Some complete);
         SetHasFinalReport true]
        ++ match ref_current with
           | Some t => [ClearInterval t; SetPollingIntervalRef None]
           | None => []
           end
      else []
  end.

(** One poll: the function run on the observer's current ref. *)
Definition poll (API_URL jobId : JsString) (reply : Reply) (o : Observer)
    : Observer :=
  perform (checkForFinalReport API_URL jobId reply (pollingIntervalRef o)) o.

(** The status the reply carries, if any. *)
Definition reply_status (reply : Reply) : option JsString :=
  match reply with
  | Response true (Some data) => status data
  | _ => None
  end.

(** Terminal states of a job: [completed] or [failed]. *)
Definition terminal (s : JsString) : bool :=
  eqb s (lit "completed") || eqb s (lit "failed").

(** Polling has stopped: no interval is referenced any more, and the one
    that was referenced is not running. *)
Definition pollingStopped (before after : Observer) : bool :=
  match pollingIntervalRef after with
  | Some _ => false
  | None =>
      match pollingIntervalRef before with
      | Some t => negb (existsb (Pos.eqb t) (intervals after))
      | None => true
      end
  end.

(** The observer after a poll that found the final report. *)
Definition finished (data : PollData) (o : Observer) : Observer :=
  mkObserver
    (Some (mkOutput [] (result_report data)))
    (Some (mkStatus (lit "Complete") (lit "Research completed successfully")))
    true false (Some complete) true None
    match pollingIntervalRef o with
    | Some t => filter (fun t' => negb (Pos.eqb t' t)) (intervals o)
    | None => intervals o
    end.

End Poll.

(** *** resetResearch *)

Module Reset.

(** The cells behind the fourteen setters the function is handed. *)
Record State := mkState {
  status : option ResearchStatusType;
  output : option ResearchOutput;
  error : option JsString;
  isComplete : bool;
  researchState : ResearchState;
  pdfUrl : option JsString;
  currentPhase : option Phase;
  isSearchPhase : bool;
  shouldShowQueries : bool;
  isQueriesExpanded : bool;
  isBriefingExpanded : bool;
  isEnrichmentExpanded : bool;
  isResetting : bool;
  hasScrolledToStatus : bool
}.

Inductive Setter :=
| SetStatus (v : option ResearchStatusType)
| SetOutput (v : option ResearchOutput)
| SetError (v : option JsString)
| SetIsComplete (v : bool)
| SetResearchState (v : ResearchState)
| SetPdfUrl (v : option JsString)
| SetCurrentPhase (v : option Phase)
| SetIsSearchPhase (v : bool)
| SetShouldShowQueries (v : bool)
| SetIsQueriesExpanded (v : bool)
| SetIsBriefingExpanded (v : bool)
| SetIsEnrichmentExpanded (v : bool)
| SetIsResetting (v : bool)
| SetHasScrolledToStatus (v : bool).

Definition set (s : State) (c : Setter) : State :=
  match c with
  | SetStatus v =>
      mkState v (output s) (error s) (isComplete s) (researchState s)
             (pdfUrl s) (currentPhase s) (isSearchPhase s)
             (shouldShowQueries s) (isQueriesExpanded s)
             (isBriefingExpanded s) (isEnrichmentExpanded s) (isResetting s)
             (hasScrolledToStatus s)
  | SetOutput v =>
      mkState (status s) v (error s) (isComplete s) (researchState s)
             (pdfUrl s) (currentPhase s) (isSearchPhase s)
             (shouldShowQueries s) (isQueriesExpanded s)
             (isBriefingExpanded s) (isEnrichmentExpanded s) (isResetting s)
             (hasScrolledToStatus s)
  | SetError v =>
      mkState (status s) (output s) v (isComplete s) (researchState s)
             (pdfUrl s) (currentPhase s) (isSearchPhase s)
             (shouldShowQueries s) (isQueriesExpanded s)
             (isBriefingExpanded s) (isEnrichmentExpanded s) (isResetting s)
             (hasScrolledToStatus s)
  | SetIsComplete v =>
      mkState (status s) (output s) (error s) v (researchState s) (pdfUrl s)
             (currentPhase s) (isSearchPhase s) (shouldShowQueries s)
             (isQueriesExpanded s) (isBriefingExpanded s)
             (isEnrichmentExpanded s) (isResetting s)
             (hasScrolledToStatus s)
  | SetResearchState v =>
      mkState (status s) (output s) (error s) (isComplete s) v (pdfUrl s)
             (currentPhase s) (isSearchPhase s) (shouldShowQueries s)
             (isQueriesExpanded s) (isBriefingExpanded s)
             (isEnrichmentExpanded s) (isResetting s)
             (hasScrolledToStatus s)
  | SetPdfUrl v =>
      mkState (status s) (output s) (error s) (isComplete s)
             (researchState s) v (currentPhase s) (isSearchPhase s)
             (shouldShowQueries s) (isQueriesExpanded s)
             (isBriefingExpanded s) (isEnrichmentExpanded s) (isResetting s)
             (hasScrolledToStatus s)
  | SetCurrentPhase v =>
      mkState (status s) (output s) (error s) (isComplete s)
             (researchState s) (pdfUrl s) v (isSearchPhase s)
             (shouldShowQueries s) (isQueriesExpanded s)
             (isBriefingExpanded s) (isEnrichmentExpanded s) (isResetting s)
             (hasScrolledToStatus s)
  | SetIsSearchPhase v =>
      mkState (status s) (output s) (error s) (isComplete s)
             (researchState s) (pdfUrl s) (currentPhase s) v
             (shouldShowQueries s) (isQueriesExpanded s)
             (isBriefingExpanded s) (isEnrichmentExpanded s) (isResetting s)
             (hasScrolledToStatus s)
  | SetShouldShowQueries v =>
      mkState (status s) (output s) (error s) (isComplete s)
             (researchState s) (pdfUrl s) (currentPhase s) (isSearchPhase s)
             v (isQueriesExpanded s) (isBriefingExpanded s)
             (isEnrichmentExpanded s) (isResetting s)
             (hasScrolledToStatus s)
  | SetIsQueriesExpanded v =>
      mkState (status s) (output s) (error s) (isComplete s)
             (researchState s) (pdfUrl s) (currentPhase s) (isSearchPhase s)
             (shouldShowQueries s) v (isBriefingExpanded s)
             (isEnrichmentExpanded s) (isResetting s)
             (hasScrolledToStatus s)
  | SetIsBriefingExpanded v =>
      mkState (status s) (output s) (error s) (isComplete s)
             (researchState s) (pdfUrl s) (currentPhase s) (isSearchPhase s)
             (shouldShowQueries s) (isQueriesExpanded s) v
             (isEnrichmentExpanded s) (isResetting s)
             (hasScrolledToStatus s)
  | SetIsEnrichmentExpanded v =>
      mkState (status s) (output s) (error s) (isComplete s)
             (researchState s) (pdfUrl s) (currentPhase s) (isSearchPhase s)
             (shouldShowQueries s) (isQueriesExpanded s)
             (isBriefingExpanded s) v (isResetting s)
             (hasScrolledToStatus s)
  | SetIsResetting v =>
      mkState (status s) (output s) (error s) (isComplete s)
             (researchState s) (pdfUrl s) (currentPhase s) (isSearchPhase s)
             (shouldShowQueries s) (isQueriesExpanded s)
             (isBriefingExpanded s) (isEnrichmentExpanded s) v
             (hasScrolledToStatus s)
  | SetHasScrolledToStatus v =>
      mkState (status s) (output s) (error s) (isComplete s)
             (researchState s) (pdfUrl s) (currentPhase s) (isSearchPhase s)
             (shouldShowQueries s) (isQueriesExpanded s)
             (isBriefingExpanded s) (isEnrichmentExpanded s) (isResetting s)
             v
  end.

(** An effect of the function: a setter call, or [setTimeout(body, ms)] with
    the setter calls of the callback. *)
Inductive Effect :=
| Call (c : Setter)
| SetTimeout (body : list Setter) (ms : Z).

(** The cells and the timers that are pending, the earliest registered
    first. *)
Record World := mkWorld {
  cells : State;
  timers : list (list Setter * Z)
}.

Definition runBody (body : list Setter) (s : State) : State :=
  fold_left set body s.

Definition apply (w : World) (e : Effect) : World :=
  match e with
  | Call c => mkWorld (set (cells w) c) (timers w)
  | SetTimeout body ms => mkWorld (cells w) (timers w ++ [(body, ms)])
  end.

Definition perform (es : list Effect) (w : World) : World :=
  fold_left apply es w.

(** The state literal handed to [setResearchState]. *)
Definition idleResearchState : ResearchState :=
  mkResearch (lit "idle") [] [] [] (mkBriefing false false false false).

(** The callback of the timer. *)
Definition resetBody : list Setter :=
  [ SetStatus None;
    SetOutput None;
    SetError None;
    SetIsComplete false;
    SetResearchState idleResearchState;
    SetPdfUrl None;
    SetCurrentPhase None;
    SetIsSearchPhase false;
    SetShouldShowQueries false;
    SetIsQueriesExpanded true;
    SetIsBriefingExpanded true;
    SetIsEnrichmentExpanded true;
    SetIsResetting false;
    SetHasScrolledToStatus false ].

Definition resetResearch : list Effect :=
  [ Call (SetIsResetting true);
    SetTimeout resetBody 300 ].

(** The event loop runs the pending callbacks, in order. *)
Fixpoint runTimers (ts : list (list Setter * Z)) (s : State) : State :=
  match ts with
  | [] => s
  | (body, _) :: ts' => runTimers ts' (runBody body s)
  end.

Definition settle (w : World) : World :=
  mkWorld (runTimers (timers w) (cells w)) [].

(** The idle state of the page. *)
Definition idleState : State :=
  mkState None None None false idleResearchState None None
          false false true true true false false.

End Reset.

End Handlers.

(* ================================================================== *)
(** ** ui/src/components/LocationInput.tsx: loadGoogleMapsScript *)
(* ================================================================== *)

Module MapsLoader.
Import JsStr.

Inductive PromiseState := Pending | Fulfilled | Rejected.

(** The script element created by the loader, once it is in the document:
    still loading (with the promise its [onerror] closure rejects), loaded,
    or failed. Nothing removes it from the document. *)
Inductive ScriptTag :=
| NotCreated
| Loading (p : nat)
| Loaded
| Failed.

Record World := mkWorld {
  (* module globals *)
  isScriptLoaded : bool;
  isScriptLoading : bool;
  scriptLoadPromise : option nat;
  (* the promises allocated so far; a promise is its index *)
  promises : list PromiseState;
  (* window.initGoogleMapsCallback: the promise its closure resolves *)
  initGoogleMapsCallback : option nat;
  (* the script element the loader created *)
  script : ScriptTag;
  (* another Maps script element is in the document *)
  pageScript : bool;
  (* window.google?.maps?.places is defined *)
  places : bool;
  (* running setInterval timers: identifier, promise of the closure *)
  intervals : list (nat * nat);
  (* pending 10 s timeouts: the interval they clear, promise *)
  timeouts : list (nat * nat);
  (* the next timer identifier *)
  nextTimer : nat;
  (* number of document.head.appendChild(script) calls *)
  appended : nat;
  (* import.meta.env.VITE_GOOGLE_MAPS_API_KEY *)
  apiKey : option JsString
}.

Definition set_isScriptLoaded (v : bool) (w : World) : World :=
  mkWorld v (isScriptLoading w) (scriptLoadPromise w) (promises w)
         (initGoogleMapsCallback w) (script w) (pageScript w) (places w)
         (intervals w) (timeouts w) (nextTimer w) (appended w) (apiKey w).

Definition set_isScriptLoading (v : bool) (w : World) : World :=
  mkWorld (isScriptLoaded w) v (scriptLoadPromise w) (promises w)
         (initGoogleMapsCallback w) (script w) (pageScript w) (places w)
         (intervals w) (timeouts w) (nextTimer w) (appended w) (apiKey w).

Definition set_scriptLoadPromise (v : option nat) (w : World) : World :=
  mkWorld (isScriptLoaded w) (isScriptLoading w) v (promises w)
         (initGoogleMapsCallback w) (script w) (pageScript w) (places w)
         (intervals w) (timeouts w) (nextTimer w) (appended w) (apiKey w).

Definition set_promises (v : list PromiseState) (w : World) : World :=
  mkWorld (isScriptLoaded w) (isScriptLoading w) (scriptLoadPromise w) v
         (initGoogleMapsCallback w) (script w) (pageScript w) (places w)
         (intervals w) (timeouts w) (nextTimer w) (appended w) (apiKey w).

Definition set_initGoogleMapsCallback (v : option nat) (w : World) : World :=
  mkWorld (isScriptLoaded w) (isScriptLoading w) (scriptLoadPromise w)
         (promises w) v (script w) (pageScript w) (places w) (intervals w)
         (timeouts w) (nextTimer w) (appended w) (apiKey w).

Definition set_script (v : ScriptTag) (w : World) : World :=
  mkWorld (isScriptLoaded w) (isScriptLoading w) (scriptLoadPromise w)
         (promises w) (initGoogleMapsCallback w) v (pageScript w) (places w)
         (intervals w) (timeouts w) (nextTimer w) (appended w) (apiKey w).

Definition set_places (v : bool) (w : World) : World :=
  mkWorld (isScriptLoaded w) (isScriptLoading w) (scriptLoadPromise w)
         (promises w) (initGoogleMapsCallback w) (script w) (pageScript w) v
         (intervals w) (timeouts w) (nextTimer w) (appended w) (apiKey w).

Definition set_intervals (v : list (nat * nat)) (w : World) : World :=
  mkWorld (isScriptLoaded w) (isScriptLoading w) (scriptLoadPromise w)
         (promises w) (initGoogleMapsCallback w) (script w) (pageScript w)
         (places w) v (timeouts w) (nextTimer w) (appended w) (apiKey w).

Definition set_timeouts (v : list (nat * nat)) (w : World) : World :=
  mkWorld (isScriptLoaded w) (isScriptLoading w) (scriptLoadPromise w)
         (promises w) (initGoogleMapsCallback w) (script w) (pageScript w)
         (places w) (intervals w) v (nextTimer w) (appended w) (apiKey w).

Definition set_nextTimer (v : nat) (w : World) : World :=
  mkWorld (isScriptLoaded w) (isScriptLoading w) (scriptLoadPromise w)
         (promises w) (initGoogleMapsCallback w) (script w) (pageScript w)
         (places w) (intervals w) (timeouts w) v (appended w) (apiKey w).

Definition set_appended (v : nat) (w : World) : World :=
  mkWorld (isScriptLoaded w) (isScriptLoading w) (scriptLoadPromise w)
         (promises w) (initGoogleMapsCallback w) (script w) (pageScript w)
         (places w) (intervals w) (timeouts w) (nextTimer w) v (apiKey w).

(** [resolve()] and [reject()] of promise [p]: a settled promise stays as
    it is. *)
Fixpoint settleAt (p : nat) (s : PromiseState) (l : list PromiseState)
    : list PromiseState :=
  match l, p with
  | [], _ => []
  | x :: l', O => (match x with Pending => s | _ => x end) :: l'
  | x :: l', S p' => x :: settleAt p' s l'
  end.

Definition resolve (p : nat) (w : World) : World :=
  set_promises (settleAt p Fulfilled (promises w)) w.

Definition reject (p : nat) (w : World) : World :=
  set_promises (settleAt p Rejected (promises w)) w.

(** A new promise in state [s]; its identifier is returned. *)
Definition alloc (s : PromiseState) (w : World) : World * nat :=
  (set_promises (promises w ++ [s]) w, length (promises w)).

Definition promiseState (w : World) (p : nat) : option PromiseState :=
  nth_error (promises w) p.

(** [document.querySelector('script[src*="maps.googleapis.com/maps/api/js"]')]
    finds an element. *)
Definition existingScript (w : World) : bool :=
  pageScript w || match script w with NotCreated => false | _ => true end.

Definition timerOf (t : nat) (l : list (nat * nat)) : option nat :=
  match find (fun e => fst e =? t) l with
  | Some e => Some (snd e)
  | None => None
  end.

Definition dropTimer (t : nat) (l : list (nat * nat)) : list (nat * nat) :=
  filter (fun e => negb (fst e =? t)) l.

Definition clearInterval (t : nat) (w : World) : World :=
  set_intervals (dropTimer t (intervals w)) w.

(** The closure stored in [window.initGoogleMapsCallback]. *)
Definition callbackBody (p : nat) (w : World) : World :=
  resolve p (set_isScriptLoading false (set_isScriptLoaded true w)).

(** The executor of the new promise [p]; [existing] is the value of
    [existingScript] found before. *)
Definition executor (p : nat) (existing : bool) (w : World) : World :=
  if places w then
    resolve p (set_isScriptLoading false (set_isScriptLoaded true w))
  else
    let w := set_initGoogleMapsCallback (Some p) w in
    if negb existing then
      match apiKey w with
      | None => reject p (set_isScriptLoading false w)
      | Some _ => set_appended (S (appended w)) (set_script (Loading p) w)
      end
    else
      let t := nextTimer w in
      set_nextTimer (S t)
        (set_timeouts (timeouts w ++ [(t, p)])
           (set_intervals (intervals w ++ [(t, p)]) w)).

Definition loadGoogleMapsScript (w : World) : World * nat :=
  if isScriptLoaded w && places w then alloc Fulfilled w
  else
    match isScriptLoading w, scriptLoadPromise w with
    | true, Some p => (w, p)
    | _, _ =>
        let existing := existingScript w in
        if existing && places w then
          alloc Fulfilled (set_isScriptLoaded true w)
        else
          let w := set_isScriptLoading true w in
          let (w, p) := alloc Pending w in
          let w := executor p existing w in
          (set_scriptLoadPromise (Some p) w, p)
    end.

(** [script.onerror] of the element created for promise [p]. *)
Definition onerrorBody (p : nat) (w : World) : World :=
  reject p (set_scriptLoadPromise None (set_isScriptLoading false w)).

(** One run of the [setInterval] callback of timer [t] with promise [p]. *)
Definition tickBody (t p : nat) (w : World) : World :=
  if places w then
    resolve p
      (clearInterval t (set_isScriptLoading false (set_isScriptLoaded true w)))
  else w.

(** The [setTimeout] callback that gives up on timer [t]. *)
Definition timeoutBody (t p : nat) (w : World) : World :=
  let w := clearInterval t w in
  if negb (isScriptLoaded w) then reject p (set_isScriptLoading false w)
  else w.

(** What can happen next: a call of the loader, or the browser running one
    of the callbacks. The created script element fires [load] or [error] at
    most once and only while it is loading; on [load] the Maps script has
    defined [google.maps.places] and then calls the function named by its
    [callback] parameter. [PlacesReady] is the API becoming available by
    other means (a script element of the page). A timer callback runs only
    while its timer exists. *)
Inductive Event :=
| Call
| ScriptLoad
| ScriptError
| PlacesReady
| Tick (t : nat)
| Timeout (t : nat).

Definition fire (w : World) (e : Event) : World :=
  match e with
  | Call => fst (loadGoogleMapsScript w)
  | ScriptLoad =>
      match script w with
      | Loading _ =>
          let w := set_script Loaded (set_places true w) in
          match initGoogleMapsCallback w with
          | Some q => callbackBody q w
          | None => w
          end
      | _ => w
      end
  | ScriptError =>
      match script w with
      | Loading p => onerrorBody p (set_script Failed w)
      | _ => w
      end
  | PlacesReady => set_places true w
  | Tick t =>
      match timerOf t (intervals w) with
      | Some p => tickBody t p w
      | None => w
      end
  | Timeout t =>
      match timerOf t (timeouts w) with
      | Some p => timeoutBody t p (set_timeouts (dropTimer t (timeouts w)) w)
      | None => w
      end
  end.

Definition run (es : list Event) (w : World) : World := fold_left fire es w.

(** The module as it is first evaluated, in a page where the API may be
    there already ([places]), a Maps script element may be in the document
    ([pageScript]) and the key may be configured. *)
Definition initial (places pageScript : bool) (apiKey : option JsString)
    : World :=
  mkWorld false false None [] None NotCreated pageScript places [] [] 0 0
          apiKey.

(** What the flags promise in every state the loader can reach: the loaded
    flag is only set when the API is there; while the loading flag is set
    the loaded flag is not, and [scriptLoadPromise] holds a pending promise;
    the loader has appended a script element exactly when it has created
    one. *)
Definition invariant (w : World) : Prop :=
  (isScriptLoaded w = true -> places w = true)
  /\ (isScriptLoading w = true ->
        isScriptLoaded w = false
        /\ exists p, scriptLoadPromise w = Some p
                     /\ promiseState w p = Some Pending)
  /\ appended w = match script w with NotCreated => 0 | _ => 1 end.

End MapsLoader.

(* ================================================================== *)
(** ** QuantumBatchForm.tsx: what the form shows *)
(* ================================================================== *)

Module BatchFormView.
Import JsStr BatchForm.

(** [company[field]] *)
Definition getField (field : Field) (c : Company) : JsString :=
  match field with
  | FName => name c
  | FIndustry => industry c
  | FCompanyUrl => company_url c
  | FHqLocation => hq_location c
  end.

(** [companies.filter(c => c.name.trim()).length], shown in the caption
    under the submit button. *)
Definition analysedCount (st : FormState) : nat :=
  length (filter (fun c => truthy (trim (name c))) (companies st)).

(** The [disabled] attribute of the submit button. *)
Definition submitDisabled (isResearching : bool) (st : FormState) : bool :=
  isResearching || (analysedCount st =? 0).

(** The remove button of a row is rendered. *)
Definition removeShown (st : FormState) : bool :=
  1 <? length (companies st).

(** The operations that edit rows one at a time. *)
Definition rowOp (o : Op) : bool :=
  match o with
  | OpAdd | OpRemove _ | OpUpdate _ _ _ => true
  | OpLoadExamples | OpSetMax _ => false
  end.

(** The list is within the cap in force. *)
Definition withinCap (st : FormState) : Prop :=
  exists z, max_companies (quantumSettings st) = Int z
            /\ (Z.of_nat (length (companies st)) <= z)%Z.

End BatchFormView.

(* ================================================================== *)
(** ** QuantumBatchStatus.tsx *)
(* ================================================================== *)

Module BatchStatus.
Import JsStr JsArray.

Inductive Icon :=
| Loader2 | CheckCircle | XCircle | Clock
| Database | Atom | Zap | Activity | Network.

Inductive Color := TextBlue | TextGreen | TextRed | TextYellow.

(** [x === 'literal'] *)
Definition isLit (x : JsString) (literal : string) : bool := eqb x (lit literal).

Definition getStatusIcon (status : JsString) : Icon :=
  if isLit status "processing" then Loader2
  else if isLit status "completed" then CheckCircle
  else if isLit status "failed" || isLit status "error" then XCircle
  else Clock.

Definition getStatusColor (status : JsString) : Color :=
  if isLit status "processing" then TextBlue
  else if isLit status "completed" then TextGreen
  else if isLit status "failed" || isLit status "error" then TextRed
  else TextYellow.

Definition getPhaseIcon (phase : JsString) : Icon :=
  if isLit phase "data_collection" then Database
  else if isLit phase "quantum_encoding" then Atom
  else if isLit phase "quantum_processing" then Zap
  else if isLit phase "report_generation" then Activity
  else if isLit phase "knowledge_base" then Network
  else Clock.

Definition defaultPhaseLabel : JsString := [20934; 22791; 20013]%N.

Definition getPhaseLabel (phase : JsString) : JsString :=
  if isLit phase "data_collection" then
    [84; 97; 118; 105; 108; 121; 25968; 25454; 25910; 38598]%N
  else if isLit phase "quantum_encoding" then [37327; 23376; 32534; 30721]%N
  else if isLit phase "quantum_processing" then
    [37327; 23376; 24182; 34892; 35745; 31639]%N
  else if isLit phase "report_generation" then
    [34701; 21512; 20998; 26512; 25253; 21578]%N
  else if isLit phase "knowledge_base" then
    [30693; 35782; 24211; 20445; 23384]%N
  else defaultPhaseLabel.

Definition phases : list JsString :=
  [ lit "data_collection"; lit "quantum_encoding"; lit "quantum_processing";
    lit "report_generation"; lit "knowledge_base" ].

(** [l.indexOf(x)], counted from [i]: the first index, or -1. *)
Fixpoint indexOfFrom (i : Z) (x : JsString) (l : list JsString) : Z :=
  match l with
  | [] => (-1)%Z
  | y :: l' => if eqb y x then i else indexOfFrom (i + 1) x l'
  end.

Definition indexOf (x : JsString) (l : list JsString) : Z := indexOfFrom 0 x l.

(** [currentPhase || ''] for the optional prop. *)
Definition phaseOrEmpty (currentPhase : option JsString) : JsString :=
  match currentPhase with Some p => or_else p [] | None => [] end.

Definition getCurrentPhaseIndex (currentPhase : option JsString) : Z :=
  indexOf (phaseOrEmpty currentPhase) phases.

Inductive Tone := Blue | Green | Plain.

(** One row of the phase list. *)
Record PhaseRow := mkRow {
  row_phase : JsString;
  isActive : bool;
  isCompleted : bool;
  isCurrent : bool;
  container : Tone;
  badge : Tone;
  row_icon : Icon;
  row_label : JsString;
  spinner : bool
}.

Definition phaseRow (currentPhase : option JsString) (phase : JsString)
    (index : nat) : PhaseRow :=
  let isActive :=
    match currentPhase with Some p => eqb phase p | None => false end in
  let isCompleted := (Z.of_nat index <? getCurrentPhaseIndex currentPhase)%Z in
  let isCurrent := (Z.of_nat index =? getCurrentPhaseIndex currentPhase)%Z in
  mkRow phase isActive isCompleted isCurrent
        (if isActive || isCurrent then Blue
         else if isCompleted then Green else Plain)
        (if isCompleted then Green else if isCurrent then Blue else Plain)
        (if isCompleted then CheckCircle
         else if isCurrent then getPhaseIcon phase else Clock)
        (getPhaseLabel phase)
        isCurrent.

Definition phaseRows (currentPhase : option JsString) : list PhaseRow :=
  map_index (phaseRow currentPhase) 0 phases.

(** The parts of the panel that depend on the props. *)
Record StatusView := mkStatusView {
  icon : Icon;
  color : Color;
  companyList : option (list JsString);
  progressBar : option Z;
  rows : option (list PhaseRow);
  completedBanner : bool;
  failureBanner : option JsString;
  animation : bool
}.

Definition QuantumBatchStatus (status message : JsString)
    (companies : list JsString) (currentPhase : option JsString)
    (progress : Z) : StatusView :=
  mkStatusView
    (getStatusIcon status)
    (getStatusColor status)
    (if 0 <? length companies then Some companies else None)
    (if isLit status "processing" then Some progress else None)
    (if isLit status "processing" && truthy (phaseOrEmpty currentPhase)
     then Some (phaseRows currentPhase) else None)
    (isLit status "completed")
    (if isLit status "failed" || isLit status "error"
     then Some (or_else message
                  [37327; 23376; 24182; 34892; 20998; 26512; 36807; 31243;
                   20013; 20986; 29616; 38169; 35823; 65292; 35831; 37325;
                   35797]%N)
     else None)
    (isLit status "processing").

End BatchStatus.

(* ================================================================== *)
(** ** The quantum batch page: submission, reset and what is shown *)
(* ================================================================== *)

Module BatchSession.
Import JsStr BatchForm BatchPage.

(** What a [catch] receives: an [Error] with its message, or anything
    else. *)
Inductive Thrown :=
| ThrownError (message : JsString)
| ThrownOther.

(** The body of the reply to the submission: the fields that are read. *)
Record StartData := mkStart {
  job_id : option JsString;
  start_message : option JsString
}.

(** [await fetch(...)] and [await response.json()]: the fetch rejects, or
    yields a response with its [ok] flag and status code, whose body is
    read (unless the response is not ok) and either throws or is there. *)
Inductive StartReply :=
| StartRejected (e : Thrown)
| StartReplied (ok : bool) (code : N) (body : Thrown + StartData).

Inductive Effect :=
| Do (a : Action)
| SetCompanies (l : list JsString)
| SetJobId (j : option JsString)
| Fetch (url : JsString) (body : QuantumBatchFormData)
| CloseSocket.

(** The page, its sockets, the sockets [close()] was called on, a socket
    being numbered by its position in the order of construction, and the
    number of submissions whose [fetch] has not been answered yet;
    [wsRef.current] is the socket constructed last. *)
Record Session := mkSession {
  world : World;
  closed : list nat;
  inflight : nat
}.

Definition hasSocket (s : Session) : bool :=
  match sockets (world s) with [] => false | _ :: _ => true end.

Definition setPage (p : PageState) (s : Session) : Session :=
  mkSession (mkWorld p (sockets (world s))) (closed s) (inflight s).

Definition applyEffect (s : Session) (e : Effect) : Session :=
  match e with
  | Do a => mkSession (apply (world s) a) (closed s) (inflight s)
  | SetCompanies l =>
      let p := page (world s) in
      setPage (mkPage (isResearching p) (status p) (message p)
                      (currentPhase p) (progress p) (results p) (error p)
                      l (jobId p)) s
  | SetJobId j =>
      let p := page (world s) in
      setPage (mkPage (isResearching p) (status p) (message p)
                      (currentPhase p) (progress p) (results p) (error p)
                      (companies p) j) s
  | Fetch _ _ => mkSession (world s) (closed s) (S (inflight s))
  | CloseSocket =>
      match sockets (world s) with
      | [] => s
      | _ :: older =>
          mkSession (world s) (length older :: closed s) (inflight s)
      end
  end.

Definition performAll (es : list Effect) (s : Session) : Session :=
  fold_left applyEffect es s.

(** The decimal digits of a status code, for the template string. *)
Definition decimal (n : N) : JsString :=
  lit (DecimalString.NilEmpty.string_of_uint (N.to_uint n)).

(** [error instanceof Error ? error.message : 'Failed to start analysis'] *)
Definition startErrorText (e : Thrown) : JsString :=
  match e with
  | ThrownError m => m
  | ThrownOther => lit "Failed to start analysis"
  end.

(** The [catch] block of [handleSubmit]. *)
Definition startFailed (e : Thrown) : list Effect :=
  [ Do ConsoleError;
    Do (SetError (JStr (startErrorText e)));
    Do (SetIsResearching false);
    Do (SetStatus (JStr (lit "error"))) ].

(** [text || dflt] for a string field of the reply, which may be missing. *)
Definition text_or (field : option JsString) (dflt : JsString) : JsString :=
  match field with
  | Some s => or_else s dflt
  | None => dflt
  end.

(** [handleSubmit(formData)] of the page up to its [await fetch(...)]: the
    setter calls and the request. The function returns to the event loop
    here; other handlers may run before the reply is there. *)
Definition handleSubmitStart (API_URL : JsString)
    (formData : QuantumBatchFormData) : list Effect :=
  [ Do (SetIsResearching true);
    Do (SetStatus (JStr (lit "processing")));
    Do (SetMessage (JStr [27491; 22312; 21551; 21160; 37327; 23376; 24182;
                          34892; 20998; 26512; 46; 46; 46]%N));
    Do (SetError JNull);
    Do (SetResults (Val JNull));
    Do (SetProgress 0);
    Do (SetCurrentPhase []);
    SetCompanies (map name (fd_companies formData));
    Fetch (API_URL ++ lit "/research/quantum-batch") formData ].

(** The rest of [handleSubmit], run when the reply is there: given the reply
    the fetch gets and whether [new WebSocket] succeeds. No setter is called
    between [await fetch(...)] and [await response.json()]. *)
Definition handleSubmitReply (WS_URL : JsString) (reply : StartReply)
    (constructed : bool) : list Effect :=
  match reply with
  | StartRejected e => startFailed e
  | StartReplied false code _ =>
      startFailed (ThrownError (lit "HTTP error! status: " ++ decimal code))
  | StartReplied true _ (inl e) => startFailed e
  | StartReplied true _ (inr data) =>
      [ Do ConsoleLog;
        SetJobId (job_id data);
        Do (SetMessage
              (JStr (text_or (start_message data)
                       [37327; 23376; 24182; 34892; 20998; 26512; 24050;
                        21551; 21160]%N))) ]
      ++ match job_id data with
         | Some j =>
             if truthy j
             then map Do (connectWebSocket WS_URL j constructed)
             else []
         | None => []
         end
  end.

(** [resetAnalysis()], given whether [wsRef.current] holds a socket. *)
Definition resetAnalysis (wsRef_current : bool) : list Effect :=
  [ Do (SetIsResearching false);
    Do (SetStatus (JStr (lit "idle")));
    Do (SetMessage (JStr []));
    Do (SetCurrentPhase []);
    Do (SetProgress 0);
    Do (SetResults (Val JNull));
    Do (SetError JNull);
    SetCompanies [];
    SetJobId None ]
  ++ (if wsRef_current then [CloseSocket] else []).

(** The cleanup of the mount effect, run when the page is unmounted, given
    whether [wsRef.current] holds a socket. *)
Definition unmountCleanup (wsRef_current : bool) : list Effect :=
  if wsRef_current then [CloseSocket] else [].

(** Which of the four blocks of the page are rendered. *)
Record Panels := mkPanels {
  showForm : bool;
  showStatus : bool;
  showResults : bool;
  showError : bool
}.

(** [status !== 'idle'] *)
Definition notIdle (s : Json) : bool :=
  negb (field_is (Val s) "idle").

Definition render (p : PageState) : Panels :=
  mkPanels
    (negb (isResearching p) && negb (anyTruthy (results p))
     && negb (jsonTruthy (error p)))
    (isResearching p
     || (notIdle (status p) && negb (anyTruthy (results p))))
    (anyTruthy (results p))
    (jsonTruthy (error p)).

(** What happens on the page: the form is submitted and [handleSubmit] runs
    up to its [await]; the reply of a pending submission arrives and
    [handleSubmit] runs to its end; a socket delivers an event; one of the
    reset buttons is clicked; the page is unmounted. The events come in any
    order, except that a reply needs a pending submission. After an unmount
    nothing is rendered any more, while the closures of pending submissions
    and of the sockets still run: the model goes on recording what they
    store. *)
Inductive PageEvent :=
| SubmitStart (formData : QuantumBatchFormData)
| SubmitReply (reply : StartReply) (constructed : bool)
| Socket (e : WsEvent)
| Reset
| Unmount.

Section Urls.
Variables API_URL WS_URL : JsString.

Definition on (s : Session) (e : PageEvent) : Session :=
  match e with
  | SubmitStart fd => performAll (handleSubmitStart API_URL fd) s
  | SubmitReply reply constructed =>
      match inflight s with
      | O => s
      | S n =>
          performAll (handleSubmitReply WS_URL reply constructed)
                     (mkSession (world s) (closed s) n)
      end
  | Socket e => mkSession (deliver (world s) e) (closed s) (inflight s)
  | Reset => performAll (resetAnalysis (hasSocket s)) s
  | Unmount => performAll (unmountCleanup (hasSocket s)) s
  end.

Definition play (es : list PageEvent) (s : Session) : Session :=
  fold_left on es s.

End Urls.

Definition initialSession : Session :=
  mkSession (mkWorld initialPage []) [] 0.

(** A reply that brings a job and gets a socket. *)
Definition opensConnection (e : PageEvent) : bool :=
  match e with
  | SubmitReply (StartReplied true _ (inr data)) true =>
      match job_id data with Some j => truthy j | None => false end
  | _ => false
  end.

(** The body of an ok reply, when it could be read. *)
Definition reply_body (reply : StartReply) : option StartData :=
  match reply with
  | StartReplied true _ (inr data) => Some data
  | _ => None
  end.

(** The events that call [close()]. *)
Definition closes (e : PageEvent) : bool :=
  match e with
  | Reset | Unmount => true
  | _ => false
  end.

Definition isSubmission (e : PageEvent) : bool :=
  match e with
  | SubmitStart _ => true
  | _ => false
  end.

(** The number of replies in a run that bring a job and get a socket, [n]
    submissions being pending at its start. *)
Fixpoint connections (n : nat) (es : list PageEvent) : nat :=
  match es with
  | [] => 0
  | e :: es' =>
      match e with
      | SubmitStart _ => connections (S n) es'
      | SubmitReply _ _ =>
          match n with
          | O => connections O es'
          | S n' => (if opensConnection e then 1 else 0) + connections n' es'
          end
      | _ => connections n es'
      end
  end.

(** The values the progress cell is ever given. *)
Definition progressStep (n : Z) : Prop :=
  n = 0%Z \/ n = 20%Z \/ n = 40%Z \/ n = 60%Z \/ n = 80%Z \/ n = 100%Z.

(** The values the phase cell is ever given. *)
Definition knownPhase (p : JsString) : Prop :=
  p = [] \/ In p BatchStatus.phases.

End BatchSession.

(* ================================================================== *)
(** ** handlers.ts: the PDF download and the clipboard *)
(* ================================================================== *)

Module HandlersIO.
Import JsStr Handlers.

(** What a [catch] receives: an [Error] with its message, or anything
    else. *)
Inductive Thrown :=
| ThrownError (message : JsString)
| ThrownOther.

Inductive Setter :=
| SetIsGeneratingPdf (b : bool)
| SetIsCopied (b : bool)
| SetError (e : JsString).

Inductive Effect :=
| Call (c : Setter)
| ConsoleLog
| ConsoleError
| PostPdf (url report_content company_name : JsString)
| CreateObjectURL (url : JsString)
| AppendLink (href download : JsString)
| ClickLink
| RemoveLink
| RevokeObjectURL (url : JsString)
| WriteText (text : JsString)
| SetTimeout (body : list Setter) (ms : Z).

(** The cells behind the setters, and the part of the browser the two
    handlers touch: the links appended to the body (the latest first), the
    object URLs that are alive, the downloads started, the clipboard and the
    pending timers. *)
Record Ui := mkUi {
  isGeneratingPdf : bool;
  isCopied : bool;
  error : option JsString;
  links : list (JsString * JsString);
  objectUrls : list JsString;
  downloads : list (JsString * JsString);
  clipboard : option JsString;
  timers : list (list Setter * Z)
}.

Definition set (u : Ui) (c : Setter) : Ui :=
  match c with
  | SetIsGeneratingPdf b =>
      mkUi b (isCopied u) (error u) (links u) (objectUrls u) (downloads u)
           (clipboard u) (timers u)
  | SetIsCopied b =>
      mkUi (isGeneratingPdf u) b (error u) (links u) (objectUrls u)
           (downloads u) (clipboard u) (timers u)
  | SetError e =>
      mkUi (isGeneratingPdf u) (isCopied u) (Some e) (links u) (objectUrls u)
           (downloads u) (clipboard u) (timers u)
  end.

Fixpoint removeFirst (x : JsString) (l : list JsString) : list JsString :=
  match l with
  | [] => []
  | y :: l' => if eqb y x then l' else y :: removeFirst x l'
  end.

Definition apply (u : Ui) (e : Effect) : Ui :=
  match e with
  | Call c => set u c
  | CreateObjectURL url =>
      mkUi (isGeneratingPdf u) (isCopied u) (error u) (links u)
           (url :: objectUrls u) (downloads u) (clipboard u) (timers u)
  | AppendLink href download =>
      mkUi (isGeneratingPdf u) (isCopied u) (error u)
           ((href, download) :: links u) (objectUrls u) (downloads u)
           (clipboard u) (timers u)
  | ClickLink =>
      mkUi (isGeneratingPdf u) (isCopied u) (error u) (links u)
           (objectUrls u)
           (match links u with
            | l :: _ => l :: downloads u
            | [] => downloads u
            end)
           (clipboard u) (timers u)
  | RemoveLink =>
      mkUi (isGeneratingPdf u) (isCopied u) (error u) (tl (links u))
           (objectUrls u) (downloads u) (clipboard u) (timers u)
  | RevokeObjectURL url =>
      mkUi (isGeneratingPdf u) (isCopied u) (error u) (links u)
           (removeFirst url (objectUrls u)) (downloads u) (clipboard u)
           (timers u)
  | WriteText text =>
      mkUi (isGeneratingPdf u) (isCopied u) (error u) (links u)
           (objectUrls u) (downloads u) (Some text) (timers u)
  | SetTimeout body ms =>
      mkUi (isGeneratingPdf u) (isCopied u) (error u) (links u)
           (objectUrls u) (downloads u) (clipboard u)
           (timers u ++ [(body, ms)])
  | ConsoleLog | ConsoleError | PostPdf _ _ _ => u
  end.

Definition perform (es : list Effect) (u : Ui) : Ui := fold_left apply es u.

(** The reply to the PDF request: the fetch rejects, or yields a response
    with its [ok] flag whose blob is read (unless the response is not ok)
    and either throws or is given the object URL [createObjectURL]
    returns. *)
Inductive PdfReply :=
| PdfRejected (e : Thrown)
| PdfReplied (ok : bool) (blob : Thrown + JsString).

(** [originalCompanyName || 'research_report'] *)
Definition fileBase (originalCompanyName : JsString) : JsString :=
  or_else originalCompanyName (lit "research_report").

(** The [catch] block of [handleGeneratePdf]. *)
Definition pdfFailed (e : Thrown) : list Effect :=
  [ ConsoleError;
    Call (SetError (match e with
                    | ThrownError m => m
                    | ThrownOther => lit "Failed to generate PDF"
                    end)) ].

Definition handleGeneratePdf (API_URL : JsString)
    (output : option ResearchOutput) (originalCompanyName : JsString)
    (isGeneratingPdf : bool) (reply : PdfReply) : list Effect :=
  match output, isGeneratingPdf with
  | None, _ | _, true => []
  | Some o, false =>
      [ Call (SetIsGeneratingPdf true);
        ConsoleLog;
        PostPdf (API_URL ++ lit "/generate-pdf") (details_report o)
                (fileBase originalCompanyName) ]
      ++ match reply with
         | PdfRejected e => pdfFailed e
         | PdfReplied false _ =>
             pdfFailed (ThrownError (lit "Failed to generate PDF"))
         | PdfReplied true (inl e) => pdfFailed e
         | PdfReplied true (inr url) =>
             [ CreateObjectURL url;
               AppendLink url (fileBase originalCompanyName ++ lit ".pdf");
               ClickLink;
               RemoveLink;
               RevokeObjectURL url ]
         end
      ++ [ Call (SetIsGeneratingPdf false) ]
  end.

(** [handleCopyToClipboard]; [written] tells whether
    [navigator.clipboard.writeText] resolves. *)
Definition handleCopyToClipboard (output : option ResearchOutput)
    (written : bool) : list Effect :=
  match output with
  | None => []
  | Some o =>
      if truthy (details_report o) then
        if written then
          [ WriteText (details_report o);
            Call (SetIsCopied true);
            SetTimeout [SetIsCopied false] 2000 ]
        else
          [ ConsoleError;
            Call (SetError (lit "Failed to copy to clipboard")) ]
      else []
  end.

(** The event loop runs the pending callbacks, in order. *)
Fixpoint runTimers (ts : list (list Setter * Z)) (u : Ui) : Ui :=
  match ts with
  | [] => u
  | (body, _) :: ts' => runTimers ts' (fold_left set body u)
  end.

Definition settle (u : Ui) : Ui :=
  let u' := runTimers (timers u) u in
  mkUi (isGeneratingPdf u') (isCopied u') (error u') (links u')
       (objectUrls u') (downloads u') (clipboard u') [].

(** The PDF requests among the effects. *)
Definition pdfRequests (es : list Effect) : list (JsString * JsString) :=
  flat_map (fun e => match e with
                     | PostPdf _ report name => [(report, name)]
                     | _ => []
                     end) es.

(** The reply lets the download go through. *)
Definition pdfDelivered (reply : PdfReply) : option JsString :=
  match reply with
  | PdfReplied true (inr url) => Some url
  | _ => None
  end.

(** What [ResearchReport] renders of its props: nothing without output;
    otherwise the report text (or a placeholder), the two buttons when the
    report is not empty, and the [disabled] attribute of the PDF button. *)
Record ReportView := mkReportView {
  buttonsShown : bool;
  pdfDisabled : bool;
  markdown : JsString
}.

Definition ResearchReport (output : option ResearchOutput)
    (isGeneratingPdf : bool) : option ReportView :=
  match output with
  | None => None
  | Some o =>
      Some (mkReportView (truthy (details_report o)) isGeneratingPdf
              (or_else (details_report o) (lit "No report available")))
  end.

End HandlersIO.

(* ================================================================== *)
(** ** ResearchQueries.tsx: counting the rows *)
(* ================================================================== *)

Module QueriesView.
Import JsStr Queries.

(** Some category name is a prefix of [s]. *)
Definition hasCard (s : JsString) : bool :=
  existsb (fun cat => startsWith cat s) categories.

(** The rows of completed queries, over all cards. *)
Definition completedRows (v : View) : nat :=
  list_sum (map (fun c => length (filter isCompleted (items c))) (cards v)).

(** The rows of streaming queries, over all cards. *)
Definition streamingRows (v : View) : nat :=
  list_sum (map (fun c => length (filter isStreaming (items c))) (cards v)).

End QueriesView.

(* ================================================================== *)
(** ** loadGoogleMapsScript: promises and timers in reachable states *)
(* ================================================================== *)

Module MapsLoaderTidy.
Import JsStr MapsLoader.

(** Every pending promise is the one of the load in progress. *)
Definition onlyCurrentPending (w : World) : Prop :=
  forall p, promiseState w p = Some Pending ->
    isScriptLoading w = true /\ scriptLoadPromise w = Some p.

(** A promise is only fulfilled when the API is there. *)
Definition fulfilledMeansReady (w : World) : Prop :=
  forall p, promiseState w p = Some Fulfilled -> places w = true.

(** At most one interval runs; it belongs to the load in progress and its
    timeout is still pending. *)
Definition timersTidy (w : World) : Prop :=
  length (intervals w) <= 1
  /\ forall t p, In (t, p) (intervals w) ->
       isScriptLoading w = true /\ scriptLoadPromise w = Some p
       /\ In (t, p) (timeouts w).

(** While the created script element loads, the load in progress is its
    own, the global callback resolves it, and no interval runs. *)
Definition scriptTidy (w : World) : Prop :=
  forall x, script w = Loading x ->
    isScriptLoading w = true /\ scriptLoadPromise w = Some x
    /\ initGoogleMapsCallback w = Some x /\ intervals w = [].

Definition tidy (w : World) : Prop :=
  invariant w
  /\ onlyCurrentPending w
  /\ fulfilledMeansReady w
  /\ timersTidy w
  /\ scriptTidy w
  /\ (isScriptLoaded w = false -> timeouts w = intervals w).

(** No key is configured, the page has no Maps script element, and the
    loader has neither created one nor started a load or a timer. *)
Definition keyless (w : World) : Prop :=
  apiKey w = None /\ pageScript w = false /\ script w = NotCreated
  /\ isScriptLoading w = false /\ appended w = 0
  /\ intervals w = [] /\ timeouts w = [].

(** The number of pending promises. *)
Definition pendingCount (w : World) : nat :=
  length (filter (fun s => match s with Pending => true | _ => false end)
                 (promises w)).

End MapsLoaderTidy.

(* ================================================================== *)
(** ** handlers.ts: a run of polls *)
(* ================================================================== *)

Module PollRuns.
Import JsStr Handlers Handlers.Poll.

(** The body of a reply that passes the guard of [checkForFinalReport]. *)
Definition reportOf (reply : Reply) : option PollData :=
  match reply with
  | Response true (Some data) =>
      if status_is data "completed" && truthy (result_report data)
      then Some data else None
  | _ => None
  end.

(** The interval calls [checkForFinalReport] once per reply, in order. *)
Definition polls (API_URL jobId : JsString) (replies : list Reply)
    (o : Observer) : Observer :=
  fold_left (fun o reply => poll API_URL jobId reply o) replies o.

(** The last reply that carried a report. *)
Definition lastReport (replies : list Reply) : option PollData :=
  fold_left (fun acc reply =>
               match reportOf reply with Some d => Some d | None => acc end)
            replies None.

End PollRuns.

(* ================================================================== *)
(** ** ExamplePopup and ResearchForm.tsx *)
(* ================================================================== *)

Module ExampleFlow.
Import JsStr.

Record ExampleCompany := mkExample {
  ex_name : JsString;
  ex_url : JsString;
  ex_hq : JsString;
  ex_industry : JsString
}.

Definition EXAMPLE_COMPANIES : list ExampleCompany :=
  [ mkExample (lit "Stripe") (lit "stripe.com") (lit "San Francisco, CA")
              (lit "Financial Technology");
    mkExample (lit "Shopify") (lit "shopify.com") (lit "Ottawa, Canada")
              (lit "E-commerce");
    mkExample (lit "Notion") (lit "notion.so") (lit "San Francisco, CA")
              (lit "Productivity Software");
    mkExample (lit "Tesla") (lit "tesla.com") (lit "Austin, TX")
              (lit "Automotive & Energy");
    mkExample (lit "Airbnb") (lit "airbnb.com") (lit "San Francisco, CA")
              (lit "Travel & Hospitality");
    mkExample (lit "Slack") (lit "slack.com") (lit "San Francisco, CA")
              (lit "Business Communication");
    mkExample (lit "Spotify") (lit "spotify.com") (lit "Stockholm, Sweden")
              (lit "Music Streaming") ].

(** The two [setTimeout] callbacks of the popup. *)
Inductive Timer := Advance | EndNameAnimation.

(** The cells of [ExamplePopup] and its pending timers. *)
Record Popup := mkPopup {
  selectedExample : nat;
  isNameAnimating : bool;
  pending : list Timer
}.

Definition initialPopup : Popup := mkPopup 0 false [].

(** The interval callback runs, or the pending timer at position [i]
    fires. *)
Inductive PopupEvent :=
| IntervalTick
| TimerFires (i : nat).

Fixpoint removeAt {A} (i : nat) (l : list A) : list A :=
  match l, i with
  | [], _ => []
  | _ :: l', O => l'
  | x :: l', S i' => x :: removeAt i' l'
  end.

Definition popupStep (p : Popup) (e : PopupEvent) : Popup :=
  match e with
  | IntervalTick =>
      mkPopup (selectedExample p) true (pending p ++ [Advance])
  | TimerFires i =>
      match nth_error (pending p) i with
      | None => p
      | Some Advance =>
          mkPopup ((selectedExample p + 1) mod length EXAMPLE_COMPANIES)
                  (isNameAnimating p)
                  (removeAt i (pending p) ++ [EndNameAnimation])
      | Some EndNameAnimation =>
          mkPopup (selectedExample p) false (removeAt i (pending p))
      end
  end.

Definition popupRun (es : list PopupEvent) (p : Popup) : Popup :=
  fold_left popupStep es p.

(** [EXAMPLE_COMPANIES[selectedExample]], the argument of
    [onExampleSelect] on a click; [None] is [undefined]. *)
Definition clicked (p : Popup) : option ExampleCompany :=
  nth_error EXAMPLE_COMPANIES (selectedExample p).

(** One turn of the interval with its two timers. *)
Definition rotation : list PopupEvent :=
  [IntervalTick; TimerFires 0; TimerFires 0].

(** [FormData] of the research form. *)
Record FormData := mkFormData {
  companyName : JsString;
  companyUrl : JsString;
  companyHq : JsString;
  companyIndustry : JsString
}.

Inductive Call :=
| PreventDefault
| SetIsExampleAnimating (b : bool)
| SetFormData (d : FormData)
| OnSubmit (d : FormData).

(** A call made at once, or [setTimeout(body, ms)] with the calls of the
    callback. *)
Inductive Effect :=
| Do (c : Call)
| SetTimeout (body : list Call) (ms : Z).

(** [handleSubmit] of the research form. *)
Definition handleSubmit (formData : FormData) : list Effect :=
  [Do PreventDefault; Do (OnSubmit formData)].

(** [fillExampleData(example)], in a render where the prop [isResearching]
    has the given value. *)
Definition fillExampleData (isResearching : bool) (example : ExampleCompany)
    : list Effect :=
  let newFormData :=
    mkFormData (ex_name example) (ex_url example) (ex_hq example)
               (ex_industry example) in
  [ Do (SetIsExampleAnimating true);
    SetTimeout
      ([SetFormData newFormData]
       ++ (if negb isResearching then [OnSubmit newFormData] else [])
       ++ [SetIsExampleAnimating false])
      500 ].

(** The [disabled] attribute of the submit button. *)
Definition submitDisabled (isResearching : bool) (formData : FormData) : bool :=
  isResearching || negb (truthy (companyName formData)).

(** The calls of a handler and of the timers it registers, once the timers
    have run. *)
Fixpoint flatten (es : list Effect) : list Call :=
  match es with
  | [] => []
  | SetTimeout body _ :: es' => flatten es' ++ body
  | Do c :: es' => c :: flatten es'
  end.

Definition submitted (es : list Call) : list FormData :=
  flat_map (fun e => match e with OnSubmit d => [d] | _ => [] end) es.

Definition formAfter (es : list Call) (d : FormData) : FormData :=
  fold_left (fun d e => match e with SetFormData d' => d' | _ => d end) es d.

End ExampleFlow.

(* ================================================================== *)
(** ** ResearchStatus.tsx *)
(* ================================================================== *)

Module StatusCard.
Import JsStr Handlers.

Inductive Icon := XCircle | CheckCircle2 | Loader2.

Record Card := mkCard {
  card_icon : Icon;
  card_step : JsString;
  card_text : JsString
}.

(** Truthiness of [error : string | null]. *)
Definition errorText (error : option JsString) : JsString :=
  match error with Some e => e | None => [] end.

(** The component; [None] is [return null]. *)
Definition ResearchStatus (status : option ResearchStatusType)
    (error : option JsString) (isComplete : bool)
    (currentPhase : option Phase) : option Card :=
  match status with
  | None => None
  | Some s =>
      Some (mkCard
              (if truthy (errorText error) then XCircle
               else if eqb (step s) (lit "Complete") || isComplete
                    then CheckCircle2
               else if match currentPhase with
                       | Some search | Some enrichment => true
                       | _ => false
                       end
                       || (eqb (step s) (lit "Processing")
                           && includes (lit "scraping") (status_message s))
                    then Loader2
               else if match currentPhase with
                       | Some briefing => true
                       | _ => false
                       end
                    then Loader2
               else Loader2)
              (step s)
              (or_else (errorText error) (status_message s)))
  end.

End StatusCard.

(* ================================================================== *)
(** ** ResearchReport: how a paragraph of the report is rendered *)
(* ================================================================== *)

Module ReportParagraph.
Import JsStr.

Definition colon : N := 58.
Definition lineFeed : N := 10.
Definition bullet : N := 8226.
Definition slash : N := 47.

(** [s.endsWith(c)] for a one-unit string [c]. *)
Fixpoint endsWithUnit (c : N) (s : JsString) : bool :=
  match s with
  | [] => false
  | x :: s' =>
      match s' with
      | [] => N.eqb x c
      | _ :: _ => endsWithUnit c s'
      end
  end.

Definition isUpper (c : N) : bool := (N.leb 65 c && N.leb c 90)%N.

Definition isLetter (c : N) : bool :=
  isUpper c || (N.leb 97 c && N.leb c 122)%N.

(** [/^[A-Z][A-Za-z\s\/]+$/.test(text)] *)
Definition headingLike (text : JsString) : bool :=
  match text with
  | c :: (_ :: _) as rest =>
      isUpper c
      && forallb (fun x => isLetter x || is_space x || N.eqb x slash) rest
  | _ => false
  end.

Definition isSubsectionHeader (text : JsString) : bool :=
  negb (existsb (N.eqb lineFeed) text)
  && (length text <? 50)
  && (endsWithUnit colon text || headingLike text).

(** [s.split(c)] for a one-unit separator [c]. *)
Fixpoint split (c : N) (s : JsString) : list JsString :=
  match s with
  | [] => [[]]
  | x :: s' =>
      if N.eqb x c then [] :: split c s'
      else match split c s' with
           | piece :: pieces => (x :: piece) :: pieces
           | [] => [[x]]
           end
  end.

(** [s.replace(c, '')] for a one-unit string [c]: the first occurrence
    goes. *)
Fixpoint dropFirst (c : N) (s : JsString) : JsString :=
  match s with
  | [] => []
  | x :: s' => if N.eqb x c then s' else x :: dropFirst c s'
  end.

(** What the [p] renderer returns for a paragraph whose children are the
    string [text]: a sub-section heading, a bullet with its label in bold
    and its content, or a paragraph (with its links). *)
Inductive Rendered :=
| SubsectionHeader (heading : JsString)
| BulletLabel (label content : JsString)
| Paragraph.

Definition renderParagraph (text : JsString) : Rendered :=
  if isSubsectionHeader text then
    SubsectionHeader (if endsWithUnit colon text then removelast text
                      else text)
  else if startsWith [bullet] text && existsb (N.eqb colon) text then
    match split colon text with
    | label :: content :: _ =>
        BulletLabel (trim (dropFirst bullet label) ++ [colon]) content
    | _ => Paragraph
    end
  else Paragraph.

End ReportParagraph.

(* ================================================================== *)
(** * Properties *)
(* ================================================================== *)

(** ** Strings *)

Module JsStrFacts.
Import JsStr.

Lemma eqb_eq (a b : JsString) : eqb a b = true <-> a = b.
Proof.
  revert b; induction a as [|x a IH]; intros [|y b]; simpl;
    try (split; [discriminate | discriminate]); try tauto.
  rewrite andb_true_iff, N.eqb_eq, IH.
  split; [intros [-> ->]; reflexivity | intros E; inversion E; auto].
Qed.

Lemma eqb_refl (a : JsString) : eqb a a = true.
Proof. apply eqb_eq; reflexivity. Qed.

Lemma eqb_neq (a b : JsString) : eqb a b = false <-> a <> b.
Proof.
  rewrite <- eqb_eq. destruct (eqb a b); split; congruence.
Qed.

Lemma startsWith_spec (p s : JsString) :
  startsWith p s = true <-> exists t, s = p ++ t.
Proof.
  revert s; induction p as [|x p IH]; intros s; simpl.
  - split; [exists s; reflexivity | reflexivity].
  - destruct s as [|y s].
    + split; [discriminate | intros [t E]; discriminate].
    + rewrite andb_true_iff, N.eqb_eq, IH. split.
      * intros [-> [t ->]]. exists t; reflexivity.
      * intros [t E]. inversion E; subst. split; [reflexivity | exists t; reflexivity].
Qed.

(** [includes] is substring search. *)
Lemma includes_spec (p s : JsString) :
  includes p s = true <-> exists a b, s = a ++ p ++ b.
Proof.
  induction s as [|y s IH].
  - simpl. rewrite orb_false_r, startsWith_spec. split.
    + intros [t E]. exists [], t. exact E.
    + intros [a [b E]]. destruct a; simpl in E.
      * exists b; exact E.
      * discriminate.
  - cbn [includes]. rewrite orb_true_iff, startsWith_spec, IH. split.
    + intros [[t E] | [a [b E]]].
      * exists [], t. exact E.
      * exists (y :: a), b. rewrite E; reflexivity.
    + intros [[|z a] [b E]].
      * left. exists b; exact E.
      * right. simpl in E. inversion E; subst. exists a, b; reflexivity.
Qed.

Lemma trimStart_nil (s : JsString) : trimStart s = [] <-> blank s = true.
Proof.
  induction s as [|c s IH]; simpl.
  - tauto.
  - destruct (is_space c); simpl; [exact IH | split; discriminate].
Qed.

Lemma blank_app (a b : JsString) : blank (a ++ b) = blank a && blank b.
Proof. apply forallb_app. Qed.

Lemma blank_rev (s : JsString) : blank (rev s) = blank s.
Proof.
  induction s as [|c s IH]; simpl; [reflexivity|].
  rewrite blank_app, IH. simpl. rewrite andb_true_r. apply andb_comm.
Qed.

Lemma trimStart_blank_suffix (s : JsString) :
  blank (trimStart s) = blank s.
Proof.
  induction s as [|c s IH]; simpl; [reflexivity|].
  destruct (is_space c) eqn:E; simpl; [exact IH | rewrite E; reflexivity].
Qed.

(** [s.trim()] is the empty (falsy) string exactly for blank [s]. *)
Lemma trim_nil (s : JsString) : trim s = [] <-> blank s = true.
Proof.
  unfold trim, trimEnd.
  rewrite <- trimStart_blank_suffix, <- (blank_rev (trimStart s)), <- trimStart_nil.
  set (t := trimStart (rev (trimStart s))).
  split; intros E.
  - apply (f_equal (@rev N)) in E. rewrite rev_involutive in E. exact E.
  - rewrite E; reflexivity.
Qed.

Lemma truthy_trim (s : JsString) : truthy (trim s) = negb (blank s).
Proof.
  destruct (blank s) eqn:B.
  - apply trim_nil in B. rewrite B. reflexivity.
  - destruct (trim s) eqn:T; [|reflexivity].
    apply trim_nil in T. congruence.
Qed.

End JsStrFacts.

(** ** Indexed array callbacks *)

Module JsArrayFacts.
Import JsArray.

Lemma map_index_length {A B} (f : A -> nat -> B) (l : list A) (i : nat) :
  length (map_index f i l) = length l.
Proof.
  revert i; induction l as [|x l IH]; intros i; simpl; [reflexivity|].
  now rewrite IH.
Qed.

Lemma filter_index_length_le {A} (p : A -> nat -> bool) (l : list A) (i : nat) :
  length (filter_index p i l) <= length l.
Proof.
  revert i; induction l as [|x l IH]; intros i; simpl; [lia|].
  specialize (IH (S i)). destruct (p x i); simpl; lia.
Qed.

(** Filtering on the index alone keeps every row whose index passes. *)
Lemma filter_index_all {A} (p : nat -> bool) (l : list A) (i : nat) :
  (forall j, i <= j -> p j = true) ->
  filter_index (fun _ j => p j) i l = l.
Proof.
  revert i; induction l as [|x l IH]; intros i H; simpl; [reflexivity|].
  rewrite (H i) by lia. f_equal. apply IH. intros j Hj. apply H. lia.
Qed.

(** [filter((_, j) => j !== index)] drops at most one row. *)
Lemma filter_index_neq_length {A} (index : nat) (l : list A) (i : nat) :
  length l <= S (length (filter_index (fun _ j => negb (j =? index)) i l)).
Proof.
  revert i; induction l as [|x l IH]; intros i; simpl; [lia|].
  destruct (i =? index) eqn:E; simpl.
  - apply Nat.eqb_eq in E. subst index.
    rewrite (filter_index_all (fun j => negb (j =? i))); [lia|].
    intros j Hj. apply negb_true_iff, Nat.eqb_neq. lia.
  - specialize (IH (S i)). lia.
Qed.

(** It drops exactly the row at [index], when there is one. *)
Lemma filter_index_neq_spec {A} (index : nat) (l : list A) :
  filter_index (fun _ j => negb (j =? index)) 0 l
  = firstn index l ++ skipn (S index) l.
Proof.
  enough (G : forall i k, index = i + k ->
            filter_index (fun _ j => negb (j =? index)) i l
            = firstn k l ++ skipn (S k) l)
    by (apply (G 0 index); reflexivity).
  induction l as [|x l IH]; intros i k E; simpl.
  - now destruct k.
  - destruct k as [|k]; simpl.
    + replace (i =? index) with true by (symmetry; apply Nat.eqb_eq; lia).
      simpl. apply (filter_index_all (fun j => negb (j =? index))).
      intros j Hj. apply negb_true_iff, Nat.eqb_neq. lia.
    + replace (i =? index) with false by (symmetry; apply Nat.eqb_neq; lia).
      simpl. f_equal. apply IH. lia.
Qed.

End JsArrayFacts.

(** ** The batch form *)

Module BatchFormSpec.
Import JsStr JsArray BatchForm JsStrFacts JsArrayFacts.

Lemma validCompanies_named (l : list Company) :
  filter (fun company => truthy (trim (name company))) l = namedCompanies l.
Proof.
  apply filter_ext. intros c. apply truthy_trim.
Qed.

Lemma namedCompanies_nil (l : list Company) :
  namedCompanies l = [] <-> forallb (fun c => blank (name c)) l = true.
Proof.
  induction l as [|c l IH]; simpl; [tauto|].
  unfold namedCompanies in *. simpl.
  destruct (blank (name c)); simpl; [exact IH | split; discriminate].
Qed.

Lemma length_lt_spec (n : nat) (m : JsInt) :
  length_lt n m = true <-> exists z, m = Int z /\ (Z.of_nat n < z)%Z.
Proof.
  destruct m as [|z]; simpl.
  - split; [discriminate | intros [z [E _]]; discriminate].
  - rewrite Z.ltb_lt. split.
    + intros H; exists z; auto.
    + intros [z' [E H]]. inversion E; subst; exact H.
Qed.

Lemma addCompany_length (st : FormState) :
  length (companies st) <= length (companies (addCompany st)).
Proof.
  unfold addCompany.
  destruct (length_lt _ _); simpl; [rewrite length_app; simpl; lia | lia].
Qed.

Lemma updateCompany_length (i : nat) (f : Field) (v : JsString) (st : FormState) :
  length (companies (updateCompany i f v st)) = length (companies st).
Proof. unfold updateCompany; simpl. apply map_index_length. Qed.

Lemma removeCompany_nonempty (i : nat) (st : FormState) :
  1 <= length (companies st) ->
  1 <= length (companies (removeCompany i st)).
Proof.
  intros H. unfold removeCompany.
  destruct (1 <? length (companies st)) eqn:E; [|exact H].
  apply Nat.ltb_lt in E. simpl.
  pose proof (filter_index_neq_length i (companies st) 0). lia.
Qed.

Lemma step_nonempty (st : FormState) (o : Op) :
  1 <= length (companies st) -> 1 <= length (companies (step st o)).
Proof.
  intros H. destruct o as [|i|i f v| |m]; cbn [step].
  - pose proof (addCompany_length st). lia.
  - now apply removeCompany_nonempty.
  - now rewrite updateCompany_length.
  - simpl. lia.
  - exact H.
Qed.

Lemma run_nonempty (ops : list Op) (st : FormState) :
  1 <= length (companies st) -> 1 <= length (companies (run ops st)).
Proof.
  revert st; induction ops as [|o ops IH]; intros st H; simpl; [exact H|].
  apply IH, step_nonempty, H.
Qed.

(** C5. Submitting a form whose company names are all blank never calls
    [onSubmit] (the form alerts instead); when some name is not blank,
    [onSubmit] is called exactly once, and the [companies] of its payload are
    the rows with a non-blank name, in their original order, the batch
    parameters being the current settings. *)
Theorem handleSubmit_submits_named_companies (st : FormState) :
  (forallb (fun c => blank (name c)) (companies st) = true ->
     submissions (handleSubmit st) = []
     /\ forall fd, ~ In (OnSubmit fd) (handleSubmit st))
  /\ (existsb (fun c => negb (blank (name c))) (companies st) = true ->
     exists fd,
       submissions (handleSubmit st) = [fd]
       /\ fd_companies fd = namedCompanies (companies st)
       /\ fd_max_companies fd = max_companies (quantumSettings st)).
Proof.
  unfold handleSubmit. rewrite validCompanies_named.
  split.
  - intros B. apply namedCompanies_nil in B. rewrite B. simpl.
    split; [reflexivity|].
    intros fd [E | [E | []]]; discriminate.
  - intros B.
    destruct (namedCompanies (companies st)) as [|c l] eqn:N.
    + apply namedCompanies_nil in N.
      apply existsb_exists in B. destruct B as [c [Hin Hc]].
      rewrite forallb_forall in N. rewrite (N c Hin) in Hc. discriminate.
    + simpl. eexists. repeat split.
Qed.

Lemma handleSubmit_submits_named_companies_witness :
  submissions (handleSubmit initialState) = []
  /\ exists fd,
       submissions (handleSubmit (loadExampleCompanies initialState)) = [fd]
       /\ length (fd_companies fd) = 4.
Proof.
  split.
  - apply (proj1 (handleSubmit_submits_named_companies initialState)).
    reflexivity.
  - destruct (proj2 (handleSubmit_submits_named_companies
                       (loadExampleCompanies initialState)) eq_refl)
      as [fd [E [C _]]].
    exists fd. split; [exact E | rewrite C; reflexivity].
Defined.

(** C6. [addCompany] appends exactly one blank row when the number of rows
    is strictly below [max_companies] and changes nothing otherwise (also
    when the cap is NaN); so a list within the cap stays within it, and a
    list that [addCompany] did change is within the cap. Whenever the
    button that calls it is disabled, [addCompany] would change nothing. *)
Theorem addCompany_respects_cap (st : FormState) :
  let n := Z.of_nat (length (companies st)) in
  let cap := max_companies (quantumSettings st) in
  (forall z, cap = Int z -> (n < z)%Z ->
     addCompany st = setCompanies (companies st ++ [blankCompany]) st)
  /\ (forall z, cap = Int z -> (z <= n)%Z -> addCompany st = st)
  /\ (cap = NaN -> addCompany st = st)
  /\ (forall z, cap = Int z ->
        ((n <= z)%Z ->
           (Z.of_nat (length (companies (addCompany st))) <= z)%Z)
        /\ (addCompany st <> st ->
           (Z.of_nat (length (companies (addCompany st))) <= z)%Z))
  /\ (addCompanyDisabled st = true -> addCompany st = st).
Proof.
  intros n cap.
  assert (K : forall z, cap = Int z ->
            addCompany st
            = if (n <? z)%Z
              then setCompanies (companies st ++ [blankCompany]) st else st).
  { intros z E. unfold addCompany. fold cap. rewrite E. reflexivity. }
  split; [|split; [|split; [|split]]].
  - intros z E H. rewrite (K z E).
    now replace (n <? z)%Z with true by (symmetry; apply Z.ltb_lt; exact H).
  - intros z E H. rewrite (K z E).
    now replace (n <? z)%Z with false by (symmetry; apply Z.ltb_ge; exact H).
  - intros E. unfold addCompany. fold cap. rewrite E. reflexivity.
  - intros z E. rewrite (K z E).
    destruct (n <? z)%Z eqn:L.
    + apply Z.ltb_lt in L.
      assert (Z.of_nat (length (companies
                (setCompanies (companies st ++ [blankCompany]) st))) <= z)%Z
        by (simpl; rewrite length_app; simpl; lia).
      split; intros _; assumption.
    + split; [intros H; exact H | intros C; now contradiction C].
  - unfold addCompanyDisabled. fold cap.
    destruct cap as [|z] eqn:E; [discriminate|].
    cbn [length_ge]. intros H. apply Z.leb_le in H. rewrite (K z eq_refl).
    now replace (n <? z)%Z with false by (symmetry; apply Z.ltb_ge; exact H).
Qed.

Lemma addCompany_respects_cap_witness :
  addCompany initialState
  = setCompanies [blankCompany; blankCompany] initialState
  /\ addCompany (setMaxCompanies (Int 1) initialState)
     = setMaxCompanies (Int 1) initialState
  /\ addCompany (setMaxCompanies NaN initialState)
     = setMaxCompanies NaN initialState.
Proof.
  split; [|split].
  - apply (proj1 (addCompany_respects_cap initialState) 8%Z);
      [reflexivity | simpl; lia].
  - apply (proj1 (proj2 (addCompany_respects_cap
                           (setMaxCompanies (Int 1) initialState))) 1%Z);
      [reflexivity | simpl; lia].
  - apply (proj1 (proj2 (proj2 (addCompany_respects_cap
                                  (setMaxCompanies NaN initialState))))).
    reflexivity.
Defined.

(** C9. The list of company rows is never empty: the form starts with one
    row, [addCompany] never shortens the list, [updateCompany] keeps its
    length, [removeCompany] changes nothing unless there are at least two
    rows and then drops at most one, and after any sequence of operations
    of the form (loading the examples and changing the cap included) at
    least one row is left. *)
Theorem companies_never_empty :
  length (companies initialState) = 1
  /\ (forall st, length (companies st) <= length (companies (addCompany st)))
  /\ (forall i f v st,
        length (companies (updateCompany i f v st)) = length (companies st))
  /\ (forall i st,
        length (companies st) <= 1 -> removeCompany i st = st)
  /\ (forall i st,
        1 < length (companies st) ->
        companies (removeCompany i st)
        = firstn i (companies st) ++ skipn (S i) (companies st)
        /\ 1 <= length (companies (removeCompany i st)))
  /\ (forall ops, 1 <= length (companies (run ops initialState))).
Proof.
  split; [reflexivity|].
  split; [exact addCompany_length|].
  split; [exact updateCompany_length|].
  split; [|split].
  - intros i st H. unfold removeCompany.
    now replace (1 <? length (companies st)) with false
      by (symmetry; apply Nat.ltb_ge; exact H).
  - intros i st H. split.
    + unfold removeCompany.
      replace (1 <? length (companies st)) with true
        by (symmetry; apply Nat.ltb_lt; exact H).
      simpl. apply filter_index_neq_spec.
    + apply removeCompany_nonempty. lia.
  - intros ops. apply run_nonempty. simpl. lia.
Qed.

Lemma companies_never_empty_witness :
  removeCompany 0 initialState = initialState
  /\ length (companies (removeCompany 1 (addCompany initialState))) = 1
  /\ 1 <= length (companies
                    (run [OpAdd; OpRemove 0; OpRemove 0; OpRemove 5]
                         initialState)).
Proof.
  destruct companies_never_empty as [_ [_ [_ [R1 [R2 Inv]]]]].
  split; [|split].
  - apply R1. simpl. lia.
  - destruct (R2 1 (addCompany initialState)) as [E _]; [simpl; lia|].
    rewrite E. reflexivity.
  - apply Inv.
Defined.

End BatchFormSpec.

(** ** The batch page *)

Module BatchPageSpec.
Import JsStr BatchPage JsStrFacts.

Lemma perform_app (a b : list Action) (w : World) :
  perform (a ++ b) w = perform b (perform a w).
Proof. apply fold_left_app. Qed.

Lemma field_is_true (f : JsAny) (s : string) :
  field_is f s = true <-> f = Val (JStr (lit s)).
Proof.
  destruct f as [|[| b | z | x | l | o]]; simpl;
    try (split; discriminate).
  rewrite eqb_eq. split; [intros ->; reflexivity | intros E; now inversion E].
Qed.

Lemma sockets_apply (w : World) (a : Action) :
  (forall url, a <> NewWebSocket url) -> sockets (apply w a) = sockets w.
Proof. intros H. destruct a; try reflexivity. now contradiction (H url). Qed.

(** Case split on every substring and membership test of the goal. *)
Ltac split_includes :=
  repeat match goal with
         | |- context [includes ?p ?m] => destruct (includes p m)
         | |- context [existsb (isText ?p) ?l] => destruct (existsb (isText p) l)
         end.

Ltac split_status d :=
  destruct (field_is (d_status d) "completed") eqn:?;
  [| destruct (field_is (d_status d) "failed") eqn:?;
     destruct (field_is (d_status d) "error") eqn:? ].

(** Case split on the kind of value the message field holds. *)
Ltac split_message d :=
  destruct (d_message d) as [|[| [|] | z | [|c m] | l | o]];
  [ | | | | destruct (z =? 0)%Z eqn:? | | | | ].

(** A message field without [includes] stops the handler after the first
    two setters. *)
Lemma onmessage_notText (data : WsData) :
  notText (d_message data) = true ->
  onmessage (Parsed data)
  = [ConsoleLog;
     SetStatus (field_or (d_status data) (JStr (lit "processing")));
     SetMessage (field_or (d_message data) (JStr []));
     ConsoleError].
Proof.
  unfold onmessage, phaseUpdate.
  destruct (d_message data) as [|[| [|] | z | s | l | o]]; cbn [notText];
    try discriminate; try reflexivity.
  intros H. cbn [jsonTruthy]. rewrite H. reflexivity.
Qed.

(** Every other message field lets the handler reach the status. *)
Lemma onmessage_text (data : WsData) :
  notText (d_message data) = false ->
  exists phase,
    phaseUpdate data = Some phase
    /\ onmessage (Parsed data)
       = [ConsoleLog;
          SetStatus (field_or (d_status data) (JStr (lit "processing")));
          SetMessage (field_or (d_message data) (JStr []))]
         ++ phase ++ outcome data.
Proof.
  intros H.
  assert (E : exists phase, phaseUpdate data = Some phase).
  { unfold phaseUpdate, phaseFromMessage, valueIncludes.
    destruct (d_message data) as [|[| [|] | z | [|c m] | l | o]];
      cbn [notText jsonTruthy truthy] in *;
      try discriminate H; try rewrite H;
      split_includes; eexists; reflexivity. }
  destruct E as [phase E]. exists phase. split; [exact E|].
  unfold onmessage. now rewrite E.
Qed.

(** The phase shown after a message is the table's first match. *)
Lemma onmessage_phase (w : World) (data : WsData) :
  currentPhase (page (deliver w (Message (Parsed data))))
  = fst (tablePhaseOf (page w) (d_message data)).
Proof.
  unfold deliver, handle, onmessage, phaseUpdate, phaseFromMessage,
    valueIncludes, outcome, tablePhaseOf, tablePhase, tablePhaseOfElements,
    phaseTable.
  split_message data; cbn [jsonTruthy truthy negb find fst snd];
    try match goal with H : (_ =? 0)%Z = _ |- _ => rewrite H end;
    cbn [negb];
    first [ solve [split_status data; reflexivity]
          | split_includes; split_status data; reflexivity ].
Qed.

Lemma onmessage_progress (w : World) (data : WsData) :
  progress (page (deliver w (Message (Parsed data))))
  = if notText (d_message data) then progress (page w)
    else if field_is (d_status data) "completed" then 100%Z
    else snd (tablePhaseOf (page w) (d_message data)).
Proof.
  unfold deliver, handle, onmessage, phaseUpdate, phaseFromMessage,
    valueIncludes, outcome, tablePhaseOf, tablePhase, tablePhaseOfElements,
    phaseTable.
  split_message data;
    cbn [jsonTruthy notText truthy negb find fst snd];
    try match goal with H : (_ =? 0)%Z = _ |- _ => rewrite H end;
    cbn [negb];
    first [ solve [split_status data; reflexivity]
          | split_includes; split_status data; reflexivity ].
Qed.

(** The claim C2 as worded fails on a final message whose text matches no
    pattern: with phase [report_generation] and progress 80 on display, the
    message [{status: 'completed', message: 'Analysis finished',
    result: {}}] leaves the phase as it is, and yet the progress shown
    after it is 100, not 80. *)
Lemma onmessage_phase_table_counterexample :
  let w := mkWorld (mkPage true (JStr (lit "processing")) (JStr [])
                           (lit "report_generation") 80 (Val JNull) JNull
                           [] None) [] in
  let text := lit "Analysis finished" in
  let data := mkData (Val (JStr (lit "completed"))) (Val (JStr text))
                     (Val (JObj [])) in
  let w' := deliver w (Message (Parsed data)) in
  tablePhase (page w) (Some text) = (lit "report_generation", 80%Z)
  /\ (currentPhase (page w'), progress (page w'))
     <> tablePhase (page w) (Some text).
Proof.
  split; [reflexivity|]. vm_compute. intros E. discriminate E.
Qed.

(** C2, amended. After a message whose [message] field is a string, the
    phase shown is the one of the first pattern, in the fixed order, that
    occurs in the text, and the phase is unchanged when no pattern occurs;
    the progress shown is the one of that pattern (unchanged when none
    occurs), except that a message whose status is [completed] ends at
    progress 100. A [message] field that is missing or falsy leaves the
    phase unchanged, and the progress too unless the status is [completed].
    A [message] field that is an array is matched by its elements instead of
    by substrings. A [message] field that is a non-zero number, [true] or an
    object makes the handler throw at the first test: phase and progress
    are then unchanged, whatever the status. A frame that does not parse,
    or parses to [null], changes nothing. *)
Theorem onmessage_phase_table (w : World) (data : WsData) :
  let w' := deliver w (Message (Parsed data)) in
  let done := field_is (d_status data) "completed" in
  (forall text, d_message data = Val (JStr text) ->
     currentPhase (page w') = fst (tablePhase (page w) (Some text))
     /\ progress (page w')
        = (if done then 100%Z else snd (tablePhase (page w) (Some text))))
  /\ (anyTruthy (d_message data) = false ->
      currentPhase (page w') = currentPhase (page w)
      /\ progress (page w') = (if done then 100%Z else progress (page w)))
  /\ (forall l, d_message data = Val (JArr l) ->
      currentPhase (page w') = fst (tablePhaseOfElements (page w) l)
      /\ progress (page w')
         = (if done then 100%Z
            else snd (tablePhaseOfElements (page w) l)))
  /\ (notText (d_message data) = true ->
      currentPhase (page w') = currentPhase (page w)
      /\ progress (page w') = progress (page w))
  /\ (notText (d_message data) = false ->
      (exists text, d_message data = Val (JStr text))
      \/ (exists l, d_message data = Val (JArr l))
      \/ anyTruthy (d_message data) = false)
  /\ deliver w (Message Unparsable) = w
  /\ deliver w (Message ParsedNull) = w.
Proof.
  cbn zeta.
  pose proof (onmessage_phase w data) as P.
  pose proof (onmessage_progress w data) as Q.
  repeat match goal with |- _ /\ _ => split end.
  - intros text M. rewrite M in P, Q. cbn [notText tablePhaseOf] in P, Q.
    now split.
  - intros F. rewrite P, Q.
    destruct (d_message data) as [|[| [|] | z | [|c m] | l | o]];
      cbn [anyTruthy jsonTruthy truthy] in F; try discriminate F;
      cbn [notText tablePhaseOf tablePhase fst snd];
      try rewrite F; split; reflexivity.
  - intros l M. rewrite M in P, Q. cbn [notText tablePhaseOf] in P, Q.
    now split.
  - intros N. rewrite P, Q, N.
    destruct (d_message data) as [|[| [|] | z | s | l | o]];
      cbn [notText] in N; try discriminate N; split; reflexivity.
  - intros N.
    destruct (d_message data) as [|[| [|] | z | s | l | o]];
      cbn [notText anyTruthy jsonTruthy] in *; try discriminate N;
      try (right; right; reflexivity).
    + right; right. exact N.
    + left. now exists s.
    + right; left. now exists l.
  - now destruct w.
  - now destruct w.
Qed.

Lemma onmessage_phase_table_witness :
  let w := mkWorld (mkPage true (JStr (lit "processing")) (JStr [])
                           (lit "quantum_processing") 60 (Val JNull) JNull
                           [] None) [] in
  let done := Val (JStr (lit "completed")) in
  progress (page (deliver w (Message (Parsed
     (mkData done (Val (JStr (lit "Generating quantum-enhanced report")))
             Undefined)))))
  = 100%Z
  /\ progress (page (deliver w (Message (Parsed
       (mkData done (Val (JNum 5)) Undefined)))))
     = 60%Z
  /\ currentPhase (page (deliver w (Message (Parsed
       (mkData Undefined (Val (JArr [JStr (lit "Quantum encoding")]))
               Undefined)))))
     = lit "quantum_encoding"
  /\ progress (page (deliver w (Message (Parsed
       (mkData Undefined (Val JNull) Undefined)))))
     = 60%Z.
Proof.
  intros w done. split; [|split; [|split]].
  - pose proof (onmessage_phase_table w
       (mkData done (Val (JStr (lit "Generating quantum-enhanced report")))
               Undefined)) as [H _].
    destruct (H _ eq_refl) as [_ R]. exact R.
  - pose proof (onmessage_phase_table w
       (mkData done (Val (JNum 5)) Undefined)) as [_ [_ [_ [H _]]]].
    destruct (H eq_refl) as [_ R]. exact R.
  - pose proof (onmessage_phase_table w
       (mkData Undefined (Val (JArr [JStr (lit "Quantum encoding")]))
               Undefined)) as [_ [_ [H _]]].
    destruct (H _ eq_refl) as [R _]. exact R.
  - pose proof (onmessage_phase_table w
       (mkData Undefined (Val JNull) Undefined)) as [_ [H _]].
    destruct (H eq_refl) as [_ R]. exact R.
Defined.

(** The cells of the terminal outcome after a message that does not make
    the handler throw. *)
Lemma onmessage_outcome_fields (w : World) (data : WsData) :
  notText (d_message data) = false ->
  let w' := deliver w (Message (Parsed data)) in
  let ended := field_is (d_status data) "failed"
               || field_is (d_status data) "error" in
  isResearching (page w')
  = (if field_is (d_status data) "completed" then false
     else if ended then false else isResearching (page w))
  /\ results (page w')
     = (if field_is (d_status data) "completed" then d_result data
        else results (page w))
  /\ error (page w')
     = (if field_is (d_status data) "completed" then error (page w)
        else if ended
             then field_or (d_message data) (JStr (lit "Analysis failed"))
             else error (page w)).
Proof.
  unfold deliver, handle, onmessage, phaseUpdate, phaseFromMessage,
    valueIncludes, outcome.
  split_message data; cbn [notText jsonTruthy truthy negb];
    try discriminate;
    try match goal with H : (_ =? 0)%Z = _ |- _ => rewrite H end;
    cbn [negb]; try discriminate; intros _;
    first [ solve [split_status data; repeat split; reflexivity]
          | split_includes; split_status data; repeat split; reflexivity ].
Qed.

(** The cells after a message that makes the handler throw. *)
Lemma onmessage_thrown_fields (w : World) (data : WsData) :
  notText (d_message data) = true ->
  let p' := page (deliver w (Message (Parsed data))) in
  p' = mkPage (isResearching (page w))
              (field_or (d_status data) (JStr (lit "processing")))
              (field_or (d_message data) (JStr []))
              (currentPhase (page w)) (progress (page w)) (results (page w))
              (error (page w)) (companies (page w)) (jobId (page w)).
Proof.
  intros N. unfold deliver, handle. rewrite (onmessage_notText data N).
  reflexivity.
Qed.

(** The calls of [setIsResearching] made for a message. *)
Lemma onmessage_setIsResearching (data : WsData) (b : bool) :
  In (SetIsResearching b) (onmessage (Parsed data))
  <-> b = false
      /\ notText (d_message data) = false
      /\ (field_is (d_status data) "completed"
          || (field_is (d_status data) "failed"
              || field_is (d_status data) "error")) = true.
Proof.
  destruct (notText (d_message data)) eqn:N.
  - rewrite (onmessage_notText data N). cbn [In]. split.
    + intros H.
      repeat (destruct H as [H | H]; [discriminate H | ]). contradiction.
    + intros [_ [H _]]. discriminate H.
  - revert N.
    unfold onmessage, phaseUpdate, phaseFromMessage, valueIncludes, outcome.
    split_message data; cbn [notText jsonTruthy truthy negb];
      try discriminate;
      try match goal with H : (_ =? 0)%Z = _ |- _ => rewrite H end;
      cbn [negb]; try discriminate; intros _;
      split_includes; split_status data; cbn [List.app In orb];
      (split;
       [ intros H;
         repeat (destruct H as [H | H]; [try discriminate H | ]);
         try contradiction; inversion H; auto
       | intros [-> [_ H]]; try discriminate H; tauto ]).
Qed.

(** The claim C3 as worded fails on a message whose [message] field is not
    text: for [{status: 'completed', message: 5, result: {}}] the handler
    stores the status and the message, throws at [data.message.includes],
    and catches the error; [setIsResearching] is never called, the page is
    still researching, and neither the results nor the progress are
    touched. *)
Lemma onmessage_terminal_outcome_counterexample :
  let w := mkWorld (mkPage true (JStr (lit "processing")) (JStr [])
                           (lit "report_generation") 80 (Val JNull) JNull
                           [] None) [] in
  let data := mkData (Val (JStr (lit "completed"))) (Val (JNum 5))
                     (Val (JObj [])) in
  let w' := deliver w (Message (Parsed data)) in
  endsSession (statusOf (Parsed data))
  /\ ~ In (SetIsResearching false) (onmessage (Parsed data))
  /\ isResearching (page w') = true
  /\ results (page w') = Val JNull
  /\ progress (page w') = 80%Z.
Proof.
  cbn zeta. split; [left; reflexivity|]. split; [|repeat split].
  cbn. intros H.
  repeat (destruct H as [H | H]; [discriminate H | ]). contradiction.
Qed.

(** C3, amended. For a message whose [message] field is a string, an array,
    missing or falsy, the handler calls [setIsResearching(false)] exactly
    for the statuses [completed], [failed] and [error]. On [completed] the
    result payload becomes the results and the progress 100, the error being
    kept; on [failed] and [error] the message field, or ['Analysis failed']
    when it is missing or falsy, becomes the error, the results being kept.
    [setIsResearching] is never called with [true], and a message with any
    other status, a frame that does not parse and a frame that parses to
    [null] leave [isResearching], the results and the error as they were.
    For a message whose [message] field is a non-zero number, [true] or an
    object, the handler throws after storing the status and the message
    and before looking at the status: [setIsResearching] is not called, and
    [isResearching], the results, the error, the phase and the progress are
    as they were, whatever the status. *)
Theorem onmessage_terminal_outcome (w : World) (frame : Frame) :
  let w' := deliver w (Message frame) in
  let s := statusOf frame in
  (notText (messageOf frame) = false ->
     (In (SetIsResearching false) (onmessage frame) <-> endsSession s)
     /\ (s = Val (JStr (lit "completed")) ->
         forall data, frame = Parsed data ->
           isResearching (page w') = false
           /\ results (page w') = d_result data
           /\ progress (page w') = 100%Z
           /\ error (page w') = error (page w))
     /\ (s = Val (JStr (lit "failed")) \/ s = Val (JStr (lit "error")) ->
         forall data, frame = Parsed data ->
           isResearching (page w') = false
           /\ error (page w')
              = field_or (d_message data) (JStr (lit "Analysis failed"))
           /\ results (page w') = results (page w)))
  /\ (forall b, In (SetIsResearching b) (onmessage frame) -> b = false)
  /\ (~ endsSession s ->
        isResearching (page w') = isResearching (page w)
        /\ results (page w') = results (page w)
        /\ error (page w') = error (page w))
  /\ (notText (messageOf frame) = true ->
        (forall b, ~ In (SetIsResearching b) (onmessage frame))
        /\ isResearching (page w') = isResearching (page w)
        /\ results (page w') = results (page w)
        /\ error (page w') = error (page w)
        /\ currentPhase (page w') = currentPhase (page w)
        /\ progress (page w') = progress (page w)
        /\ (forall data, frame = Parsed data ->
              status (page w')
              = field_or (d_status data) (JStr (lit "processing"))
              /\ message (page w') = field_or (d_message data) (JStr []))).
Proof.
  intros w' s. subst w' s. unfold endsSession.
  destruct frame as [| |data]; cbn [statusOf messageOf].
  1,2: split; [|split; [|split]].
  1,5: intros _; split; [|split].
  - simpl. split.
    + intros [E | []]. discriminate E.
    + intros [E | [E | E]]; discriminate E.
  - intros E. discriminate E.
  - intros [E | E]; discriminate E.
  - simpl. split.
    + intros [E | [E | []]]; discriminate E.
    + intros [E | [E | E]]; discriminate E.
  - intros E. discriminate E.
  - intros [E | E]; discriminate E.
  - intros b [E | []]. discriminate E.
  - intros _. repeat split.
  - intros E. discriminate E.
  - intros b [E | [E | []]]; discriminate E.
  - intros _. repeat split.
  - intros E. discriminate E.
  - rewrite <- !(field_is_true (d_status data)).
    pose proof (onmessage_progress w data) as FP.
    split; [|split; [|split]].
    + intros T.
      pose proof (onmessage_outcome_fields w data T) as [FR [FS FE]].
      rewrite T in FP.
      split; [|split].
      * rewrite onmessage_setIsResearching, !orb_true_iff. tauto.
      * intros C d E. inversion E; subst d.
        rewrite C in FR, FS, FE, FP. auto.
      * intros C d E. inversion E; subst d.
        assert (N : field_is (d_status data) "completed" = false).
        { destruct (field_is (d_status data) "completed") eqn:K;
            [|reflexivity].
          apply field_is_true in K. rewrite K in C.
          destruct C as [C | C]; discriminate C. }
        apply orb_true_iff in C. rewrite N in FR, FS, FE.
        rewrite C in FR, FE. auto.
    + intros b H. now apply onmessage_setIsResearching in H.
    + intros N.
      destruct (notText (d_message data)) eqn:T.
      * rewrite (onmessage_thrown_fields w data T). repeat split.
      * pose proof (onmessage_outcome_fields w data T) as [FR [FS FE]].
        destruct (field_is (d_status data) "completed");
          [exfalso; apply N; auto|].
        destruct (field_is (d_status data) "failed");
          [exfalso; apply N; auto|].
        destruct (field_is (d_status data) "error");
          [exfalso; apply N; auto|].
        auto.
    + intros T. split.
      * intros b H. apply onmessage_setIsResearching in H.
        destruct H as [_ [H _]]. congruence.
      * rewrite (onmessage_thrown_fields w data T). cbn.
        repeat split; inversion H; reflexivity.
Qed.

Lemma onmessage_terminal_outcome_witness :
  let w := mkWorld (mkPage true (JStr (lit "processing")) (JStr []) [] 60
                           (Val JNull) JNull [] None) [] in
  results (page (deliver w (Message (Parsed
     (mkData (Val (JStr (lit "completed"))) Undefined
             (Val (JStr (lit "ok"))))))))
  = Val (JStr (lit "ok"))
  /\ error (page (deliver w (Message (Parsed
       (mkData (Val (JStr (lit "failed"))) Undefined Undefined)))))
     = JStr (lit "Analysis failed")
  /\ isResearching (page (deliver w (Message (Parsed
       (mkData (Val (JStr (lit "processing")))
               (Val (JStr (lit "Quantum encoding"))) Undefined)))))
     = true
  /\ isResearching (page (deliver w (Message (Parsed
       (mkData (Val (JStr (lit "failed"))) (Val (JBool true))
               Undefined)))))
     = true.
Proof.
  intros w. split; [|split; [|split]].
  - pose proof (onmessage_terminal_outcome w (Parsed
       (mkData (Val (JStr (lit "completed"))) Undefined
               (Val (JStr (lit "ok"))))))
      as [H _].
    destruct (H eq_refl) as [_ [H1 _]].
    destruct (H1 eq_refl _ eq_refl) as [_ [R _]]. exact R.
  - pose proof (onmessage_terminal_outcome w (Parsed
       (mkData (Val (JStr (lit "failed"))) Undefined Undefined)))
      as [H _].
    destruct (H eq_refl) as [_ [_ H1]].
    destruct (H1 (or_introl eq_refl) _ eq_refl) as [_ [R _]]. exact R.
  - pose proof (onmessage_terminal_outcome w (Parsed
       (mkData (Val (JStr (lit "processing")))
               (Val (JStr (lit "Quantum encoding"))) Undefined)))
      as [_ [_ [H _]]].
    destruct H as [R _]; [|exact R].
    unfold endsSession. cbn [statusOf d_status].
    intros [E | [E | E]]; discriminate E.
  - pose proof (onmessage_terminal_outcome w (Parsed
       (mkData (Val (JStr (lit "failed"))) (Val (JBool true)) Undefined)))
      as [_ [_ [_ H]]].
    destruct (H eq_refl) as [_ [R _]]. exact R.
Defined.

Lemma deliver_loss (w : World) (l : Loss) :
  deliver w (lossEvent l)
  = match l with
    | LossError =>
        mkWorld (applyPage (page w)
                   (SetError (JStr (lit "WebSocket connection error"))))
                (sockets w)
    | LossClose => w
    end.
Proof. destruct l, w; reflexivity. Qed.

Lemma deliverAll_loss_sockets (ls : list Loss) (w : World) :
  sockets (deliverAll (map lossEvent ls) w) = sockets w.
Proof.
  revert w; induction ls as [|l ls IH]; intros w; [reflexivity|].
  cbn [map deliverAll fold_left]. fold (deliverAll (map lossEvent ls)).
  rewrite IH, deliver_loss. now destruct l.
Qed.

(** The claim C4 as worded fails on the batch page: with one socket open for
    a job, the closure of the transport runs [onclose], which opens no
    socket and changes no cell; the page has constructed one socket before
    and one socket after, and nothing is pending that could open another. *)
Lemma transport_loss_reconnect_counterexample :
  let w := perform (connectWebSocket (lit "ws://localhost:8000")
                                     (lit "job-1") true)
                   (mkWorld initialPage []) in
  length (sockets w) = 1
  /\ opensSocket (handle (lossEvent LossClose)) = false
  /\ opensSocket (handle (lossEvent LossError)) = false
  /\ deliver w (lossEvent LossClose) = w
  /\ length (sockets (deliver w (lossEvent LossError))) = 1.
Proof. repeat split. Qed.

(** C4, amended. The reconnect ceiling and delay are configured as 3
    attempts and 2000 ms, but the batch page's session does not use them:
    whatever sequence of transport errors and closures it is delivered, the
    page constructs no further socket; a closure changes no cell at all, and
    an error only stores ['WebSocket connection error'] as the error. *)
Theorem transport_loss_no_reconnect (w : World) (ls : list Loss) :
  Constants.MAX_RECONNECT_ATTEMPTS = 3%Z
  /\ Constants.RECONNECT_DELAY = 2000%Z
  /\ sockets (deliverAll (map lossEvent ls) w) = sockets w
  /\ opensSocket onclose = false
  /\ opensSocket onerror = false
  /\ deliver w Close = w
  /\ deliver w Error
     = mkWorld (applyPage (page w)
                  (SetError (JStr (lit "WebSocket connection error"))))
               (sockets w).
Proof.
  split; [reflexivity|]. split; [reflexivity|].
  split; [apply deliverAll_loss_sockets|].
  split; [reflexivity|]. split; [reflexivity|].
  split; [apply (deliver_loss w LossClose) | apply (deliver_loss w LossError)].
Qed.

End BatchPageSpec.

(** ** The queries panel *)

Module QueriesSpec.
Import JsStr JsArray Queries JsStrFacts.

Lemma query_eqb_eq (a b : Query) : query_eqb a b = true <-> a = b.
Proof.
  unfold query_eqb. rewrite !andb_true_iff, !eqb_eq, Z.eqb_eq, eqb_true_iff.
  destruct a, b; simpl. split.
  - intros [[[-> ->] ->] ->]. reflexivity.
  - intros E. inversion E. auto.
Qed.

(** No category name is a prefix of another one. *)
Lemma categories_prefix_free :
  forallb (fun c =>
             forallb (fun c' => Bool.eqb (startsWith c c') (eqb c c'))
                     categories)
          categories = true.
Proof. reflexivity. Qed.

Lemma startsWith_category (c c' : JsString) :
  In c categories -> In c' categories ->
  startsWith c c' = eqb c c'.
Proof.
  intros Hc Hc'.
  pose proof categories_prefix_free as P.
  rewrite forallb_forall in P. specialize (P c Hc).
  rewrite forallb_forall in P. specialize (P c' Hc').
  now apply eqb_prop in P.
Qed.

Lemma streamingItems_streaming (cat : JsString) (sq : list (JsString * Query)) :
  forallb isStreaming (streamingItems cat sq) = true.
Proof.
  unfold streamingItems. induction (filter _ sq) as [|e l IH]; simpl; auto.
Qed.

Lemma completedItems_queries (cat : JsString) (qs : list Query) :
  forallb isCompleted (completedItems cat qs) = true
  /\ map itemQuery (completedItems cat qs)
     = filter (fun q => startsWith cat (category q)) qs.
Proof.
  unfold completedItems. generalize 0 as i.
  induction (filter _ qs) as [|q l IH]; intros i; simpl; [auto|].
  destruct (IH (S i)) as [A B]. rewrite A, B. auto.
Qed.

Lemma filter_completed_streaming (q : Query) (l : list Item) :
  forallb isStreaming l = true ->
  filter (fun i => isCompleted i && query_eqb q (itemQuery i)) l = [].
Proof.
  induction l as [|i l IH]; simpl; [reflexivity|].
  intros H. apply andb_true_iff in H. destruct H as [Hi Hl].
  unfold isCompleted at 1. rewrite Hi. simpl. auto.
Qed.

Lemma filter_completed_completed (q : Query) (l : list Item) :
  forallb isCompleted l = true ->
  length (filter (fun i => isCompleted i && query_eqb q (itemQuery i)) l)
  = length (filter (query_eqb q) (map itemQuery l)).
Proof.
  induction l as [|i l IH]; simpl; [reflexivity|].
  intros H. apply andb_true_iff in H. destruct H as [Hi Hl].
  rewrite Hi. simpl. destruct (query_eqb q (itemQuery i)); simpl; auto.
Qed.

Lemma occurrences_in_category (q : Query) (cat : JsString) (qs : list Query) :
  length (filter (query_eqb q)
                 (filter (fun x => startsWith cat (category x)) qs))
  = if startsWith cat (category q) then occurrences q qs else 0.
Proof.
  unfold occurrences. induction qs as [|x qs IH]; simpl.
  - now destruct (startsWith cat (category q)).
  - destruct (query_eqb q x) eqn:E.
    + apply query_eqb_eq in E. subst x.
      destruct (startsWith cat (category q)) eqn:S; simpl.
      * rewrite (proj2 (query_eqb_eq q q) eq_refl). simpl. now rewrite IH.
      * exact IH.
    + destruct (startsWith cat (category x)); simpl; [rewrite E|]; exact IH.
Qed.

Lemma shownCompleted_card (q : Query) (cat : JsString)
    (qs : list Query) (sq : list (JsString * Query)) :
  shownCompleted q (mkCard cat (streamingItems cat sq ++ completedItems cat qs))
  = if startsWith cat (category q) then occurrences q qs else 0.
Proof.
  unfold shownCompleted. cbn [items].
  rewrite filter_app, length_app.
  rewrite (filter_completed_streaming q _ (streamingItems_streaming cat sq)).
  destruct (completedItems_queries cat qs) as [A B].
  rewrite (filter_completed_completed q _ A), B. simpl.
  apply occurrences_in_category.
Qed.

(** C8. The panel shows one card per category, in the fixed order. A query
    whose category is one of the four names is shown, as a completed row,
    in the card of that name as often as it occurs in [queries], and in no
    other card: the name of its category is the only one of the four that
    its category string starts with. In every card the rows of the streaming
    queries whose key starts with the category name, in the order of the
    entries, come before the rows of the completed queries of that category.
    The collapsed panel reports [queries.length], and the expanded panel
    shows no summary. *)
Theorem ResearchQueries_cards (queries : list Query)
    (streamingQueries : list (JsString * Query)) (isExpanded : bool) :
  let v := ResearchQueries queries streamingQueries isExpanded in
  map card_key (cards v) = categories
  /\ (forall q, In (category q) categories ->
        (forall c, In c (cards v) ->
           shownCompleted q c
           = if eqb (card_key c) (category q)
             then occurrences q queries else 0)
        /\ (forall cat, In cat categories ->
              (startsWith cat (category q) = true <-> cat = category q))
        /\ list_sum (map (shownCompleted q) (cards v)) = occurrences q queries)
  /\ (forall c, In c (cards v) ->
        exists streaming completed,
          items c = streaming ++ completed
          /\ forallb isStreaming streaming = true
          /\ forallb isCompleted completed = true
          /\ streaming
             = map (fun e => StreamingItem (fst e) (snd e))
                   (filter (fun e => startsWith (card_key c) (fst e))
                           streamingQueries)
          /\ map itemQuery completed
             = filter (fun q => startsWith (card_key c) (category q)) queries)
  /\ summary v = if isExpanded then None else Some (length queries, 4).
Proof.
  intros v. subst v. unfold ResearchQueries. cbn [cards summary].
  split; [|split; [|split]].
  - rewrite map_map. cbn [card_key]. apply map_id.
  - intros q Hq.
    assert (P : forall cat, In cat categories ->
                  startsWith cat (category q) = eqb cat (category q))
      by (intros cat Hc; now apply startsWith_category).
    split; [|split].
    + intros c Hc. apply in_map_iff in Hc. destruct Hc as [cat [<- Hcat]].
      rewrite shownCompleted_card. cbn [card_key]. now rewrite P.
    + intros cat Hcat. rewrite (P cat Hcat). apply eqb_eq.
    + rewrite map_map.
      rewrite (map_ext _ (fun cat => if startsWith cat (category q)
                                     then occurrences q queries else 0))
        by (intros cat; apply shownCompleted_card).
      simpl in Hq.
      destruct Hq as [E | [E | [E | [E | []]]]]; rewrite <- E;
        simpl; lia.
  - intros c Hc. apply in_map_iff in Hc. destruct Hc as [cat [<- Hcat]].
    cbn [items card_key].
    exists (streamingItems cat streamingQueries), (completedItems cat queries).
    destruct (completedItems_queries cat queries) as [A B].
    repeat split; auto using streamingItems_streaming.
  - now destruct isExpanded.
Qed.

Lemma ResearchQueries_cards_witness :
  let q1 := mkQuery (lit "Acme revenue 2024") 1 (lit "financial") true in
  let q2 := mkQuery (lit "Acme competitors") 2 (lit "industry") true in
  let s1 := mkQuery (lit "Acme ne") 1 (lit "news") false in
  let v := ResearchQueries [q1; q2; q1] [(lit "news-1", s1)] false in
  list_sum (map (shownCompleted q1) (cards v)) = 2
  /\ (startsWith (lit "financial") (category q1) = true
      <-> lit "financial" = category q1)
  /\ summary v = Some (3, 4).
Proof.
  intros q1 q2 s1 v.
  pose proof (ResearchQueries_cards [q1; q2; q1] [(lit "news-1", s1)] false)
    as [_ [H [_ S]]].
  destruct (H q1) as [_ [P C]].
  - simpl. auto.
  - split; [exact C | split; [apply P; simpl; auto | exact S]].
Defined.

End QueriesSpec.

(** ** handlers.ts *)

Module HandlersSpec.
Import JsStr Handlers JsStrFacts.

Section FinalReport.
Import Poll.

Variables API_URL jobId : JsString.

Lemma status_is_true (data : PollData) (s : string) :
  status_is data s = true <-> status data = Some (lit s).
Proof.
  unfold status_is. destruct (status data) as [x|].
  - rewrite eqb_eq. split; [intros ->; reflexivity | intros E; now inversion E].
  - split; discriminate.
Qed.

Lemma truthy_true (s : JsString) : truthy s = true <-> s <> [].
Proof. destruct s; simpl; split; congruence. Qed.

Lemma poll_report (data : PollData) (o : Observer) :
  status_is data "completed" && truthy (result_report data) = true ->
  poll API_URL jobId (Response true (Some data)) o = finished data o.
Proof.
  intros H. unfold poll, checkForFinalReport, finished. rewrite H.
  destruct o as [? ? ? ? ? ? [t|] ?]; reflexivity.
Qed.

Lemma poll_no_report (data : PollData) (o : Observer) :
  status_is data "completed" && truthy (result_report data) = false ->
  poll API_URL jobId (Response true (Some data)) o = o.
Proof.
  intros H. unfold poll, checkForFinalReport. rewrite H.
  destruct o; reflexivity.
Qed.

Lemma pollingStopped_finished (data : PollData) (o : Observer) :
  pollingStopped o (finished data o) = true.
Proof.
  unfold pollingStopped, finished. cbn [pollingIntervalRef intervals].
  destruct (pollingIntervalRef o) as [t|]; [|reflexivity].
  apply negb_true_iff.
  destruct (existsb _ _) eqn:E; [|reflexivity].
  apply existsb_exists in E. destruct E as [x [Hin Hx]].
  apply filter_In in Hin. destruct Hin as [_ Hn].
  apply Pos.eqb_eq in Hx. subst x. rewrite Pos.eqb_refl in Hn. discriminate.
Qed.

(** The claim C1 as worded fails on a reply with the terminal status
    [failed]: an observer that is researching, with interval 7 running and
    referenced by [pollingIntervalRef], is left exactly as it was; neither
    is the terminal state surfaced nor does the polling stop. *)
Lemma checkForFinalReport_failed_counterexample :
  let o := mkObserver None None false true (Some enrichment) false
                      (Some 7%positive) [7%positive] in
  let reply := Response true (Some (mkPoll (Some (lit "failed")) None)) in
  let o' := poll (lit "http://localhost:8000") (lit "job-1") reply o in
  reply_status reply = Some (lit "failed")
  /\ terminal (lit "failed") = true
  /\ o' = o
  /\ isResearching o' = true
  /\ pollingStopped o o' = false.
Proof. repeat split. Qed.

(** C1, amended. A poll whose reply has status [completed] and a non-empty
    [result.report] sets the output to that report, the phase to
    [complete], [isComplete] and [hasFinalReport] to true, [isResearching]
    to false, and clears the interval referenced by [pollingIntervalRef],
    which becomes null. Every other poll (a reply with status [failed]
    among them, a reply without report, a reply that is not ok, a failed
    fetch) leaves the observer and its polling interval as they were. *)
Theorem checkForFinalReport_outcome (reply : Reply) (o : Observer) :
  let o' := poll API_URL jobId reply o in
  (forall data,
     reply = Response true (Some data) ->
     status data = Some (lit "completed") ->
     result_report data <> [] ->
     o' = finished data o
     /\ output o' = Some (mkOutput [] (result_report data))
     /\ currentPhase o' = Some complete
     /\ isComplete o' = true
     /\ isResearching o' = false
     /\ pollingStopped o o' = true)
  /\ ((forall data,
         reply = Response true (Some data) ->
         status data = Some (lit "completed") ->
         result_report data = []) ->
      o' = o)
  /\ (forall data,
        reply = Response true (Some data) ->
        status data = Some (lit "failed") ->
        o' = o).
Proof.
  intros o'. subst o'. split; [|split].
  - intros data -> S R.
    assert (H : status_is data "completed" && truthy (result_report data)
                = true).
    { apply andb_true_iff. split;
        [now apply status_is_true | now apply truthy_true]. }
    rewrite (poll_report data o H).
    repeat split. apply pollingStopped_finished.
  - intros H. destruct reply as [|[|] [data|]];
      try (destruct o; reflexivity).
    apply poll_no_report.
    destruct (status_is data "completed") eqn:S; [|reflexivity].
    apply status_is_true in S. rewrite (H data eq_refl S). reflexivity.
  - intros data -> S. apply poll_no_report.
    unfold status_is. rewrite S. reflexivity.
Qed.

End FinalReport.

Lemma checkForFinalReport_outcome_witness :
  let o := Poll.mkObserver None None false true (Some enrichment) false
                           (Some 7%positive) [7%positive; 9%positive] in
  let data := Poll.mkPoll (Some (lit "completed"))
                (Some (Poll.mkResult (Some (lit "# Acme Corp")))) in
  let o' := Poll.poll (lit "http://localhost:8000") (lit "job-1")
                      (Poll.Response true (Some data)) o in
  Poll.output o' = Some (mkOutput [] (lit "# Acme Corp"))
  /\ Poll.intervals o' = [9%positive]
  /\ Poll.pollingStopped o o' = true
  /\ Poll.poll (lit "http://localhost:8000") (lit "job-1")
               Poll.FetchRejected o = o.
Proof.
  intros o data o'.
  pose proof (checkForFinalReport_outcome (lit "http://localhost:8000")
                (lit "job-1") (Poll.Response true (Some data)) o)
    as [H _].
  destruct (H data eq_refl eq_refl) as [E [O [_ [_ [_ P]]]]].
  - discriminate.
  - split; [exact O | split; [unfold o'; rewrite E; reflexivity | split]].
    + exact P.
    + apply (proj1 (proj2 (checkForFinalReport_outcome
               (lit "http://localhost:8000") (lit "job-1")
               Poll.FetchRejected o))).
      intros d E'. discriminate E'.
Defined.

Section ResetResearch.
Import Reset.

Lemma runBody_resetBody (s : State) : runBody resetBody s = idleState.
Proof. reflexivity. Qed.

(** C10. [resetResearch] sets [isResetting] and schedules one callback,
    300 ms later; whatever the cells hold when that callback runs, it leaves
    them in the idle state: status, output, error and pdfUrl null,
    [isComplete] false, [currentPhase] null, the research state equal to
    [{status: 'idle', message: '', queries: [], streamingQueries: {},
    briefingStatus: all four false}], and the remaining cells at their idle
    values; so the cells after the reset do not depend on the cells
    before it. *)
Theorem resetResearch_restores_idle (s : State) :
  let w := perform resetResearch (mkWorld s []) in
  cells w = set s (SetIsResetting true)
  /\ timers w = [(resetBody, Constants.ANIMATION_DURATIONS_reset)]
  /\ (forall s', runBody resetBody s' = idleState)
  /\ cells (settle w) = idleState
  /\ timers (settle w) = []
  /\ status idleState = None
  /\ output idleState = None
  /\ error idleState = None
  /\ pdfUrl idleState = None
  /\ isComplete idleState = false
  /\ currentPhase idleState = None
  /\ researchState idleState
     = mkResearch (lit "idle") [] [] []
                  (mkBriefing false false false false)
  /\ (forall s2, cells (settle (perform resetResearch (mkWorld s2 [])))
                 = cells (settle w)).
Proof.
  repeat split.
Qed.

End ResetResearch.

End HandlersSpec.

(** ** The Maps script loader *)

Module MapsLoaderSpec.
Import JsStr MapsLoader.

Lemma nth_error_snoc {A} (l : list A) (x : A) :
  nth_error (l ++ [x]) (length l) = Some x.
Proof.
  rewrite nth_error_app2 by lia. now rewrite Nat.sub_diag.
Qed.

Ltac fresh_pending :=
  eexists; split; [reflexivity | cbn; apply nth_error_snoc].

Ltac close_invariant :=
  unfold invariant, promiseState; cbn;
  repeat match goal with
         | |- _ /\ _ => split
         | |- _ -> _ => intro
         end;
  try discriminate; try congruence; try reflexivity; try assumption;
  try fresh_pending.

Lemma loadGoogleMapsScript_invariant (w : World) :
  invariant w -> invariant (fst (loadGoogleMapsScript w)).
Proof.
  destruct w as [ld lg sp ps cb sc pg pl iv tv nt ap key].
  unfold invariant, promiseState, loadGoogleMapsScript, executor,
    existingScript, alloc.
  cbn. intros [A [B C]].
  destruct ld; [rewrite A by reflexivity; cbn; close_invariant;
                destruct (B ltac:(assumption)) as [? _]; discriminate|].
  cbn.
  destruct lg.
  - destruct (B eq_refl) as [_ [p [-> P]]]. cbn. close_invariant.
    exists p; auto.
  - destruct sp, pg, pl, sc, key; cbn; close_invariant.
Qed.

Lemma fire_invariant (w : World) (e : Event) :
  invariant w -> invariant (fire w e).
Proof.
  destruct e as [| | | |t|t]; cbn [fire].
  - apply loadGoogleMapsScript_invariant.
  - destruct w as [ld lg sp ps cb sc pg pl iv tv nt ap key].
    unfold invariant, promiseState, callbackBody, resolve. cbn.
    intros [A [B C]].
    destruct sc; cbn; auto.
    destruct cb; cbn; close_invariant; apply B; assumption.
  - destruct w as [ld lg sp ps cb sc pg pl iv tv nt ap key].
    unfold invariant, promiseState, onerrorBody, reject. cbn.
    intros [A [B C]].
    destruct sc; cbn; auto. close_invariant. auto.
  - destruct w as [ld lg sp ps cb sc pg pl iv tv nt ap key].
    unfold invariant, promiseState. cbn.
    intros [A [B C]]. auto.
  - destruct (timerOf t (intervals w)) as [p|]; [|auto].
    destruct w as [ld lg sp ps cb sc pg pl iv tv nt ap key].
    unfold invariant, promiseState, tickBody, clearInterval, resolve. cbn.
    intros [A [B C]].
    destruct pl; cbn; [close_invariant | auto].
  - destruct (timerOf t (timeouts w)) as [p|]; [|auto].
    destruct w as [ld lg sp ps cb sc pg pl iv tv nt ap key].
    unfold invariant, promiseState, timeoutBody, clearInterval, reject. cbn.
    intros [A [B C]].
    destruct ld; cbn; [auto | close_invariant; auto].
Qed.

Lemma initial_invariant (pl pg : bool) (key : option JsString) :
  invariant (initial pl pg key).
Proof. close_invariant. Qed.

Lemma run_invariant (es : list Event) (w : World) :
  invariant w -> invariant (run es w).
Proof.
  revert w; induction es as [|e es IH]; intros w H; [exact H|].
  apply IH, fire_invariant, H.
Qed.

(** Once set, the loaded flag stays set. *)
Lemma fire_loaded (w : World) (e : Event) :
  isScriptLoaded w = true -> isScriptLoaded (fire w e) = true.
Proof.
  destruct w as [ld lg sp ps cb sc pg pl iv tv nt ap key]. cbn.
  intros ->. destruct e as [| | | |t|t]; cbn.
  - unfold loadGoogleMapsScript, executor, existingScript, alloc. cbn.
    destruct pl, lg, sp, pg, sc, key; reflexivity.
  - destruct sc; try reflexivity. destruct cb; reflexivity.
  - destruct sc; reflexivity.
  - reflexivity.
  - destruct (timerOf t iv); [|reflexivity].
    unfold tickBody. cbn. destruct pl; reflexivity.
  - destruct (timerOf t tv); reflexivity.
Qed.

Lemma run_loaded (es : list Event) (w : World) :
  isScriptLoaded w = true -> isScriptLoaded (run es w) = true.
Proof.
  revert w; induction es as [|e es IH]; intros w H; [exact H|].
  apply IH, fire_loaded, H.
Qed.

(** C7. In every state the loader reaches from the first evaluation of the
    module, whatever the calls and browser callbacks that led there:
    while a load is in progress ([isScriptLoading]), a call returns the
    promise held in [scriptLoadPromise], which is pending, and changes
    nothing, so repeated calls return that same promise and no new load is
    started; the loader has appended at most one script element; and once
    a load has succeeded ([isScriptLoaded]), which then holds for ever, a
    call returns a new promise that is already fulfilled and changes nothing
    else. *)
Theorem loadGoogleMapsScript_init_once
    (pl pg : bool) (key : option JsString) (es : list Event) :
  let w := run es (initial pl pg key) in
  (isScriptLoading w = true ->
     exists p,
       loadGoogleMapsScript w = (w, p)
       /\ scriptLoadPromise w = Some p
       /\ promiseState w p = Some Pending
       /\ forall n, run (repeat Call n) w = w)
  /\ appended w <= 1
  /\ (isScriptLoaded w = true ->
      loadGoogleMapsScript w
      = (set_promises (promises w ++ [Fulfilled]) w, length (promises w))
      /\ promiseState (fst (loadGoogleMapsScript w))
                      (snd (loadGoogleMapsScript w)) = Some Fulfilled
      /\ forall es', isScriptLoaded (run es' w) = true).
Proof.
  intros w.
  assert (I : invariant w) by apply run_invariant, initial_invariant.
  destruct I as [A [B C]].
  split; [|split].
  - intros L. destruct (B L) as [NL [p [SP PP]]].
    assert (E : loadGoogleMapsScript w = (w, p)).
    { unfold loadGoogleMapsScript. rewrite NL, L, SP. reflexivity. }
    exists p. repeat split; auto.
    induction n as [|n IH]; [reflexivity|].
    cbn [repeat run fold_left fire]. rewrite E. exact IH.
  - rewrite C. destruct (script w); lia.
  - intros L.
    assert (E : loadGoogleMapsScript w
                = (set_promises (promises w ++ [Fulfilled]) w,
                   length (promises w))).
    { unfold loadGoogleMapsScript, alloc. rewrite L, (A L). reflexivity. }
    split; [exact E | split].
    + rewrite E. cbn [fst snd]. unfold promiseState. cbn.
      apply nth_error_snoc.
    + intros es'. now apply run_loaded.
Qed.

Lemma loadGoogleMapsScript_init_once_witness :
  let key := Some (lit "k") in
  (exists p,
     loadGoogleMapsScript (run [Call; PlacesReady] (initial false false key))
     = (run [Call; PlacesReady] (initial false false key), p)
     /\ promiseState (run [Call; PlacesReady] (initial false false key)) p
        = Some Pending)
  /\ snd (loadGoogleMapsScript
            (run [Call; Call; ScriptLoad; Call] (initial false false key)))
     = 2.
Proof.
  intros key. split.
  - destruct (proj1 (loadGoogleMapsScript_init_once false false key
                       [Call; PlacesReady]) eq_refl)
      as [p [E [_ [P _]]]].
    exists p. split; [exact E | exact P].
  - destruct (proj2 (proj2 (loadGoogleMapsScript_init_once false false key
                              [Call; Call; ScriptLoad; Call])) eq_refl)
      as [E _].
    rewrite E. reflexivity.
Defined.

End MapsLoaderSpec.

(** ** The batch form: rows, cap and submit button *)

Module BatchFormViewSpec.
Import JsStr JsArray BatchForm BatchFormView JsStrFacts JsArrayFacts
       BatchFormSpec.

Lemma map_index_nth_error {A B} (f : A -> nat -> B) (l : list A) (k j : nat) :
  nth_error (map_index f k l) j
  = option_map (fun x => f x (k + j)) (nth_error l j).
Proof.
  revert k j; induction l as [|x l IH]; intros k [|j]; simpl; try reflexivity.
  - now rewrite Nat.add_0_r.
  - rewrite IH. now replace (S k + j) with (k + S j) by lia.
Qed.

Lemma map_index_id {A} (f : A -> nat -> A) (l : list A) (k : nat) :
  (forall x j, k <= j -> j < k + length l -> f x j = x) ->
  map_index f k l = l.
Proof.
  revert k; induction l as [|x l IH]; intros k H; simpl; [reflexivity|].
  rewrite H by (simpl; lia). f_equal.
  apply IH. intros y j H1 H2. apply H; simpl; lia.
Qed.

Lemma getField_setField (f g : Field) (v : JsString) (c : Company) :
  getField g (setField f v c)
  = match f, g with
    | FName, FName | FIndustry, FIndustry
    | FCompanyUrl, FCompanyUrl | FHqLocation, FHqLocation => v
    | _, _ => getField g c
    end.
Proof. destruct f, g; reflexivity. Qed.

(** X1. [updateCompany(index, field, value)] writes one cell: the row at
    [index] gets [value] in [field] and keeps its other fields, every other
    row is untouched, and an index past the end changes nothing at all. *)
Theorem updateCompany_writes_one_cell
    (index : nat) (field : Field) (value : JsString) (st : FormState) :
  (forall c, nth_error (companies st) index = Some c ->
     exists c',
       nth_error (companies (updateCompany index field value st)) index
       = Some c'
       /\ getField field c' = value
       /\ forall g, g <> field -> getField g c' = getField g c)
  /\ (forall j, j <> index ->
        nth_error (companies (updateCompany index field value st)) j
        = nth_error (companies st) j)
  /\ (length (companies st) <= index ->
        updateCompany index field value st = st)
  /\ quantumSettings (updateCompany index field value st)
     = quantumSettings st.
Proof.
  unfold updateCompany. cbn [companies setCompanies quantumSettings].
  split; [|split; [|split]].
  - intros c H. exists (setField field value c). split; [|split].
    + rewrite map_index_nth_error, H. simpl. now rewrite Nat.eqb_refl.
    + rewrite getField_setField. now destruct field.
    + intros g N. rewrite getField_setField.
      destruct field, g; try reflexivity; now contradiction N.
  - intros j N. rewrite map_index_nth_error. simpl.
    replace (j =? index) with false by (symmetry; now apply Nat.eqb_neq).
    now destruct (nth_error (companies st) j).
  - intros H. destruct st as [l q s]. unfold setCompanies. simpl in *.
    f_equal. apply map_index_id. intros x j _ Hj.
    replace (j =? index) with false
      by (symmetry; apply Nat.eqb_neq; simpl in Hj; lia).
    reflexivity.
  - reflexivity.
Qed.

Lemma updateCompany_writes_one_cell_witness :
  let st := loadExampleCompanies initialState in
  (exists c',
     nth_error (companies (updateCompany 2 FName (lit "Acme") st)) 2 = Some c'
     /\ name c' = lit "Acme" /\ industry c' = [31185; 25216]%N)
  /\ updateCompany 4 FName (lit "Acme") st = st.
Proof.
  intros st. split.
  - destruct (proj1 (updateCompany_writes_one_cell 2 FName (lit "Acme") st)
                    _ eq_refl) as [c' [E [V O]]].
    exists c'. split; [exact E | split; [exact V|]].
    apply (O FIndustry). discriminate.
  - apply (proj1 (proj2 (proj2
             (updateCompany_writes_one_cell 4 FName (lit "Acme") st)))).
    simpl. lia.
Defined.

Lemma firstn_skipn_snoc {A} (l : list A) (x : A) :
  firstn (length l) (l ++ [x]) ++ skipn (S (length l)) (l ++ [x]) = l.
Proof.
  rewrite skipn_all2 by (rewrite length_app; simpl; lia).
  rewrite firstn_app, Nat.sub_diag, firstn_all. simpl.
  now rewrite !app_nil_r.
Qed.

(** X2. Removing the row that [addCompany] has just appended gives the form
    back as it was: for a form with at least one row on which [addCompany]
    had an effect, [removeCompany] at the old length undoes it. *)
Theorem removeCompany_undoes_addCompany (st : FormState) :
  1 <= length (companies st) ->
  addCompany st <> st ->
  removeCompany (length (companies st)) (addCompany st) = st.
Proof.
  intros L C. unfold addCompany in *.
  destruct (length_lt _ _); [|now contradiction C].
  unfold removeCompany. cbn [companies setCompanies].
  rewrite length_app. simpl.
  replace (1 <? length (companies st) + 1) with true
    by (symmetry; apply Nat.ltb_lt; lia).
  rewrite filter_index_neq_spec, firstn_skipn_snoc.
  now destruct st.
Qed.

Lemma removeCompany_undoes_addCompany_witness :
  removeCompany 1 (addCompany initialState) = initialState.
Proof.
  apply (@removeCompany_undoes_addCompany initialState).
  - simpl. lia.
  - discriminate.
Defined.

Lemma step_withinCap (st : FormState) (o : Op) :
  rowOp o = true -> withinCap st -> withinCap (step st o).
Proof.
  intros R [z [E H]]. exists z.
  destruct o as [|i|i f v| |m]; try discriminate R; cbn [step].
  - unfold addCompany. rewrite E. cbn [length_lt].
    destruct (Z.of_nat (length (companies st)) <? z)%Z eqn:K.
    + apply Z.ltb_lt in K. cbn. rewrite length_app. simpl. split; [exact E|lia].
    + auto.
  - unfold removeCompany.
    destruct (1 <? length (companies st)); [|auto].
    cbn. split; [exact E|].
    pose proof (filter_index_length_le (fun _ j => negb (j =? i))
                  (companies st) 0). lia.
  - split; [exact E|]. now rewrite updateCompany_length.
Qed.

(** X3. Adding, removing and editing rows keep the list within the item
    cap: from a form whose list is no longer than [max_companies], any
    sequence of [addCompany], [removeCompany] and [updateCompany] leads to
    a form whose list is no longer than [max_companies]. *)
Theorem row_operations_keep_cap (ops : list Op) (st : FormState) :
  withinCap st ->
  forallb rowOp ops = true ->
  withinCap (run ops st).
Proof.
  revert st; induction ops as [|o ops IH]; intros st W F; [exact W|].
  simpl in F. apply andb_true_iff in F. destruct F as [R F].
  simpl. apply IH; [|exact F]. now apply step_withinCap.
Qed.

Lemma row_operations_keep_cap_witness :
  withinCap (run [OpAdd; OpAdd; OpUpdate 1 FName (lit "Acme"); OpRemove 0;
                  OpAdd; OpAdd; OpAdd; OpAdd; OpAdd; OpAdd; OpAdd; OpAdd]
                 initialState).
Proof.
  apply row_operations_keep_cap.
  - exists 8%Z. split; [reflexivity | simpl; lia].
  - reflexivity.
Defined.

Lemma namedCompanies_not_blank (l : list Company) :
  Forall (fun c => blank (name c) = false) (namedCompanies l).
Proof.
  apply Forall_forall. intros c H. apply filter_In in H.
  now apply negb_true_iff.
Qed.

(** X4. The submit button and [handleSubmit] agree. The form alerts, and
    does not submit, exactly when the caption counts zero named companies;
    whenever the submit button is enabled, [handleSubmit] makes one call of
    [onSubmit] and nothing else but [preventDefault], with as many
    companies as the caption announces, at least one, none of them with a
    blank name. *)
Theorem submit_button_agrees_with_handleSubmit
    (isResearching : bool) (st : FormState) :
  (analysedCount st = 0 <->
     exists msg, handleSubmit st = [PreventDefault; Alert msg])
  /\ (submitDisabled isResearching st = false ->
      exists fd,
        handleSubmit st = [PreventDefault; OnSubmit fd]
        /\ length (fd_companies fd) = analysedCount st
        /\ 1 <= length (fd_companies fd)
        /\ Forall (fun c => blank (name c) = false) (fd_companies fd)).
Proof.
  unfold submitDisabled, analysedCount, handleSubmit.
  rewrite validCompanies_named.
  destruct (length (namedCompanies (companies st)) =? 0) eqn:E.
  - apply Nat.eqb_eq in E. split.
    + split; [intros _; eexists; reflexivity | intros _; exact E].
    + rewrite orb_true_r. discriminate.
  - apply Nat.eqb_neq in E. split.
    + split; [intros Z; now contradiction E | intros [msg H]; discriminate H].
    + intros _. eexists. split; [reflexivity|]. cbn [fd_companies].
      split; [reflexivity | split; [lia | apply namedCompanies_not_blank]].
Qed.

Lemma submit_button_agrees_with_handleSubmit_witness :
  exists fd,
    handleSubmit (loadExampleCompanies initialState)
    = [PreventDefault; OnSubmit fd]
    /\ length (fd_companies fd) = 4.
Proof.
  destruct (proj2 (submit_button_agrees_with_handleSubmit false
                     (loadExampleCompanies initialState)) eq_refl)
    as [fd [E [L _]]].
  exists fd. split; [exact E | rewrite L; reflexivity].
Defined.

End BatchFormViewSpec.

(** ** The batch page: submissions, resets and panels *)

Module BatchSessionSpec.
Import JsStr BatchForm BatchPage BatchSession JsStrFacts BatchFormSpec
       BatchPageSpec.

Section Urls.
Variables API_URL WS_URL : JsString.

#[local] Abbreviation on := (BatchSession.on API_URL WS_URL).
#[local] Abbreviation play := (BatchSession.play API_URL WS_URL).

(** Case split on everything a reply depends on. *)
Ltac split_reply reply constructed :=
  destruct reply as [e | [|] code [e | [[[|c j]|] m]]];
  destruct constructed.

Lemma tablePhaseOf_cases (p : PageState) (field : JsAny) :
  tablePhaseOf p field = (currentPhase p, progress p)
  \/ exists pat, In (pat, tablePhaseOf p field) phaseTable.
Proof.
  unfold tablePhaseOf, tablePhase, tablePhaseOfElements.
  destruct field as [|[| b | z | m | l | o]]; try now left.
  - destruct (find _ phaseTable) as [row|] eqn:F; [|now left].
    right. apply find_some in F. destruct F as [Hin _].
    exists (fst row). now destruct row.
  - destruct (find _ phaseTable) as [row|] eqn:F; [|now left].
    right. apply find_some in F. destruct F as [Hin _].
    exists (fst row). now destruct row.
Qed.

Lemma phaseTable_values :
  forall pat ph pr, In (pat, (ph, pr)) phaseTable ->
    progressStep pr /\ knownPhase ph.
Proof.
  intros pat ph pr H. unfold progressStep, knownPhase. simpl in H.
  repeat (destruct H as [H | H];
          [inversion H; subst; split; [tauto | right; simpl; tauto] | ]).
  contradiction.
Qed.

Lemma deliver_keeps_steps (w : World) (e : WsEvent) :
  progressStep (progress (page w)) -> knownPhase (currentPhase (page w)) ->
  progressStep (progress (page (deliver w e)))
  /\ knownPhase (currentPhase (page (deliver w e))).
Proof.
  intros P K. destruct e as [|[| |data]| |]; try (destruct w; now split).
  rewrite onmessage_phase, onmessage_progress.
  destruct (tablePhaseOf_cases (page w) (d_message data)) as [E | [pat Hin]].
  - rewrite E. cbn [fst snd].
    split; [|exact K].
    destruct (notText _); [exact P|].
    destruct (field_is _ _); [unfold progressStep; tauto | exact P].
  - destruct (tablePhaseOf (page w) (d_message data)) as [ph pr].
    apply phaseTable_values in Hin. destruct Hin as [HP HK].
    cbn [fst snd]. split; [|exact HK].
    destruct (notText _); [exact P|].
    destruct (field_is _ _); [unfold progressStep; tauto | exact HP].
Qed.

(** What the synchronous part of a submission leaves. *)
Lemma submitStart_state (s : Session) (fd : QuantumBatchFormData) :
  on s (SubmitStart fd)
  = mkSession
      (mkWorld
         (mkPage true (JStr (lit "processing"))
                 (JStr [27491; 22312; 21551; 21160; 37327; 23376; 24182;
                        34892; 20998; 26512; 46; 46; 46]%N)
                 [] 0 (Val JNull) JNull (map name (fd_companies fd))
                 (jobId (page (world s))))
         (sockets (world s)))
      (closed s) (S (inflight s)).
Proof. destruct s as [[p sk] cl n]. reflexivity. Qed.

(** A reply leaves the phase, the progress, the results and the companies
    alone. *)
Lemma submitReply_keeps (s : Session) (reply : StartReply)
    (constructed : bool) :
  let p := page (world s) in
  let p' := page (world (on s (SubmitReply reply constructed))) in
  progress p' = progress p /\ currentPhase p' = currentPhase p
  /\ results p' = results p /\ companies p' = companies p.
Proof.
  destruct s as [[p sk] cl [|n]]; [repeat split|].
  split_reply reply constructed; repeat split.
Qed.

Lemma reset_page (s : Session) :
  page (world (on s Reset)) = initialPage.
Proof. destruct s as [[p [|u sk]] cl n]; reflexivity. Qed.

Lemma unmount_world (s : Session) :
  world (on s Unmount) = world s.
Proof. destruct s as [[p [|u sk]] cl n]; reflexivity. Qed.

Lemma on_keeps_steps (s : Session) (e : PageEvent) :
  progressStep (progress (page (world s))) ->
  knownPhase (currentPhase (page (world s))) ->
  progressStep (progress (page (world (on s e))))
  /\ knownPhase (currentPhase (page (world (on s e)))).
Proof.
  intros P K. destruct e as [fd | reply constructed | e | | ].
  - rewrite submitStart_state. unfold progressStep, knownPhase. cbn. tauto.
  - destruct (submitReply_keeps s reply constructed) as [A [B _]].
    rewrite A, B. now split.
  - now apply deliver_keeps_steps.
  - rewrite reset_page. unfold progressStep, knownPhase. simpl. tauto.
  - rewrite unmount_world. now split.
Qed.



(** X6. [resetAnalysis] brings every page state back to the initial one, in
    which the form alone is rendered; it constructs no socket, and calls
    [close()] on the socket constructed last, if there is one. *)
Theorem resetAnalysis_returns_to_form (s : Session) :
  let s' := on s Reset in
  page (world s') = initialPage
  /\ render (page (world s')) = mkPanels true false false false
  /\ sockets (world s') = sockets (world s)
  /\ closed s'
     = match sockets (world s) with
       | [] => closed s
       | _ :: older => length older :: closed s
       end.
Proof.
  destruct s as [[p [|u sk]] cl n]; repeat split.
Qed.

(** What a reply does to the sockets, whatever state it meets. *)
Lemma submitReply_sockets (s : Session) (reply : StartReply)
    (constructed : bool) :
  let e := SubmitReply reply constructed in
  (0 < inflight s -> opensConnection e = true ->
     exists data j,
       reply_body reply = Some data /\ job_id data = Some j
       /\ sockets (world (on s e))
          = (WS_URL ++ lit "/research/ws/" ++ j) :: sockets (world s))
  /\ (opensConnection e = false ->
      sockets (world (on s e)) = sockets (world s))
  /\ closed (on s e) = closed s.
Proof.
  destruct s as [[p sk] cl [|n]].
  - cbn. split; [lia | split; reflexivity].
  - split_reply reply constructed; cbn;
      (split; [|split]); try reflexivity; try discriminate;
      intros _ _; eexists; eexists; repeat split.
Qed.

(** X7. A submission constructs a socket exactly when its reply is ok,
    carries a non-empty [job_id] and the socket can be constructed, and
    then exactly one, for [WS_URL/research/ws/job_id]; it closes no
    socket, not even the one of an earlier submission. This holds of a
    submission that nothing interrupts, and of its two halves on their own:
    the part before the request constructs and closes nothing, and the
    part after it, on whatever state it meets, constructs that one socket
    or none and closes nothing. *)
Theorem handleSubmit_opens_one_socket (s : Session)
    (fd : QuantumBatchFormData) (reply : StartReply) (constructed : bool) :
  let e := SubmitReply reply constructed in
  let s' := play [SubmitStart fd; e] s in
  ((opensConnection e = true ->
      exists data j,
        reply_body reply = Some data /\ job_id data = Some j
        /\ sockets (world s')
           = (WS_URL ++ lit "/research/ws/" ++ j) :: sockets (world s))
   /\ (opensConnection e = false -> sockets (world s') = sockets (world s))
   /\ closed s' = closed s)
  /\ (sockets (world (on s (SubmitStart fd))) = sockets (world s)
      /\ closed (on s (SubmitStart fd)) = closed s)
  /\ ((0 < inflight s -> opensConnection e = true ->
       exists data j,
         reply_body reply = Some data /\ job_id data = Some j
         /\ sockets (world (on s e))
            = (WS_URL ++ lit "/research/ws/" ++ j) :: sockets (world s))
      /\ (opensConnection e = false ->
          sockets (world (on s e)) = sockets (world s))
      /\ closed (on s e) = closed s).
Proof.
  cbn zeta. split; [|split].
  - cbn [BatchSession.play fold_left].
    pose proof (submitReply_sockets (on s (SubmitStart fd)) reply constructed)
      as H.
    cbn zeta in H. rewrite submitStart_state in *.
    cbn [world sockets closed inflight] in H.
    destruct H as [A [B C]]. split; [|split; [exact B | exact C]].
    intros O. apply A; [lia | exact O].
  - rewrite submitStart_state. split; reflexivity.
  - apply submitReply_sockets.
Qed.

Lemma deliver_sockets (w : World) (e : WsEvent) :
  sockets (deliver w e) = sockets w.
Proof.
  destruct e as [|[| |data]| |]; try (destruct w; reflexivity).
  unfold deliver, handle.
  destruct (notText (d_message data)) eqn:N.
  - rewrite (onmessage_notText data N). reflexivity.
  - destruct (onmessage_text data N) as [phase [E ->]].
    revert E. unfold phaseUpdate, phaseFromMessage, valueIncludes, outcome.
    destruct (d_message data) as [|[| [|] | z | m | l | o]];
      cbn [jsonTruthy truthy];
      repeat match goal with
             | |- context [if ?b then _ else _] => destruct b
             end;
      intros E; inversion E; subst phase; split_status data; reflexivity.
Qed.

Lemma on_sockets_closed (s : Session) (e : PageEvent) :
  length (sockets (world (on s e))) + inflight (on s e)
  <= length (sockets (world s)) + inflight s
     + (if isSubmission e then 1 else 0)
  /\ length (sockets (world (on s e)))
     = length (sockets (world s)) + connections (inflight s) [e]
  /\ (closes e = false -> closed (on s e) = closed s).
Proof.
  destruct e as [fd | reply constructed | e | | ].
  - rewrite submitStart_state. cbn. repeat split; lia.
  - destruct s as [[p sk] cl [|n]]; [cbn; repeat split; lia|].
    split_reply reply constructed; cbn; repeat split; lia.
  - cbn. rewrite deliver_sockets. repeat split; lia.
  - destruct s as [[p [|u sk]] cl n]; cbn; repeat split; try lia;
      discriminate.
  - destruct s as [[p [|u sk]] cl n]; cbn; repeat split; try lia;
      discriminate.
Qed.

Lemma on_inflight (s : Session) (e : PageEvent) :
  inflight (on s e)
  = match e with
    | SubmitStart _ => S (inflight s)
    | SubmitReply _ _ => pred (inflight s)
    | _ => inflight s
    end.
Proof.
  destruct e as [fd | reply constructed | e | | ].
  - now rewrite submitStart_state.
  - destruct s as [[p sk] cl [|n]]; [reflexivity|].
    split_reply reply constructed; reflexivity.
  - reflexivity.
  - destruct s as [[p [|u sk]] cl n]; reflexivity.
  - destruct s as [[p [|u sk]] cl n]; reflexivity.
Qed.

(** X8. From the initial page, whatever submissions, replies, socket
    events, resets and unmounts happen, in whatever order, the progress on
    display is one of 0, 20, 40, 60, 80 and 100, and the phase on display
    is empty or one of the five phases the status panel lists. *)
Theorem progress_and_phase_stay_known (es : list PageEvent) :
  let p := page (world (play es initialSession)) in
  progressStep (progress p) /\ knownPhase (currentPhase p).
Proof.
  cbn zeta.
  assert (G : forall s,
             progressStep (progress (page (world s))) ->
             knownPhase (currentPhase (page (world s))) ->
             progressStep (progress (page (world (play es s))))
             /\ knownPhase (currentPhase (page (world (play es s))))).
  { induction es as [|e es IH]; intros s P K; [now split|].
    destruct (on_keeps_steps s e P K) as [P' K'].
    apply (IH (on s e) P' K'). }
  apply G; [left; reflexivity | left; reflexivity].
Qed.

Lemma connections_step (n : nat) (e : PageEvent) (es : list PageEvent) :
  connections n (e :: es)
  = connections n [e]
    + connections (match e with
                   | SubmitStart _ => S n
                   | SubmitReply _ _ => pred n
                   | _ => n
                   end) es.
Proof.
  destruct e as [fd | reply constructed | e | | ]; cbn [connections];
    try reflexivity.
  destruct n as [|n]; cbn [pred]; [reflexivity | lia].
Qed.

Lemma connections_bound (n : nat) (es : list PageEvent) :
  connections n es <= length (filter opensConnection es).
Proof.
  revert n; induction es as [|e es IH]; intros n; [reflexivity|].
  destruct e as [fd | reply constructed | e | | ];
    cbn [connections filter]; try apply IH.
  destruct n as [|n].
  - destruct (opensConnection (SubmitReply reply constructed));
      cbn [length]; specialize (IH 0); lia.
  - destruct (opensConnection (SubmitReply reply constructed));
      cbn [length]; specialize (IH n); lia.
Qed.

(** X9. The page constructs one socket per reply that brings a job and
    gets a socket, and none otherwise: after any sequence of events the
    number of sockets has grown by the number of such replies to pending
    submissions, so it has grown by no more than the number of such replies,
    and sockets and pending submissions together have grown by no more than
    the number of submissions. [close()] is called by a reset and by the
    unmount cleanup only: a sequence of events without either leaves every
    socket unclosed; and each of the two calls [close()] on the socket
    constructed last only, so an earlier socket that was not closed then
    stays unclosed. *)
Theorem sockets_follow_submissions (es : list PageEvent) (s : Session) :
  let s' := play es s in
  length (sockets (world s'))
  = length (sockets (world s)) + connections (inflight s) es
  /\ length (sockets (world s'))
     <= length (sockets (world s)) + length (filter opensConnection es)
  /\ length (sockets (world s')) + inflight s'
     <= length (sockets (world s)) + inflight s
        + length (filter isSubmission es)
  /\ (forallb (fun e => negb (closes e)) es = true -> closed s' = closed s)
  /\ (forall e, closes e = true ->
        sockets (world (on s e)) = sockets (world s)
        /\ closed (on s e)
           = match sockets (world s) with
             | [] => closed s
             | _ :: older => length older :: closed s
             end).
Proof.
  cbn zeta.
  assert (G : forall s,
    length (sockets (world (play es s)))
    = length (sockets (world s)) + connections (inflight s) es
    /\ length (sockets (world (play es s))) + inflight (play es s)
       <= length (sockets (world s)) + inflight s
          + length (filter isSubmission es)
    /\ (forallb (fun e => negb (closes e)) es = true ->
        closed (play es s) = closed s)).
  { clear s. induction es as [|e es IH]; intros s.
    - cbn. repeat split; lia.
    - cbn [BatchSession.play fold_left filter forallb].
      fold (play es (on s e)).
      destruct (IH (on s e)) as [L [B C]].
      destruct (on_sockets_closed s e) as [B1 [L1 C1]].
      pose proof (on_inflight s e) as I.
      split; [|split].
      + rewrite L, L1, (connections_step (inflight s) e es), I. lia.
      + destruct (isSubmission e); cbn [length]; lia.
      + intros H. apply andb_true_iff in H. destruct H as [He Hes].
        rewrite (C Hes). apply C1. now apply negb_true_iff. }
  destruct (G s) as [L [B C]].
  split; [exact L | split; [|split; [exact B | split; [exact C|]]]].
  - rewrite L. pose proof (connections_bound (inflight s) es). lia.
  - intros e H. destruct e; try discriminate H;
      destruct s as [[p [|u sk]] cl n]; split; reflexivity.
Qed.


(** X11. What the form submits is what the status panel lists: when the
    form's [handleSubmit] calls [onSubmit] with a payload and the page
    handles it, the page's company list is the names of the form's rows
    with a non-blank name, in order; it is not empty and holds no blank
    name, so the status panel renders the list. The list is stored before
    the request is made, and the reply does not touch it. *)
Theorem submitted_names_reach_status_panel
    (st : FormState) (fd : QuantumBatchFormData) (s : Session)
    (reply : StartReply) (constructed : bool) :
  In (OnSubmit fd) (BatchForm.handleSubmit st) ->
  let p := page (world (play [SubmitStart fd; SubmitReply reply constructed]
                             s)) in
  companies p = map name (namedCompanies (BatchForm.companies st))
  /\ companies p <> []
  /\ Forall (fun n => blank n = false) (companies p)
  /\ (forall status message,
        BatchStatus.companyList
          (BatchStatus.QuantumBatchStatus status message (companies p)
             (Some (currentPhase p)) (progress p))
        = Some (companies p))
  /\ companies (page (world (on s (SubmitStart fd)))) = companies p.
Proof.
  intros H p.
  assert (C : companies p = map name (fd_companies fd)
              /\ companies (page (world (on s (SubmitStart fd))))
                 = companies p).
  { subst p. cbn [BatchSession.play fold_left].
    destruct (submitReply_keeps (on s (SubmitStart fd)) reply constructed)
      as [_ [_ [_ K]]].
    rewrite K, submitStart_state. split; reflexivity. }
  destruct C as [C C0].
  assert (E : fd_companies fd = namedCompanies (BatchForm.companies st)
              /\ fd_companies fd <> []).
  { unfold BatchForm.handleSubmit in H. rewrite validCompanies_named in H.
    destruct (namedCompanies (BatchForm.companies st)) as [|c l];
      cbn in H.
    - destruct H as [H | [H | []]]; discriminate H.
    - destruct H as [H | [H | []]]; [discriminate H|].
      inversion H. cbn. split; [reflexivity | discriminate]. }
  destruct E as [E N].
  rewrite C0, C, E.
  assert (M : map name (namedCompanies (BatchForm.companies st)) <> []).
  { rewrite <- E. destruct (fd_companies fd); [now contradiction N|].
    discriminate. }
  split; [reflexivity | split; [exact M | split; [|split]]].
  - apply Forall_forall. intros n Hn. apply in_map_iff in Hn.
    destruct Hn as [c [<- Hc]]. apply filter_In in Hc.
    now apply negb_true_iff.
  - intros status message.
    unfold BatchStatus.QuantumBatchStatus. cbn [BatchStatus.companyList].
    destruct (map name (namedCompanies (BatchForm.companies st)));
      [now contradiction M | reflexivity].
  - reflexivity.
Qed.

End Urls.

Lemma handleSubmit_opens_one_socket_witness :
  let fd := mkFormData [mkCompany (lit "Acme") [] [] []] true (Int 8) (Int 3)
                       (Int 1000) in
  let ok := StartReplied true 200
              (inr (mkStart (Some (lit "job-1")) None)) in
  exists j,
    sockets (world (BatchSession.play (lit "http://api") (lit "ws://api")
                      [SubmitStart fd; SubmitReply ok true] initialSession))
    = [lit "ws://api" ++ lit "/research/ws/" ++ j].
Proof.
  intros fd ok.
  destruct (proj1 (proj1 (handleSubmit_opens_one_socket (lit "http://api")
                     (lit "ws://api") initialSession fd ok true)) eq_refl)
    as [data [j [_ [_ E]]]].
  exists j. exact E.
Defined.

Lemma sockets_follow_submissions_witness :
  let fd := mkFormData [mkCompany (lit "Acme") [] [] []] true (Int 8) (Int 3)
                       (Int 1000) in
  let ok := StartReplied true 200
              (inr (mkStart (Some (lit "job-1")) None)) in
  let es := [SubmitStart fd; SubmitReply ok true; Socket Close;
             SubmitStart fd; SubmitReply ok true] in
  closed (BatchSession.play (lit "http://api") (lit "ws://api") es
            initialSession) = []
  /\ closed (BatchSession.on (lit "http://api") (lit "ws://api")
               (BatchSession.play (lit "http://api") (lit "ws://api") es
                  initialSession) Unmount) = [1].
Proof.
  intros fd ok es. split.
  - apply (proj1 (proj2 (proj2 (proj2
             (sockets_follow_submissions (lit "http://api")
                (lit "ws://api") es initialSession))))).
    reflexivity.
  - apply (proj2 (proj2 (proj2 (proj2
             (sockets_follow_submissions (lit "http://api")
                (lit "ws://api") []
                (BatchSession.play (lit "http://api") (lit "ws://api") es
                   initialSession))))) Unmount eq_refl).
Defined.


Lemma submitted_names_reach_status_panel_witness :
  let st := loadExampleCompanies initialState in
  let fd := mkFormData (BatchForm.companies st) true (Int 8) (Int 3)
                       (Int 1000) in
  length (companies (page (world
            (BatchSession.play (lit "http://api") (lit "ws://api")
               [SubmitStart fd; SubmitReply (StartRejected ThrownOther) true]
               initialSession)))) = 4.
Proof.
  intros st fd.
  destruct (@submitted_names_reach_status_panel (lit "http://api")
              (lit "ws://api") st fd initialSession
              (StartRejected ThrownOther) true) as [E _].
  - right. left. reflexivity.
  - rewrite E. reflexivity.
Defined.

End BatchSessionSpec.

(** ** The batch status panel *)

Module BatchStatusSpec.
Import JsStr JsArray BatchStatus JsStrFacts.

(** Decide whether [x] is the literal [s]; when it is, [x] is replaced by
    it. *)
Ltac case_lit x s :=
  let E := fresh "E" in
  destruct (eqb s x) eqn:E;
  [ apply eqb_eq in E; subst x | ].

Lemma eqb_sym (a b : JsString) : eqb a b = eqb b a.
Proof.
  destruct (eqb a b) eqn:E.
  - apply eqb_eq in E. subst. symmetry. apply eqb_refl.
  - symmetry. apply eqb_neq. apply eqb_neq in E. congruence.
Qed.

Ltac case_phase p :=
  case_lit p (lit "data_collection");
  [| case_lit p (lit "quantum_encoding");
     [| case_lit p (lit "quantum_processing");
        [| case_lit p (lit "report_generation");
           [| case_lit p (lit "knowledge_base") ]]]].

Lemma not_in_phases (p : JsString) :
  ~ In p phases ->
  eqb (lit "data_collection") p = false
  /\ eqb (lit "quantum_encoding") p = false
  /\ eqb (lit "quantum_processing") p = false
  /\ eqb (lit "report_generation") p = false
  /\ eqb (lit "knowledge_base") p = false.
Proof.
  intros N. repeat split; apply eqb_neq; intros E; apply N; rewrite <- E;
    simpl; tauto.
Qed.

(** X12. The rows of the phase list. The list has the five phases in their
    fixed order; a row is highlighted as active exactly when it is the
    current one; the rows before the current one are completed and no
    other; when the phase on display is none of the five, no row is current
    or completed. *)
Theorem phase_rows_follow_current_phase (currentPhase : option JsString) :
  let k := getCurrentPhaseIndex currentPhase in
  map row_phase (phaseRows currentPhase) = phases
  /\ (forall i r, nth_error (phaseRows currentPhase) i = Some r ->
        isActive r = isCurrent r
        /\ isCurrent r = (Z.of_nat i =? k)%Z
        /\ isCompleted r = (Z.of_nat i <? k)%Z)
  /\ (In (phaseOrEmpty currentPhase) phases ->
        (0 <= k < 5)%Z
        /\ nth_error phases (Z.to_nat k) = Some (phaseOrEmpty currentPhase))
  /\ (~ In (phaseOrEmpty currentPhase) phases -> k = (-1)%Z).
Proof.
  cbn zeta. split; [reflexivity|].
  assert (A : forall i r, nth_error (phaseRows currentPhase) i = Some r ->
                isActive r = isCurrent r
                /\ isCurrent r
                   = (Z.of_nat i =? getCurrentPhaseIndex currentPhase)%Z
                /\ isCompleted r
                   = (Z.of_nat i <? getCurrentPhaseIndex currentPhase)%Z).
  { intros i r H.
    assert (B : isCurrent r
                = (Z.of_nat i =? getCurrentPhaseIndex currentPhase)%Z
                /\ isCompleted r
                   = (Z.of_nat i <? getCurrentPhaseIndex currentPhase)%Z
                /\ isActive r
                   = match currentPhase with
                     | Some p => eqb (row_phase r) p
                     | None => false
                     end
                /\ nth_error phases i = Some (row_phase r)).
    { do 5 (destruct i as [|i];
            [inversion H; subst r; repeat split|]).
      destruct i; discriminate H. }
    destruct B as [B1 [B2 [B3 B4]]].
    split; [|split; [exact B1 | exact B2]].
    rewrite B3, B1. clear B1 B2 B3 H.
    destruct currentPhase as [[|c p]|].
    - do 5 (destruct i as [|i]; [inversion B4; reflexivity|]).
      destruct i; discriminate B4.
    - unfold getCurrentPhaseIndex, phaseOrEmpty, or_else. cbn [truthy].
      set (q := c :: p) in *. clearbody q.
      unfold indexOf, phases. cbn [indexOfFrom].
      case_phase q;
        try (do 5 (destruct i as [|i]; [inversion B4; reflexivity|]);
             destruct i; discriminate B4).
      do 5 (destruct i as [|i];
            [cbn [nth_error phases] in B4; injection B4 as B4;
             rewrite <- B4;
             first [rewrite E | rewrite E0 | rewrite E1 | rewrite E2
                   | rewrite E3]; reflexivity |]).
      destruct i; discriminate B4.
    - do 5 (destruct i as [|i]; [inversion B4; reflexivity|]).
      destruct i; discriminate B4. }
  split; [exact A|]. split.
  - intros H. simpl in H.
    unfold getCurrentPhaseIndex.
    destruct H as [H | [H | [H | [H | [H | []]]]]]; rewrite <- H;
      split; try reflexivity; cbn; lia.
  - intros N. apply not_in_phases in N.
    destruct N as [N1 [N2 [N3 [N4 N5]]]].
    unfold getCurrentPhaseIndex, indexOf, phases. cbn [indexOfFrom].
    now rewrite N1, N2, N3, N4, N5.
Qed.

Lemma phase_rows_follow_current_phase_witness :
  nth_error phases
    (Z.to_nat (getCurrentPhaseIndex (Some (lit "quantum_processing"))))
  = Some (lit "quantum_processing")
  /\ getCurrentPhaseIndex (Some (lit "warming up")) = (-1)%Z.
Proof.
  split.
  - apply (proj1 (proj2 (proj2 (phase_rows_follow_current_phase
                                  (Some (lit "quantum_processing")))))).
    simpl. tauto.
  - apply (proj2 (proj2 (proj2 (phase_rows_follow_current_phase
                                  (Some (lit "warming up")))))).
    simpl. intros [H | [H | [H | [H | [H | []]]]]]; discriminate H.
Defined.

Ltac case_status x :=
  case_lit x (lit "processing");
  [| case_lit x (lit "completed");
     [| case_lit x (lit "failed");
        [| case_lit x (lit "error") ]]].

(** X13. The icon, the colour and the blocks of the status panel always
    tell the same story. For status [processing]: spinner, blue, progress
    bar and animation; for [completed]: check mark, green, the completion
    banner; for [failed] and [error]: cross, red, the failure banner with
    a non-empty text (the message, or the fixed text when the message is
    empty); for anything else: clock, yellow, and none of these blocks. The
    phase list is only rendered together with the progress bar. *)
Theorem status_panel_is_consistent (status message : JsString)
    (companies : list JsString) (currentPhase : option JsString)
    (progress : Z) :
  let v := QuantumBatchStatus status message companies currentPhase
                              progress in
  (status = lit "processing"
   /\ icon v = Loader2 /\ color v = TextBlue
   /\ progressBar v = Some progress /\ animation v = true
   /\ completedBanner v = false /\ failureBanner v = None)
  \/ (status = lit "completed"
      /\ icon v = CheckCircle /\ color v = TextGreen
      /\ completedBanner v = true
      /\ progressBar v = None /\ rows v = None /\ animation v = false
      /\ failureBanner v = None)
  \/ ((status = lit "failed" \/ status = lit "error")
      /\ icon v = XCircle /\ color v = TextRed
      /\ (exists text, failureBanner v = Some text /\ truthy text = true
                       /\ (truthy message = true -> text = message))
      /\ progressBar v = None /\ rows v = None /\ animation v = false
      /\ completedBanner v = false)
  \/ (status <> lit "processing" /\ status <> lit "completed"
      /\ status <> lit "failed" /\ status <> lit "error"
      /\ icon v = Clock /\ color v = TextYellow
      /\ progressBar v = None /\ rows v = None /\ animation v = false
      /\ completedBanner v = false /\ failureBanner v = None).
Proof.
  cbn zeta.
  unfold QuantumBatchStatus, getStatusIcon, getStatusColor, isLit.
  cbn [icon color progressBar rows completedBanner failureBanner animation].
  rewrite !(eqb_sym status).
  case_status status.
  - left. repeat split.
  - right. left. repeat split.
  - right. right. left. cbn. repeat split; auto.
    destruct message as [|c m]; eexists; repeat split; discriminate.
  - right. right. left. cbn. repeat split; auto.
    destruct message as [|c m]; eexists; repeat split; discriminate.
  - right. right. right.
    apply eqb_neq in E, E0, E1, E2.
    repeat split; try reflexivity;
      intros H; symmetry in H; contradiction.
Qed.

(** X14. The label and the icon of a phase fall back to their defaults
    exactly for the names that are not in the panel's list of phases: each
    of the five listed phases has a label of its own and an icon other than
    the clock, and every other name gets the default label and the
    clock. *)
Theorem phase_label_and_icon_cover_phases (phase : JsString) :
  (In phase phases ->
     getPhaseLabel phase <> defaultPhaseLabel /\ getPhaseIcon phase <> Clock)
  /\ (~ In phase phases ->
      getPhaseLabel phase = defaultPhaseLabel /\ getPhaseIcon phase = Clock).
Proof.
  split.
  - intros H. simpl in H.
    destruct H as [H | [H | [H | [H | [H | []]]]]]; rewrite <- H;
      split; discriminate.
  - intros N. apply not_in_phases in N.
    destruct N as [N1 [N2 [N3 [N4 N5]]]].
    unfold getPhaseLabel, getPhaseIcon, isLit.
    rewrite !(eqb_sym phase), N1, N2, N3, N4, N5. split; reflexivity.
Qed.

Lemma phase_label_and_icon_cover_phases_witness :
  getPhaseIcon (lit "report_generation") <> Clock
  /\ getPhaseLabel (lit "idle") = defaultPhaseLabel.
Proof.
  split.
  - apply (proj1 (phase_label_and_icon_cover_phases
                    (lit "report_generation"))).
    simpl. tauto.
  - apply (proj2 (phase_label_and_icon_cover_phases (lit "idle"))).
    simpl. intros [H | [H | [H | [H | [H | []]]]]]; discriminate H.
Defined.

Lemma status_panel_is_consistent_witness :
  exists text,
    failureBanner (QuantumBatchStatus (lit "failed") (lit "quota exceeded")
                     [] None 0)
    = Some text
    /\ text = lit "quota exceeded".
Proof.
  destruct (status_panel_is_consistent (lit "failed") (lit "quota exceeded")
              [] None 0)
    as [[E _] | [[E _] | [[_ [_ [_ [[text [F [_ T]]] _]]]] | [_ [_ [E _]]]]]].
  - discriminate E.
  - discriminate E.
  - exists text. split; [exact F | apply T; reflexivity].
  - now contradiction E.
Defined.

End BatchStatusSpec.

(** ** The batch page and its status panel *)

Module BatchProgressSpec.
Import JsStr BatchPage BatchStatus JsStrFacts BatchPageSpec.

(** X15. The progress matches the phase list. After a message whose status
    is not [completed] and whose text contains one of the patterns, the
    phase on display is one of the panel's five phases and the progress is
    20 times the number of rows up to and including the current one. *)
Theorem progress_matches_phase_rows (w : World) (data : WsData)
    (text : JsString) :
  d_message data = Val (JStr text) ->
  field_is (d_status data) "completed" = false ->
  (exists row, In row phaseTable /\ includes (fst row) text = true) ->
  let p' := page (deliver w (Message (Parsed data))) in
  In (currentPhase p') phases
  /\ progress p'
     = (20 * (getCurrentPhaseIndex (Some (currentPhase p')) + 1))%Z.
Proof.
  intros M S [row [Hin Hinc]] p'. subst p'.
  rewrite onmessage_phase, onmessage_progress, S, M.
  cbn [notText tablePhaseOf]. unfold tablePhase.
  destruct (find (fun r => includes (fst r) text) phaseTable) as [r|] eqn:F.
  - apply find_some in F. destruct F as [Hr _].
    simpl in Hr.
    repeat (destruct Hr as [Hr | Hr];
            [subst r; split; [simpl; tauto | reflexivity] | ]).
    contradiction.
  - pose proof (find_none _ _ F row Hin) as N. cbn beta in N. congruence.
Qed.

Lemma progress_matches_phase_rows_witness :
  let data := mkData (Val (JStr (lit "processing")))
                     (Val (JStr (lit "Quantum encoding of 4 companies")))
                     Undefined in
  progress (page (deliver (mkWorld initialPage []) (Message (Parsed data))))
  = (20 * (getCurrentPhaseIndex (Some (lit "quantum_encoding")) + 1))%Z.
Proof.
  intros data.
  destruct (@progress_matches_phase_rows (mkWorld initialPage []) data
              (lit "Quantum encoding of 4 companies") eq_refl eq_refl)
    as [_ E].
  - exists (lit "Quantum encoding", (lit "quantum_encoding", 40%Z)).
    split; [simpl; tauto | reflexivity].
  - exact E.
Defined.

End BatchProgressSpec.

(** ** handlers.ts: the PDF download and the clipboard *)

Module HandlersIOSpec.
Import JsStr Handlers HandlersIO JsStrFacts.

Lemma removeFirst_head (x : JsString) (l : list JsString) :
  removeFirst x (x :: l) = l.
Proof. simpl. now rewrite eqb_refl. Qed.

Lemma runTimers_snoc (ts : list (list Setter * Z)) (body : list Setter)
    (ms : Z) (u : Ui) :
  runTimers (ts ++ [(body, ms)]) u = fold_left set body (runTimers ts u).
Proof.
  revert u; induction ts as [|[b m] ts IH]; intros u; simpl; auto.
Qed.

(** X16. [handleGeneratePdf] does nothing at all without output or while a
    PDF is being generated. Otherwise it posts exactly one request, with the
    report and the company name (or ['research_report']), and whatever the
    reply, it ends with the generating flag off, no link left in the
    document and no object URL left alive. When the reply delivers a blob,
    one download is started, named after the same company name with
    [.pdf], and the error is untouched; in every other case no download is
    started and an error text is set. *)
Theorem handleGeneratePdf_cleans_up
    (API_URL : JsString) (output : option ResearchOutput)
    (originalCompanyName : JsString) (generating : bool) (reply : PdfReply)
    (u : Ui) :
  let es := handleGeneratePdf API_URL output originalCompanyName generating
                              reply in
  let u' := perform es u in
  (output = None \/ generating = true -> es = [])
  /\ (forall o, output = Some o -> generating = false ->
        isGeneratingPdf u' = false
        /\ pdfRequests es = [(details_report o, fileBase originalCompanyName)]
        /\ links u' = links u
        /\ objectUrls u' = objectUrls u
        /\ match pdfDelivered reply with
           | Some url =>
               downloads u'
               = (url, fileBase originalCompanyName ++ lit ".pdf")
                 :: downloads u
               /\ error u' = error u
           | None =>
               downloads u' = downloads u /\ exists msg, error u' = Some msg
           end).
Proof.
  cbn zeta. split.
  - intros [-> | ->]; [reflexivity | now destruct output].
  - intros o -> ->. destruct u as [g c e l o' d cb t].
    destruct reply as [[m|] | [|] [[m|] | url]]; cbn;
      rewrite ?eqb_refl; repeat split; eexists; reflexivity.
Qed.

Lemma handleGeneratePdf_cleans_up_witness :
  let o := mkOutput [] (lit "# Acme Corp") in
  let u := mkUi false false None [] [] [] None [] in
  downloads (perform (handleGeneratePdf (lit "http://api") (Some o) []
                        false (PdfReplied true (inr (lit "blob:1")))) u)
  = [(lit "blob:1", lit "research_report.pdf")]
  /\ handleGeneratePdf (lit "http://api") (Some o) [] true
                       (PdfReplied true (inr (lit "blob:1"))) = [].
Proof.
  intros o u. split.
  - destruct (proj2 (handleGeneratePdf_cleans_up (lit "http://api") (Some o)
                       [] false (PdfReplied true (inr (lit "blob:1"))) u)
                    o eq_refl eq_refl) as [_ [_ [_ [_ [D _]]]]].
    exact D.
  - apply (proj1 (handleGeneratePdf_cleans_up (lit "http://api") (Some o)
                    [] true (PdfReplied true (inr (lit "blob:1"))) u)).
    now right.
Defined.

(** X17. [handleCopyToClipboard] does nothing without a non-empty report.
    With one, a successful write puts exactly the report on the clipboard
    and raises the copied flag, which the timer it registers (2000 ms)
    lowers again once the pending timers have run; a failed write only sets
    the error ['Failed to copy to clipboard'] and leaves flag and clipboard
    alone. *)
Theorem handleCopyToClipboard_flashes (output : option ResearchOutput)
    (written : bool) (u : Ui) :
  let u' := perform (handleCopyToClipboard output written) u in
  ((forall o, output = Some o -> details_report o = []) ->
     handleCopyToClipboard output written = [])
  /\ (forall o, output = Some o -> details_report o <> [] ->
        if written then
          clipboard u' = Some (details_report o)
          /\ isCopied u' = true
          /\ timers u' = timers u ++ [([SetIsCopied false], 2000%Z)]
          /\ isCopied (settle u') = false
          /\ error u' = error u
        else
          error u' = Some (lit "Failed to copy to clipboard")
          /\ clipboard u' = clipboard u
          /\ isCopied u' = isCopied u
          /\ timers u' = timers u).
Proof.
  cbn zeta. split.
  - intros H. destruct output as [o|]; [|reflexivity].
    unfold handleCopyToClipboard. now rewrite (H o eq_refl).
  - intros o -> N. unfold handleCopyToClipboard.
    destruct (details_report o) as [|c r] eqn:R; [now contradiction N|].
    cbn [truthy]. destruct written; cbn; repeat split.
    unfold settle. cbn [timers isCopied]. rewrite runTimers_snoc. cbn.
    reflexivity.
Qed.

Lemma handleCopyToClipboard_flashes_witness :
  let o := mkOutput [] (lit "# Acme Corp") in
  let u := mkUi false false None [] [] [] None [] in
  clipboard (perform (handleCopyToClipboard (Some o) true) u)
  = Some (lit "# Acme Corp")
  /\ handleCopyToClipboard (Some (mkOutput [] [])) true = [].
Proof.
  intros o u. split.
  - pose proof (proj2 (handleCopyToClipboard_flashes (Some o) true u)
                      o eq_refl) as H.
    cbv zeta in H. destruct H as [C _]; [discriminate | exact C].
  - apply (proj1 (handleCopyToClipboard_flashes (Some (mkOutput [] []))
                    true u)).
    intros o' E. now inversion E.
Defined.

(** X18. The buttons of the report and the guards of their handlers agree:
    whenever [ResearchReport] renders the buttons, a click on the copy
    button reaches the clipboard, and a click on the PDF button posts a
    request unless the button is disabled; a disabled PDF button and a
    refused call go together. *)
Theorem report_buttons_agree_with_handlers
    (API_URL : JsString) (output : option ResearchOutput)
    (name : JsString) (generating : bool) (reply : PdfReply) (v : ReportView) :
  ResearchReport output generating = Some v ->
  buttonsShown v = true ->
  handleCopyToClipboard output true <> []
  /\ (pdfDisabled v = false ->
      length (pdfRequests
                (handleGeneratePdf API_URL output name generating reply)) = 1)
  /\ (pdfDisabled v = true ->
      handleGeneratePdf API_URL output name generating reply = []).
Proof.
  unfold ResearchReport. destruct output as [o|]; [|discriminate].
  intros E B. inversion E; subst v; clear E. cbn in *.
  split; [|split].
  - rewrite B. discriminate.
  - intros ->. destruct reply as [[m|] | [|] [[m|] | url]]; reflexivity.
  - intros ->. reflexivity.
Qed.

Lemma report_buttons_agree_with_handlers_witness :
  handleCopyToClipboard (Some (mkOutput [] (lit "# Acme Corp"))) true <> [].
Proof.
  apply (@report_buttons_agree_with_handlers [] 
           (Some (mkOutput [] (lit "# Acme Corp"))) [] false
           (PdfRejected ThrownOther) _ eq_refl eq_refl).
Defined.

End HandlersIOSpec.

(** ** The queries panel: every row at most once *)

Module QueriesViewSpec.
Import JsStr JsArray Queries QueriesView JsStrFacts JsArrayFacts QueriesSpec.

(** At most one of the four names is a prefix of a given string. *)
Lemma one_card_at_most (s : JsString) :
  length (filter (fun cat => startsWith cat s) categories)
  = if hasCard s then 1 else 0.
Proof.
  unfold hasCard. destruct s as [|y s]; [reflexivity|].
  unfold categories. cbn [filter existsb].
  destruct (startsWith (lit "company") (y :: s)) eqn:E1;
    [apply startsWith_spec in E1; destruct E1 as [t E1]; inversion E1;
     reflexivity|].
  destruct (startsWith (lit "industry") (y :: s)) eqn:E2;
    [apply startsWith_spec in E2; destruct E2 as [t E2]; inversion E2;
     reflexivity|].
  destruct (startsWith (lit "financial") (y :: s)) eqn:E3;
    [apply startsWith_spec in E3; destruct E3 as [t E3]; inversion E3;
     reflexivity|].
  destruct (startsWith (lit "news") (y :: s)); reflexivity.
Qed.

(** Summing the sizes of the four filtered lists counts each element once
    per name that is a prefix of its key. *)
Lemma filtered_by_category {A} (key : A -> JsString) (l : list A) :
  list_sum (map (fun cat => length (filter (fun x => startsWith cat (key x)) l))
                categories)
  = length (filter (fun x => hasCard (key x)) l).
Proof.
  assert (S : forall f : JsString -> nat,
             list_sum (map f categories)
             = f (lit "company") + f (lit "industry") + f (lit "financial")
               + f (lit "news"))
    by (intros f; unfold categories; simpl; lia).
  rewrite S. induction l as [|x l IH]; [reflexivity|].
  pose proof (one_card_at_most (key x)) as O.
  unfold hasCard, categories in O. cbn [filter existsb] in O.
  cbn [filter]. unfold hasCard at 1. unfold categories. cbn [existsb].
  destruct (startsWith (lit "company") (key x)),
           (startsWith (lit "industry") (key x)),
           (startsWith (lit "financial") (key x)),
           (startsWith (lit "news") (key x));
    cbn [length orb] in *; try discriminate O; lia.
Qed.

Lemma filter_kind_app (cat : JsString) (qs : list Query)
    (sq : list (JsString * Query)) :
  length (filter isCompleted (streamingItems cat sq ++ completedItems cat qs))
  = length (filter (fun q => startsWith cat (category q)) qs)
  /\ length (filter isStreaming
               (streamingItems cat sq ++ completedItems cat qs))
     = length (filter (fun e => startsWith cat (fst e)) sq).
Proof.
  rewrite !filter_app, !length_app.
  pose proof (streamingItems_streaming cat sq) as S.
  destruct (completedItems_queries cat qs) as [C M].
  assert (F1 : forall l, forallb isStreaming l = true ->
                 filter isCompleted l = [] /\ filter isStreaming l = l).
  { induction l as [|i l IH]; [now split|]. simpl. intros H.
    apply andb_true_iff in H. destruct H as [Hi Hl].
    destruct (IH Hl) as [A B]. unfold isCompleted at 1.
    rewrite Hi. simpl. rewrite A, B. now split. }
  assert (F2 : forall l, forallb isCompleted l = true ->
                 filter isStreaming l = [] /\ filter isCompleted l = l).
  { induction l as [|i l IH]; [now split|]. simpl. intros H.
    apply andb_true_iff in H. destruct H as [Hi Hl].
    destruct (IH Hl) as [A B]. rewrite Hi.
    unfold isCompleted in Hi. apply negb_true_iff in Hi. rewrite Hi.
    rewrite A, B. now split. }
  destruct (F1 _ S) as [A1 B1]. destruct (F2 _ C) as [A2 B2].
  rewrite A1, B1, A2, B2. simpl.
  split.
  - rewrite <- M at 1. now rewrite length_map.
  - unfold streamingItems. rewrite length_map. lia.
Qed.

(** X19. No query is shown twice, whatever its category string: the cards
    together hold one completed row for each query whose category starts
    with one of the four names, and one streaming row for each streaming
    entry whose key does; queries and entries that start with none of them
    are shown in no card. Hence the collapsed summary, which reports
    [queries.length], counts at least as many queries as the cards show, and
    exactly as many when every category starts with one of the names. *)
Theorem cards_show_each_query_once (queries : list Query)
    (streamingQueries : list (JsString * Query)) (isExpanded : bool) :
  let v := ResearchQueries queries streamingQueries isExpanded in
  completedRows v = length (filter (fun q => hasCard (category q)) queries)
  /\ streamingRows v
     = length (filter (fun e => hasCard (fst e)) streamingQueries)
  /\ completedRows v <= length queries
  /\ (completedRows v = length queries
      <-> forallb (fun q => hasCard (category q)) queries = true).
Proof.
  cbn zeta. unfold completedRows, streamingRows, ResearchQueries.
  cbn [cards]. rewrite !map_map. cbn [items].
  rewrite (map_ext _ (fun cat => length (filter
             (fun q => startsWith cat (category q)) queries)))
    by (intros cat; apply filter_kind_app).
  rewrite (map_ext (fun cat => length (filter isStreaming _))
             (fun cat => length (filter
                (fun e => startsWith cat (fst e)) streamingQueries)))
    by (intros cat; apply filter_kind_app).
  rewrite (filtered_by_category category queries).
  rewrite (filtered_by_category fst streamingQueries).
  split; [reflexivity | split; [reflexivity | split]].
  - apply filter_length_le.
  - induction queries as [|q qs IH]; [simpl; tauto|].
    simpl. pose proof (filter_length_le (fun q => hasCard (category q)) qs).
    destruct (hasCard (category q)); simpl.
    + rewrite <- IH. lia.
    + split; [lia | discriminate].
Qed.

End QueriesViewSpec.

(** ** The Maps script loader: promises and timers *)

Module MapsLoaderTidySpec.
Import JsStr MapsLoader MapsLoaderTidy MapsLoaderSpec.

Lemma settleAt_length (x : nat) (s : PromiseState) (l : list PromiseState) :
  length (settleAt x s l) = length l.
Proof.
  revert x; induction l as [|y l IH]; intros [|x]; simpl; auto.
Qed.

Lemma settleAt_pending (x p : nat) (s : PromiseState) (l : list PromiseState) :
  s <> Pending ->
  nth_error (settleAt x s l) p = Some Pending ->
  nth_error l p = Some Pending /\ p <> x.
Proof.
  intros N. revert x p; induction l as [|y l IH]; intros [|x] [|p]; simpl;
    try discriminate; auto.
  - destruct y; intros H; try discriminate H.
    inversion H. now contradiction N.
  - intros H. destruct (IH x p H). auto.
Qed.

Lemma settleAt_rejected_fulfilled (x p : nat) (l : list PromiseState) :
  nth_error (settleAt x Rejected l) p = Some Fulfilled ->
  nth_error l p = Some Fulfilled.
Proof.
  revert x p; induction l as [|y l IH]; intros [|x] [|p]; simpl; auto.
  - destruct y; intros H; try discriminate H; auto.
  - apply IH.
Qed.

Lemma nth_error_snoc_inv {A} (l : list A) (x y : A) (p : nat) :
  nth_error (l ++ [x]) p = Some y ->
  nth_error l p = Some y \/ (p = length l /\ x = y).
Proof.
  intros H. destruct (Nat.lt_ge_cases p (length l)) as [L | L].
  - rewrite nth_error_app1 in H by exact L. now left.
  - rewrite nth_error_app2 in H by exact L.
    destruct (p - length l) as [|k] eqn:K; simpl in H.
    + inversion H. right. split; [lia | reflexivity].
    + destruct k; discriminate H.
Qed.

Lemma settleAt_snoc (l : list PromiseState) (s : PromiseState) :
  settleAt (length l) s (l ++ [Pending]) = l ++ [s].
Proof. induction l as [|y l IH]; simpl; [reflexivity | now rewrite IH]. Qed.


Ltac heap_facts :=
  repeat match goal with
         | H : nth_error (_ ++ [_]) _ = Some _ |- _ =>
             apply nth_error_snoc_inv in H;
             destruct H as [H | [? H]]; [| try discriminate H]
         | H : nth_error (settleAt _ _ _) _ = Some Pending |- _ =>
             apply settleAt_pending in H; [| discriminate];
             destruct H as [H ?]
         | H : nth_error (settleAt _ Rejected _) _ = Some Fulfilled |- _ =>
             apply settleAt_rejected_fulfilled in H
         end.

Ltac use_facts :=
  repeat match goal with
         | P : forall p, nth_error ?ps p = Some Pending -> _,
           H : nth_error ?ps _ = Some Pending |- _ =>
             destruct (P _ H) as [? ?]; clear H
         | TI : forall t p, In (t, p) ?iv -> _, H : In (_, _) ?iv |- _ =>
             destruct (TI _ _ H) as [? [? ?]]; clear TI
         | S : forall x, ?sc = Loading x -> _, H : ?sc = Loading _ |- _ =>
             destruct (S _ H) as [? [? [? ?]]]; clear S
         | F : forall p, nth_error ?ps p = Some Fulfilled -> _,
           H : nth_error ?ps _ = Some Fulfilled |- _ =>
             pose proof (F _ H); clear H
         end.

Ltac tidy_goals :=
  repeat match goal with
         | |- _ /\ _ => split
         | |- forall _, _ => intro
         end;
  heap_facts; use_facts;
  repeat match goal with
         | H : _ \/ False |- _ => destruct H as [H | []]
         | H : (_, _) = (_, _) |- _ => inversion H; clear H
         | H : False |- _ => destruct H
         end;
  subst;
  try discriminate; try congruence; try reflexivity; try assumption;
  try (simpl in *; lia); try contradiction; auto.

Lemma call_tidy (w : World) : tidy w -> tidy (fst (loadGoogleMapsScript w)).
Proof.
  intros T. destruct T as [I [P [F [[TL TI] [S TO]]]]].
  split; [now apply loadGoogleMapsScript_invariant|].
  destruct I as [A [B C]].
  destruct w as [ld lg sp ps cb sc pg pl iv tv nt ap key].
  unfold onlyCurrentPending, fulfilledMeansReady, timersTidy, scriptTidy,
    promiseState in *.
  unfold loadGoogleMapsScript, executor, existingScript, alloc, resolve, reject.
  cbn in *.
  destruct ld.
  - rewrite (A eq_refl). cbn. tidy_goals.
  - cbn. destruct lg.
    + destruct (B eq_refl) as [_ [p [-> _]]]. cbn. tidy_goals.
    + clear B. 
      assert (IV : iv = []).
      { destruct iv as [|[t p] iv]; [reflexivity|].
        destruct (TI t p (or_introl eq_refl)) as [X _]. discriminate X. }
      subst iv. pose proof (TO eq_refl) as TV. subst tv. clear TO TI.
      destruct sp, pg, pl, sc, key; cbn; rewrite ?settleAt_snoc; tidy_goals.
Qed.

Lemma timerOf_In (t p : nat) (l : list (nat * nat)) :
  timerOf t l = Some p -> In (t, p) l.
Proof.
  unfold timerOf. destruct (find _ l) as [[t' p']|] eqn:F; [|discriminate].
  intros E. inversion E; subst. apply find_some in F.
  destruct F as [Hin Ht]. apply Nat.eqb_eq in Ht. simpl in Ht. now subst.
Qed.

Lemma single_timer (t p : nat) (l : list (nat * nat)) :
  length l <= 1 -> In (t, p) l -> l = [(t, p)] /\ dropTimer t l = [].
Proof.
  destruct l as [|e [|e' l]]; simpl; intros L H.
  - contradiction.
  - destruct H as [-> | []]. simpl. now rewrite Nat.eqb_refl.
  - lia.
Qed.

Lemma fire_tidy (w : World) (e : Event) : tidy w -> tidy (fire w e).
Proof.
  destruct e as [| | | |t|t]; cbn [fire].
  - apply call_tidy.
  - intros T. split; [apply (@fire_invariant w ScriptLoad), T|].
    destruct T as [[A [B C]] [P [F [[TL TI] [S TO]]]]].
    destruct w as [ld lg sp ps cb sc pg pl iv tv nt ap key].
    unfold onlyCurrentPending, fulfilledMeansReady, timersTidy, scriptTidy,
      promiseState, callbackBody, resolve in *.
    cbn in *.
    destruct sc as [|x| |];
      [| destruct (S x eq_refl) as [-> [-> [-> ->]]] | |];
      cbn; tidy_goals.
  - intros T. split; [apply (@fire_invariant w ScriptError), T|].
    destruct T as [[A [B C]] [P [F [[TL TI] [S TO]]]]].
    destruct w as [ld lg sp ps cb sc pg pl iv tv nt ap key].
    unfold onlyCurrentPending, fulfilledMeansReady, timersTidy, scriptTidy,
      promiseState, onerrorBody, reject in *.
    cbn in *.
    destruct sc as [|x| |];
      [| destruct (S x eq_refl) as [-> [-> [-> ->]]] | |];
      cbn; tidy_goals.
  - intros T. split; [apply (@fire_invariant w PlacesReady), T|].
    destruct T as [[A [B C]] [P [F [[TL TI] [S TO]]]]].
    destruct w as [ld lg sp ps cb sc pg pl iv tv nt ap key].
    unfold onlyCurrentPending, fulfilledMeansReady, timersTidy, scriptTidy,
      promiseState in *.
    cbn in *. tidy_goals.
  - intros T. pose proof (@fire_invariant w (Tick t) (proj1 T)) as I'.
    cbn [fire] in I'.
    destruct (timerOf t (intervals w)) as [p|] eqn:E; [|exact T].
    split; [exact I'|]. clear I'.
    apply timerOf_In in E.
    destruct T as [[A [B C]] [P [F [[TL TI] [S TO]]]]].
    destruct (single_timer t p _ TL E) as [IV DT].
    destruct w as [ld lg sp ps cb sc pg pl iv tv nt ap key].
    unfold onlyCurrentPending, fulfilledMeansReady, timersTidy, scriptTidy,
      promiseState, tickBody, clearInterval, resolve in *.
    cbn in *. subst iv.
    destruct (TI t p (or_introl eq_refl)) as [-> [-> _]].
    destruct pl; cbn; [rewrite Nat.eqb_refl; cbn|]; tidy_goals.
  - intros T. pose proof (@fire_invariant w (Timeout t) (proj1 T)) as I'.
    cbn [fire] in I'.
    destruct (timerOf t (timeouts w)) as [p|] eqn:E; [|exact T].
    split; [exact I'|]. clear I'.
    apply timerOf_In in E.
    destruct T as [[A [B C]] [P [F [[TL TI] [S TO]]]]].
    destruct w as [ld lg sp ps cb sc pg pl iv tv nt ap key].
    unfold onlyCurrentPending, fulfilledMeansReady, timersTidy, scriptTidy,
      promiseState, timeoutBody, clearInterval, reject in *.
    cbn in *.
    destruct ld; cbn.
    + assert (IV : iv = []).
      { destruct iv as [|[t' p'] iv]; [reflexivity|].
        destruct (TI t' p' (or_introl eq_refl)) as [X _].
        destruct (B X) as [Y _]. discriminate Y. }
      subst iv. cbn. tidy_goals.
    + pose proof (TO eq_refl) as TV. subst tv.
      destruct (single_timer t p _ TL E) as [IV DT]. subst iv.
      destruct (TI t p (or_introl eq_refl)) as [-> [-> _]].
      cbn. rewrite Nat.eqb_refl. cbn. tidy_goals.
Qed.

Lemma initial_tidy (pl pg : bool) (key : option JsString) :
  tidy (initial pl pg key).
Proof.
  split; [apply initial_invariant|].
  unfold onlyCurrentPending, fulfilledMeansReady, timersTidy, scriptTidy,
    promiseState.
  cbn.
  assert (E : forall (p : nat) (s : PromiseState),
            nth_error (@nil PromiseState) p = Some s -> False)
    by (intros [|p] s X; discriminate X).
  split; [intros p X; now apply E in X|].
  split; [intros p X; now apply E in X|].
  split; [split; [lia | intros t p []]|].
  split; [intros x X; discriminate X | reflexivity].
Qed.

Lemma run_tidy (es : list Event) (w : World) : tidy w -> tidy (run es w).
Proof.
  revert w; induction es as [|e es IH]; intros w T; [exact T|].
  apply IH, fire_tidy, T.
Qed.

Lemma pending_unique (l : list PromiseState) :
  (forall p q, nth_error l p = Some Pending -> nth_error l q = Some Pending ->
               p = q) ->
  length (filter (fun s => match s with Pending => true | _ => false end) l)
  <= 1.
Proof.
  induction l as [|x l IH]; intros U; [simpl; lia|].
  assert (U' : forall p q, nth_error l p = Some Pending ->
                 nth_error l q = Some Pending -> p = q).
  { intros p q Hp Hq. specialize (U (S p) (S q) Hp Hq). lia. }
  specialize (IH U'). simpl.
  destruct x; simpl; try exact IH.
  assert (N : filter (fun s => match s with Pending => true | _ => false end)
                     l = []).
  { destruct (filter _ l) as [|y f] eqn:F; [reflexivity|].
    assert (Hy : In y (filter (fun s => match s with
                                        | Pending => true | _ => false end) l))
      by (rewrite F; now left).
    apply filter_In in Hy. destruct Hy as [Hin Hp].
    destruct y; try discriminate Hp.
    apply In_nth_error in Hin. destruct Hin as [n Hn].
    specialize (U 0 (S n) eq_refl Hn). discriminate U. }
  rewrite N. simpl. lia.
Qed.

Lemma no_pending (l : list PromiseState) :
  (forall p, nth_error l p <> Some Pending) ->
  filter (fun s => match s with Pending => true | _ => false end) l = [].
Proof.
  induction l as [|x l IH]; intros U; [reflexivity|]. simpl.
  destruct x; try (apply IH; intros p; apply (U (S p))).
  now contradiction (U 0).
Qed.

(** X20. One promise in flight. In every state the loader reaches, a
    pending promise is the one held in [scriptLoadPromise] while a load is
    in progress; so at most one of the promises it has handed out is
    pending, and once no load is in progress every one of them is
    settled. *)
Theorem loader_has_one_pending_promise
    (pl pg : bool) (key : option JsString) (es : list Event) :
  let w := run es (initial pl pg key) in
  (forall p, promiseState w p = Some Pending ->
     isScriptLoading w = true /\ scriptLoadPromise w = Some p)
  /\ pendingCount w <= 1
  /\ (isScriptLoading w = false -> pendingCount w = 0).
Proof.
  intros w.
  assert (T : tidy w) by apply run_tidy, initial_tidy.
  destruct T as [_ [P _]].
  split; [exact P | split].
  - apply pending_unique. intros p q Hp Hq.
    destruct (P p Hp) as [_ E1]. destruct (P q Hq) as [_ E2]. congruence.
  - intros L. unfold pendingCount. rewrite no_pending; [reflexivity|].
    intros p Hp. destruct (P p Hp) as [E _]. congruence.
Qed.

Lemma loader_has_one_pending_promise_witness :
  pendingCount (run [Call; ScriptError; Call; Timeout 0; Call]
                    (initial false false (Some (lit "k")))) <= 1
  /\ pendingCount (run [Call; ScriptError]
                       (initial false false (Some (lit "k")))) = 0.
Proof.
  split.
  - apply (loader_has_one_pending_promise false false (Some (lit "k"))
             [Call; ScriptError; Call; Timeout 0; Call]).
  - apply (loader_has_one_pending_promise false false (Some (lit "k"))
             [Call; ScriptError]).
    reflexivity.
Defined.

Lemma settleAt_fulfilled (x p : nat) (l : list PromiseState) :
  nth_error (settleAt x Fulfilled l) p = Some Fulfilled ->
  nth_error l p = Some Fulfilled \/ (p = x /\ nth_error l p = Some Pending).
Proof.
  revert x p; induction l as [|y l IH]; intros [|x] [|p]; simpl; auto.
  - destruct y; intros H; try discriminate H; auto.
  - intros H. destruct (IH x p H) as [E | [-> E]]; auto.
Qed.

Lemma settleAt_fulfils (x : nat) (l : list PromiseState) :
  nth_error l x = Some Pending ->
  nth_error (settleAt x Fulfilled l) x = Some Fulfilled.
Proof.
  revert x; induction l as [|y l IH]; intros [|x]; simpl;
    try discriminate; auto.
  intros H. inversion H. reflexivity.
Qed.

(** X21. Where the loader fulfils a promise. The loader itself, in a call
    and in a run of its interval, fulfils a promise only after it has found
    [google.maps.places] defined: in whatever state it runs, a promise that
    is fulfilled afterwards was fulfilled before, or the API is there. The
    timeout and the script's [onerror] fulfil nothing. The closure stored
    in [window.initGoogleMapsCallback] is the exception: it fulfils its
    promise and sets the loaded flag without looking at the API, so that
    whether the API is there then is up to the script that calls it. *)
Theorem loader_fulfils_when_api_ready (w : World) (t q p : nat) :
  (promiseState (fst (loadGoogleMapsScript w)) p = Some Fulfilled ->
   promiseState w p = Some Fulfilled \/ places w = true)
  /\ (promiseState (tickBody t q w) p = Some Fulfilled ->
      promiseState w p = Some Fulfilled \/ places w = true)
  /\ (promiseState (timeoutBody t q w) p = Some Fulfilled ->
      promiseState w p = Some Fulfilled)
  /\ (promiseState (onerrorBody q w) p = Some Fulfilled ->
      promiseState w p = Some Fulfilled)
  /\ (promiseState w q = Some Pending ->
      promiseState (callbackBody q w) q = Some Fulfilled
      /\ isScriptLoaded (callbackBody q w) = true
      /\ places (callbackBody q w) = places w).
Proof.
  unfold promiseState. split; [|split; [|split; [|split]]].
  - unfold loadGoogleMapsScript, executor, alloc, existingScript, resolve,
      reject.
    destruct (places w) eqn:P; [auto|].
    rewrite !andb_false_r.
    destruct (isScriptLoading w), (scriptLoadPromise w) as [x|];
      cbn [fst]; auto;
      cbn; rewrite ?P;
      destruct (pageScript w), (script w), (apiKey w); cbn;
      intros H;
      try apply settleAt_rejected_fulfilled in H;
      apply nth_error_snoc_inv in H;
      destruct H as [H | [_ H]]; auto; discriminate H.
  - unfold tickBody, resolve, clearInterval.
    destruct (places w); [auto|]. auto.
  - unfold timeoutBody, reject, clearInterval. cbn.
    destruct (negb (isScriptLoaded w)); cbn; auto.
    apply settleAt_rejected_fulfilled.
  - unfold onerrorBody, reject. cbn. apply settleAt_rejected_fulfilled.
  - unfold callbackBody, resolve. cbn. intros H.
    split; [now apply settleAt_fulfils | split; reflexivity].
Qed.

Lemma loader_fulfils_when_api_ready_witness :
  places (initial true false None) = true
  /\ promiseState (callbackBody 0 (fst (loadGoogleMapsScript
                                         (initial false false
                                            (Some (lit "k")))))) 0
     = Some Fulfilled
  /\ places (callbackBody 0 (fst (loadGoogleMapsScript
                                    (initial false false
                                       (Some (lit "k")))))) = false.
Proof.
  split; [|split].
  - destruct (proj1 (loader_fulfils_when_api_ready
                       (initial true false None) 0 0 0) eq_refl)
      as [H | H]; [discriminate H | exact H].
  - apply (proj2 (proj2 (proj2 (proj2
             (loader_fulfils_when_api_ready
                (fst (loadGoogleMapsScript
                        (initial false false (Some (lit "k"))))) 0 0 0))))).
    reflexivity.
  - destruct (proj2 (proj2 (proj2 (proj2
                (loader_fulfils_when_api_ready
                   (fst (loadGoogleMapsScript
                           (initial false false (Some (lit "k")))))
                   0 0 0)))) eq_refl) as [_ [_ H]].
    rewrite H. reflexivity.
Defined.

(** X22. The polling timers do not pile up. In every reachable state at
    most one interval is running; it runs only while a load is in
    progress, and the timeout that will clear it is still pending. *)
Theorem loader_runs_one_interval
    (pl pg : bool) (key : option JsString) (es : list Event) :
  let w := run es (initial pl pg key) in
  length (intervals w) <= 1
  /\ (forall t p, In (t, p) (intervals w) ->
        isScriptLoading w = true /\ In (t, p) (timeouts w))
  /\ (isScriptLoading w = false -> intervals w = []).
Proof.
  intros w.
  assert (T : tidy w) by apply run_tidy, initial_tidy.
  destruct T as [_ [_ [_ [[TL TI] _]]]].
  split; [exact TL | split].
  - intros t p H. destruct (TI t p H) as [A [_ B]]. now split.
  - intros L. destruct (intervals w) as [|[t p] l] eqn:E; [reflexivity|].
    destruct (TI t p (or_introl eq_refl)) as [A _]. congruence.
Qed.

Lemma loader_runs_one_interval_witness :
  intervals (run [Call; Call; Tick 0; Timeout 0; Call; Timeout 1]
                 (initial false true None)) = [].
Proof.
  apply (loader_runs_one_interval false true None
           [Call; Call; Tick 0; Timeout 0; Call; Timeout 1]).
  reflexivity.
Defined.

Lemma fire_keyless (w : World) (e : Event) : keyless w -> keyless (fire w e).
Proof.
  destruct w as [ld lg sp ps cb sc pg pl iv tv nt ap key].
  unfold keyless. cbn. intros [-> [-> [-> [-> [-> [-> ->]]]]]].
  destruct e as [| | | |t|t]; cbn; try (repeat split; reflexivity).
  unfold loadGoogleMapsScript, executor, existingScript, alloc. cbn.
  destruct ld, pl, sp; cbn; repeat split; reflexivity.
Qed.

Lemma run_keyless (es : list Event) (w : World) :
  keyless w -> keyless (run es w).
Proof.
  revert w; induction es as [|e es IH]; intros w K; [exact K|].
  apply IH, fire_keyless, K.
Qed.

(** X23. Without an API key, in a page without a Maps script element, the
    loader never appends a script element; and as long as the API is not
    there, every call hands out a promise that is already rejected and
    leaves no load in progress. *)
Theorem loader_without_key_rejects (pl : bool) (es : list Event) :
  let w := run es (initial pl false None) in
  appended w = 0
  /\ script w = NotCreated
  /\ (places w = false ->
      promiseState (fst (loadGoogleMapsScript w))
                   (snd (loadGoogleMapsScript w)) = Some Rejected
      /\ isScriptLoading (fst (loadGoogleMapsScript w)) = false
      /\ appended (fst (loadGoogleMapsScript w)) = 0).
Proof.
  intros w.
  assert (K : keyless w).
  { apply run_keyless. unfold keyless. cbn. repeat split. }
  assert (I : invariant w) by apply run_invariant, initial_invariant.
  destruct I as [A _].
  destruct w as [ld lg sp ps cb sc pg pl' iv tv nt ap key].
  unfold keyless in K. cbn in K, A |- *.
  destruct K as [-> [-> [-> [-> [-> [-> ->]]]]]].
  split; [reflexivity | split; [reflexivity|]].
  intros ->.
  destruct ld; [now specialize (A eq_refl)|].
  unfold loadGoogleMapsScript, executor, existingScript, alloc, reject,
    promiseState.
  cbn. destruct sp; cbn; rewrite settleAt_snoc, nth_error_snoc;
    repeat split.
Qed.

Lemma loader_without_key_rejects_witness :
  promiseState (fst (loadGoogleMapsScript
                       (run [Call; Call] (initial false false None))))
               (snd (loadGoogleMapsScript
                       (run [Call; Call] (initial false false None))))
  = Some Rejected.
Proof.
  apply (proj2 (proj2 (loader_without_key_rejects false [Call; Call]))).
  reflexivity.
Defined.

End MapsLoaderTidySpec.

(** ** handlers.ts: a run of polls *)

Module PollRunsSpec.
Import JsStr Handlers Handlers.Poll PollRuns JsStrFacts HandlersSpec.

Section Runs.
Variables API_URL jobId : JsString.

Lemma poll_by_report (reply : Reply) (o : Observer) :
  poll API_URL jobId reply o
  = match reportOf reply with
    | Some d => finished d o
    | None => o
    end.
Proof.
  unfold reportOf. destruct reply as [|[|] [data|]];
    try (destruct o; reflexivity).
  destruct (status_is data "completed" && truthy (result_report data)) eqn:E.
  - now apply poll_report.
  - now apply poll_no_report.
Qed.

Lemma polls_snoc (l : list Reply) (r : Reply) (o : Observer) :
  polls API_URL jobId (l ++ [r]) o
  = poll API_URL jobId r (polls API_URL jobId l o).
Proof. unfold polls. now rewrite fold_left_app. Qed.

Lemma lastReport_snoc (l : list Reply) (r : Reply) :
  lastReport (l ++ [r])
  = match reportOf r with Some d => Some d | None => lastReport l end.
Proof. unfold lastReport. now rewrite fold_left_app. Qed.

Lemma pollingStopped_again (d : PollData) (o x : Observer) :
  pollingStopped o x = true -> pollingStopped o (finished d x) = true.
Proof.
  unfold pollingStopped, finished. cbn [pollingIntervalRef intervals].
  destruct (pollingIntervalRef x); [discriminate|]. auto.
Qed.

(** X24. Polls compose. After any run of polls the observer is untouched if
    no reply carried a report; otherwise it shows the report of the last
    reply that carried one, is complete and no longer researching, and its
    polling is stopped: the ref is null and the interval it referenced
    before the run is cleared. Replies without report, failures included,
    never undo a completion. *)
Theorem polls_end_with_last_report (replies : list Reply) (o : Observer) :
  let o' := polls API_URL jobId replies o in
  match lastReport replies with
  | None => o' = o
  | Some d =>
      output o' = Some (mkOutput [] (result_report d))
      /\ isComplete o' = true
      /\ isResearching o' = false
      /\ currentPhase o' = Some complete
      /\ hasFinalReport o' = true
      /\ pollingIntervalRef o' = None
      /\ pollingStopped o o' = true
  end.
Proof.
  cbn zeta. induction replies as [|r l IH] using rev_ind; [reflexivity|].
  rewrite polls_snoc, lastReport_snoc, poll_by_report.
  destruct (reportOf r) as [d|]; [|exact IH].
  repeat split.
  destruct (lastReport l) as [d'|].
  - apply pollingStopped_again. apply IH.
  - rewrite IH. apply pollingStopped_finished.
Qed.

End Runs.

End PollRunsSpec.

(** ** The example popup and the research form *)

Module ExampleFlowSpec.
Import JsStr ExampleFlow.

Lemma popupStep_in_range (p : Popup) (e : PopupEvent) :
  selectedExample p < 7 -> selectedExample (popupStep p e) < 7.
Proof.
  intros H. destruct e as [|i]; cbn [popupStep]; [exact H|].
  destruct (nth_error (pending p) i) as [[|]|]; cbn; try exact H.
  apply (Nat.mod_upper_bound _ 7). discriminate.
Qed.

Lemma popupRun_in_range (es : list PopupEvent) (p : Popup) :
  selectedExample p < 7 -> selectedExample (popupRun es p) < 7.
Proof.
  revert p; induction es as [|e es IH]; intros p H; [exact H|].
  apply IH, popupStep_in_range, H.
Qed.

Lemma popupRun_app (a b : list PopupEvent) (p : Popup) :
  popupRun (a ++ b) p = popupRun b (popupRun a p).
Proof. apply fold_left_app. Qed.

Lemma rotations (n s : nat) (a : bool) :
  s < 7 ->
  popupRun (concat (repeat rotation n)) (mkPopup s a [])
  = mkPopup ((s + n) mod 7) (match n with 0 => a | _ => false end) [].
Proof.
  revert s a; induction n as [|n IH]; intros s a H.
  - cbn [repeat concat popupRun fold_left].
    now rewrite Nat.add_0_r, Nat.mod_small.
  - cbn [repeat concat]. rewrite popupRun_app.
    replace (popupRun rotation (mkPopup s a []))
      with (mkPopup ((s + 1) mod 7) false []) by reflexivity.
    rewrite IH by (apply Nat.mod_upper_bound; discriminate).
    f_equal.
    + rewrite Nat.Div0.add_mod_idemp_l. f_equal. lia.
    + now destruct n.
Qed.

(** X25. The example on display. Whatever interval ticks and timers have
    run, in whatever order, the selected index stays below the number of
    examples, so a click always hands one of the seven examples to
    [onExampleSelect], never [undefined]. After [n] full turns of the
    interval the popup shows example [n mod 7], is not animating and has no
    timer pending; seven turns bring it back to where it started. *)
Theorem popup_cycles_through_examples (es : list PopupEvent) (n : nat) :
  (exists example,
     clicked (popupRun es initialPopup) = Some example
     /\ In example EXAMPLE_COMPANIES)
  /\ popupRun (concat (repeat rotation (S n))) initialPopup
     = mkPopup (S n mod 7) false []
  /\ popupRun (concat (repeat rotation 7)) initialPopup = initialPopup.
Proof.
  split; [|split].
  - pose proof (popupRun_in_range es initialPopup) as H.
    unfold clicked.
    destruct (nth_error EXAMPLE_COMPANIES
                (selectedExample (popupRun es initialPopup))) as [x|] eqn:E.
    + exists x. split; [reflexivity | now apply nth_error_In in E].
    + apply nth_error_None in E. simpl in E, H.
      assert (0 < 7) by lia. specialize (H ltac:(lia)). lia.
  - unfold initialPopup. rewrite rotations by lia. reflexivity.
  - reflexivity.
Qed.

(** X26. A click on an example fills the form and starts the research.
    Once the 500 ms timer of [fillExampleData] has run, the form holds the
    four fields of the example; [onSubmit] has been called exactly once,
    with these same fields, if no research was running at the click, and
    not at all otherwise. Every example enables the submit button of the
    form it fills, unless a research is running. *)
Theorem fillExampleData_fills_and_submits
    (isResearching : bool) (example : ExampleCompany) (before : FormData) :
  let es := flatten (fillExampleData isResearching example) in
  let filled := mkFormData (ex_name example) (ex_url example)
                           (ex_hq example) (ex_industry example) in
  formAfter es before = filled
  /\ submitted es = (if isResearching then [] else [filled])
  /\ (In example EXAMPLE_COMPANIES ->
      submitDisabled isResearching filled = isResearching).
Proof.
  cbn zeta. destruct isResearching; (split; [reflexivity | split;
    [reflexivity|]]); intros H; simpl in H;
    repeat (destruct H as [H | H]; [subst example; reflexivity|]);
    contradiction.
Qed.

Lemma fillExampleData_fills_and_submits_witness :
  submitDisabled false (mkFormData (lit "Tesla") (lit "tesla.com")
                                   (lit "Austin, TX")
                                   (lit "Automotive & Energy")) = false.
Proof.
  apply (proj2 (proj2 (fillExampleData_fills_and_submits false
           (mkExample (lit "Tesla") (lit "tesla.com") (lit "Austin, TX")
                      (lit "Automotive & Energy"))
           (mkFormData [] [] [] [])))).
  simpl. tauto.
Defined.

End ExampleFlowSpec.

(** ** The status card *)

Module StatusCardSpec.
Import JsStr Handlers StatusCard JsStrFacts.

(** X27. The status card. Without a status nothing is rendered, not even
    an error. With a status, a non-empty error wins over everything: the
    cross is shown and the error replaces the message, also when the
    research is complete. Without error the check mark is shown exactly
    when the step is ['Complete'] or [isComplete] holds, the spinner
    otherwise, and the message of the status is shown. *)
Theorem status_card_prefers_error (status : option ResearchStatusType)
    (error : option JsString) (isComplete : bool)
    (currentPhase : option Phase) :
  (status = None ->
     ResearchStatus status error isComplete currentPhase = None)
  /\ (forall s, status = Some s ->
        exists card,
          ResearchStatus status error isComplete currentPhase = Some card
          /\ card_step card = step s
          /\ (errorText error <> [] ->
              card_icon card = XCircle /\ card_text card = errorText error)
          /\ (errorText error = [] ->
              card_text card = status_message s
              /\ (card_icon card = CheckCircle2
                  <-> step s = lit "Complete" \/ isComplete = true)
              /\ (card_icon card = Loader2
                  <-> step s <> lit "Complete" /\ isComplete = false))).
Proof.
  split; [intros ->; reflexivity|].
  intros s ->. eexists. split; [reflexivity|].
  cbn [card_step card_icon card_text]. split; [reflexivity|].
  destruct (errorText error) as [|c e]; cbn [truthy or_else].
  - split; [intros N; now contradiction N|]. intros _.
    split; [reflexivity|].
    assert (I : forall b1 b2 : bool,
              (if b1 then Loader2 else if b2 then Loader2 else Loader2)
              = Loader2) by (intros [|] [|]; reflexivity).
    rewrite I.
    destruct (eqb (step s) (lit "Complete") || isComplete) eqn:B.
    + apply orb_true_iff in B. rewrite eqb_eq in B.
      split; split; try discriminate; try tauto.
      intros [N1 N2]. destruct B as [B | B]; congruence.
    + apply orb_false_iff in B. destruct B as [B1 B2].
      apply eqb_neq in B1.
      split; split; try discriminate; try tauto.
      intros [N | N]; congruence.
  - split; [intros _; split; reflexivity | intros N; discriminate].
Qed.

Lemma status_card_prefers_error_witness :
  exists card,
    ResearchStatus (Some (mkStatus (lit "Complete") (lit "done")))
                   (Some (lit "boom")) true (Some complete) = Some card
    /\ card_icon card = XCircle.
Proof.
  destruct (proj2 (status_card_prefers_error
                     (Some (mkStatus (lit "Complete") (lit "done")))
                     (Some (lit "boom")) true (Some complete))
                  _ eq_refl) as [card [E [_ [H _]]]].
  exists card. split; [exact E|]. apply H. discriminate.
Defined.

End StatusCardSpec.

(** ** Paragraphs of the report *)

Module ReportParagraphSpec.
Import JsStr ReportParagraph JsStrFacts.

Lemma split_shape (c : N) (s : JsString) :
  exists piece pieces rest,
    split c s = piece :: pieces
    /\ s = piece ++ rest
    /\ ~ In c piece
    /\ ((rest = [] /\ pieces = [])
        \/ exists r, rest = c :: r /\ pieces = split c r).
Proof.
  induction s as [|x s IH].
  - exists [], [], []. cbn. repeat split; auto.
  - cbn [split]. destruct (N.eqb x c) eqn:E.
    + apply N.eqb_eq in E. subst x.
      exists [], (split c s), (c :: s). repeat split; auto.
      right. exists s. split; reflexivity.
    + apply N.eqb_neq in E.
      destruct IH as [piece [pieces [rest [S [T [N R]]]]]].
      rewrite S. exists (x :: piece), pieces, rest.
      repeat split; auto.
      * cbn. now rewrite T.
      * intros [H | H]; [now apply E | now apply N].
Qed.

Lemma existsb_In (c : N) (s : JsString) :
  existsb (N.eqb c) s = true <-> In c s.
Proof.
  rewrite existsb_exists. split.
  - intros [x [H E]]. apply N.eqb_eq in E. now subst.
  - intros H. exists c. split; [exact H | apply N.eqb_refl].
Qed.

Lemma endsWithUnit_removelast (c : N) (s : JsString) :
  endsWithUnit c s = true -> s = removelast s ++ [c].
Proof.
  induction s as [|x s IH]; [discriminate|].
  cbn [endsWithUnit removelast]. destruct s as [|y s].
  - intros E. apply N.eqb_eq in E. now subst.
  - intros E. cbn [List.app]. f_equal. apply IH, E.
Qed.

Lemma removelast_length (s : JsString) :
  length (removelast s) <= length s.
Proof.
  induction s as [|x s IH]; [simpl; lia|].
  destruct s as [|y s]; [simpl; lia|].
  change (removelast (x :: y :: s)) with (x :: removelast (y :: s)).
  cbn [length] in *. lia.
Qed.

Lemma removelast_In (x : N) (s : JsString) :
  In x (removelast s) -> In x s.
Proof.
  induction s as [|y s IH]; [intros []|].
  destruct s as [|z s]; [intros [] |].
  change (removelast (y :: z :: s)) with (y :: removelast (z :: s)).
  intros [H | H]; [now left | right; apply IH, H].
Qed.

(** X28. A bullet line keeps only what lies before its second colon. When a
    paragraph is rendered as a bullet with label and content, the text is a
    bullet sign, a head without colon, a colon, and the content, which has
    no colon either; the label shown is the trimmed head with a colon; what
    follows the content, if anything, starts with a colon and is not
    rendered at all. The text of such a paragraph does not end with a
    colon as a short single line would, for then it is a heading. *)
Theorem bullet_label_stops_at_second_colon (text label content : JsString) :
  renderParagraph text = BulletLabel label content ->
  (exists head rest,
     text = bullet :: head ++ colon :: content ++ rest
     /\ ~ In colon head
     /\ ~ In colon content
     /\ (rest = [] \/ exists r, rest = colon :: r)
     /\ label = trim head ++ [colon])
  /\ isSubsectionHeader text = false.
Proof.
  unfold renderParagraph.
  destruct (isSubsectionHeader text); [discriminate|].
  destruct (startsWith [bullet] text && existsb (N.eqb colon) text) eqn:G;
    [|discriminate].
  apply andb_true_iff in G. destruct G as [G1 G2].
  apply startsWith_spec in G1. destruct G1 as [t T]. cbn in T.
  apply existsb_In in G2.
  destruct (split_shape colon text)
    as [piece [pieces [rest [S [E [N R]]]]]].
  rewrite S.
  destruct R as [[-> ->] | [r [-> ->]]].
  - rewrite app_nil_r in E. subst piece. now contradiction N.
  - destruct (split_shape colon r)
      as [piece2 [pieces2 [rest2 [S2 [E2 [N2 R2]]]]]].
    rewrite S2. intros H. inversion H; subst label content; clear H.
    split; [|reflexivity].
    destruct piece as [|b head].
    + cbn in E. rewrite T in E. inversion E.
    + rewrite T in E. cbn in E. inversion E; subst b.
      exists head, rest2.
      split; [rewrite T; f_equal; rewrite H1, E2; reflexivity|].
      split; [intros X; apply N; now right|].
      split; [exact N2|].
      split; [|cbn; reflexivity].
      destruct R2 as [[-> _] | [r2 [-> _]]]; [now left | right; eauto].
Qed.

Lemma bullet_label_stops_at_second_colon_witness :
  isSubsectionHeader (bullet :: lit " Website: https://acme.com") = false.
Proof.
  apply (proj2 (@bullet_label_stops_at_second_colon
                  (bullet :: lit " Website: https://acme.com")
                  (lit "Website:") (lit " https") eq_refl)).
Defined.

(** X29. What is rendered as a sub-section heading. The heading shown is
    shorter than 50 code units and has no line break; either the paragraph
    is the heading followed by one colon, which is dropped, or it is the
    heading itself, which then starts with a capital letter, continues with
    letters, white space and slashes only, and does not end with a
    colon. *)
Theorem subsection_heading_shape (text heading : JsString) :
  renderParagraph text = SubsectionHeader heading ->
  length heading < 50
  /\ ~ In lineFeed heading
  /\ (text = heading ++ [colon]
      \/ (text = heading /\ headingLike heading = true
          /\ endsWithUnit colon heading = false)).
Proof.
  unfold renderParagraph.
  destruct (isSubsectionHeader text) eqn:H.
  - unfold isSubsectionHeader in H.
    apply andb_true_iff in H. destruct H as [H H3].
    apply andb_true_iff in H. destruct H as [H1 H2].
    apply negb_true_iff in H1. apply Nat.ltb_lt in H2.
    assert (NL : ~ In lineFeed text).
    { intros X. apply existsb_In in X. congruence. }
    destruct (endsWithUnit colon text) eqn:E; intros X; inversion X; subst.
    + pose proof (removelast_length text).
      split; [lia | split].
      * intros Y. apply NL. now apply removelast_In.
      * left. now apply endsWithUnit_removelast.
    + split; [exact H2 | split; [exact NL | right]].
      cbn in H3. auto.
  - destruct (startsWith [bullet] text && existsb (N.eqb colon) text);
      [|discriminate].
    destruct (split colon text) as [|l [|c ps]]; discriminate.
Qed.

Lemma subsection_heading_shape_witness :
  lit "Key Products:" = lit "Key Products" ++ [colon].
Proof.
  destruct (@subsection_heading_shape (lit "Key Products:")
              (lit "Key Products") eq_refl) as [_ [_ [H | [H _]]]].
  - exact H.
  - discriminate H.
Defined.

End ReportParagraphSpec.
